(** * OmniSession: session capture / restore engine

    A shallow embedding of the service worker of the browser extension
    ([extension/background.js], identity-scoped variant with the
    end-to-end encryption envelope) and the properties its design
    document states about it.

    Layout:
    - [Str]       JavaScript string primitives used by the code
    - [Resolver]  [getRootDomain], [isRestrictedUrl]
    - [Cookies]   [mergeCookies], [collectCandidateHosts],
                  [filterCookiesForDomain], [buildCookieDetails]
    - [Browser]   the host environment: tabs, cookie store, scripting,
                  storage settings, network; a state-and-error monad
    - [Engine]    [readLocalStorageForUrl], [writeLocalStorageForUrl],
                  the envelope, [runBackup], [runRestore]
    - [Sample]    an executable platform and hosts for the scenarios
    - [Spec]      the vocabulary of the properties
    - [ResolverFacts], [CookieFacts], [SampleFacts], [EngineFacts]:
                  the properties and their proofs. *)

From Stdlib Require Import String Ascii List ZArith Lia Bool Arith.
From Stdlib Require DecimalString HexadecimalString.
Import ListNotations.
Local Open Scope list_scope.
Local Open Scope string_scope.

(** ** JavaScript string primitives *)

Module Str.

(** [s.split(sep)] for a one-character separator: never the empty
    array, the empty string splits to one empty piece. *)
Fixpoint split (sep : ascii) (s : string) : list string :=
  match s with
  | EmptyString => [EmptyString]
  | String c rest =>
      if Ascii.eqb c sep then EmptyString :: split sep rest
      else match split sep rest with
           | [] => [String c EmptyString]
           | piece :: pieces => String c piece :: pieces
           end
  end.

(** [parts.join(sep)]. *)
Definition join (sep : string) (parts : list string) : string :=
  String.concat sep parts.

(** [arr.slice(-n)]: the last [n] elements, the whole array when it is
    shorter. *)
Definition slice_last {A : Type} (n : nat) (l : list A) : list A :=
  skipn (length l - n) l.

(** [s.startsWith(p)]. *)
Definition startsWith (s p : string) : bool := String.prefix p s.

(** [s.endsWith(p)]. *)
Definition endsWith (s p : string) : bool :=
  (String.length p <=? String.length s)%nat &&
  String.eqb (String.substring (String.length s - String.length p)
                               (String.length p) s) p.

(** [s.replace(/^\./, "")]: at most one leading dot is removed. *)
Definition stripLeadingDot (s : string) : string :=
  match s with
  | String "." rest => rest
  | _ => s
  end.

(** The character [c] does not occur in [s]. *)
Fixpoint lacks (c : ascii) (s : string) : bool :=
  match s with
  | EmptyString => true
  | String a rest => negb (Ascii.eqb a c) && lacks c rest
  end.

(** JavaScript truthiness of a string. *)
Definition truthy (s : string) : bool := negb (String.eqb s "").

End Str.

(** ** Root Domain Resolver *)

Module Resolver.

(** What the code reads off a parsed [URL] object. *)
Record URL := mkURL {
  hostname : string;
  origin : string
}.

(** The body of [getRootDomain] once the hostname is known. *)
Definition rootOfHostname (host : string) : string :=
  let parts := Str.split "." host in
  if (2 <? length parts)%nat then Str.join "." (Str.slice_last 2 parts)
  else host.

(** [getRootDomain(url)]; [parse] is the platform's [new URL(url)],
    [None] when it throws. *)
Definition getRootDomain (parse : string -> option URL) (url : string)
  : option string :=
  match parse url with
  | Some u => Some (rootOfHostname (hostname u))
  | None => None
  end.

(** [isRestrictedUrl(url)]. *)
Definition isRestrictedUrl (url : string) : bool :=
  Str.startsWith url "chrome://" ||
  Str.startsWith url "chrome-extension://" ||
  Str.startsWith url "edge://".

End Resolver.

(** ** Cookie records and the pure cookie functions *)

Module Cookies.

(** A [chrome.cookies.Cookie] as the code reads it.  The browser always
    supplies [name], [domain] and [path] as strings; the other attributes
    the code tests for presence are absent ([None]) or present.  The
    cookie store reports [hostOnly] on every record it returns; a record
    read back from a backup carries whatever was stored.
    [expirationDate] is a number of seconds that the code only copies. *)
Record Cookie := mkCookie {
  name : string;
  value : string;
  domain : string;
  path : string;
  secure : bool;
  httpOnly : bool;
  hostOnly : option bool;
  sameSite : option string;
  expirationDate : option Z;
  priority : option string;
  sameParty : option bool
}.

(** The template literal
    [`${cookie.name}|${cookie.domain || ""}|${cookie.path || ""}`].
    On strings [x || ""] is [x]. *)
Definition cookieKey (c : Cookie) : string :=
  name c ++ "|" ++ domain c ++ "|" ++ path c.

(** [merged.has(key)] on a [Map] kept as an insertion-ordered
    association list. *)
Definition mapHas {V : Type} (key : string) (m : list (string * V)) : bool :=
  existsb (fun kv => String.eqb (fst kv) key) m.

(** The callback of [forEach] in [mergeCookies]: records without a name
    are skipped, a key already present is left alone, a new key is
    appended. *)
Definition mergeStep (merged : list (string * Cookie)) (cookie : Cookie)
  : list (string * Cookie) :=
  if negb (Str.truthy (name cookie)) then merged
  else
    let key := cookieKey cookie in
    if negb (mapHas key merged) then (merged ++ [(key, cookie)])%list
    else merged.

(** [mergeCookies(...cookieLists)]. *)
Definition mergeCookies (cookieLists : list (list Cookie)) : list Cookie :=
  map snd (fold_left mergeStep (concat cookieLists) []).

(** [new Set([...])] followed by [add]: insertion order, no repeats. *)
Definition setAdd (hosts : list string) (h : string) : list string :=
  if existsb (String.eqb h) hosts then hosts else (hosts ++ [h])%list.

(** [collectCandidateHosts(cookies, currentHostname)]. *)
Definition collectCandidateHosts (cookies : list Cookie)
  (currentHostname : string) : list string :=
  fold_left
    (fun hosts cookie =>
       if negb (Str.truthy (domain cookie)) then hosts
       else
         let host := Str.stripLeadingDot (domain cookie) in
         if Str.truthy host then setAdd hosts host else hosts)
    cookies [currentHostname].

(** [filterCookiesForDomain(cookies, rootDomain, currentHostname)]. *)
Definition filterCookiesForDomain (cookies : list Cookie)
  (rootDomain currentHostname : string) : list Cookie :=
  filter
    (fun cookie =>
       let cookieDomain :=
         if Str.truthy (domain cookie) then Str.stripLeadingDot (domain cookie)
         else "" in
       if negb (Str.truthy cookieDomain) then false
       else if String.eqb cookieDomain currentHostname
               || String.eqb cookieDomain rootDomain then true
       else Str.endsWith cookieDomain ("." ++ rootDomain))
    cookies.

(** The argument object of [chrome.cookies.set]; an attribute that the
    code does not assign is [None]. *)
Record Details := mkDetails {
  d_url : string;
  d_name : string;
  d_value : string;
  d_path : string;
  d_secure : bool;
  d_httpOnly : bool;
  d_domain : option string;
  d_storeId : option string;
  d_sameSite : option string;
  d_expirationDate : option Z;
  d_priority : option string;
  d_sameParty : option bool
}.

(** JavaScript truthiness of an optional boolean field. *)
Definition flagSet (o : option bool) : bool :=
  match o with
  | Some b => b
  | None => false
  end.

(** A string-valued attribute kept only when truthy. *)
Definition keepTruthy (o : option string) : option string :=
  match o with
  | Some s => if Str.truthy s then Some s else None
  | None => None
  end.

(** [buildCookieDetails(cookie, storeId)]. *)
Definition buildCookieDetails (cookie : Cookie) (storeId : option string)
  : Details :=
  let hostname := Str.stripLeadingDot (domain cookie) in
  let url :=
    (if secure cookie then "https" else "http") ++ "://" ++ hostname ++
    (if Str.truthy (path cookie) then path cookie else "/") in
  {| d_url := url;
     d_name := name cookie;
     d_value := value cookie;
     d_path := path cookie;
     d_secure := secure cookie;
     d_httpOnly := httpOnly cookie;
     d_domain := if negb (flagSet (hostOnly cookie)) then Some (domain cookie) else None;
     d_storeId := keepTruthy storeId;
     d_sameSite := sameSite cookie;
     d_expirationDate := expirationDate cookie;
     d_priority := keepTruthy (priority cookie);
     d_sameParty := sameParty cookie |}.

End Cookies.

(** ** The host environment *)

Module Browser.
Import Cookies.

Definition bytes := list Byte.byte.

(** One origin's [localStorage]: key/value pairs in key order. *)
Definition Storage := list (string * string).

(** The object [localStorageMap]: origin to storage, own properties in
    insertion order. *)
Definition StorageMap := list (string * Storage).

(** [obj[key]] on a storage map; [None] is [undefined].  A value that is
    present is an object, hence truthy. *)
Definition objGet (obj : StorageMap) (key : string) : option Storage :=
  match find (fun kv => String.eqb (fst kv) key) obj with
  | Some kv => Some (snd kv)
  | None => None
  end.

(** [obj[key] = v]: an existing property keeps its place, a new one goes
    last. *)
Fixpoint objSet (obj : StorageMap) (key : string) (v : Storage) : StorageMap :=
  match obj with
  | [] => [(key, v)]
  | (k, old) :: rest =>
      if String.eqb k key then (k, v) :: rest
      else (k, old) :: objSet rest key v
  end.

(** [Object.keys(obj)]. *)
Definition objKeys (obj : StorageMap) : list string := map fst obj.

(** The [action] parameter of the message [error_unsupported_page]. *)
Inductive Action := ActBackup | ActRestore | ActDelete | ActStatus | ActStorage.

(** What the code throws.  The messages built by [USK_I18N.t] are kept
    by their key and parameters; the other constructors are rejections
    that come from the host. *)
Inductive Error :=
| ErrNoActiveTab
| ErrUnsupportedPage (action : Action)
| ErrUserIdMissing
| ErrCookieSizeExceeded (limitKiB : Z)
| ErrBackupFailed (status : Z)
| ErrRestoreFailed (status : Z)
| ErrPasswordRequired
| ErrInvalidPassword
| ErrTabLoadTimeout
| ErrLastError (message : string)
| ErrFetch
| ErrBuiltin (what : string).

Definition Result (A : Type) : Type := (Error + A)%type.

Record Tab := mkTab {
  tab_id : nat;
  tab_url : string
}.

Record CookieStore := mkCookieStore {
  cs_id : string;
  cs_tabIds : list nat
}.

(** The argument of [chrome.cookies.getAll]. *)
Record Query := mkQuery {
  q_domain : option string;
  q_url : option string;
  q_storeId : option string
}.

(** The body handed to [JSON.stringify] for the backup request: the
    plaintext shape or the sealed shape. *)
Inductive RequestBody :=
| PlainBody (user_id device domain : string)
            (cookies : list Cookie) (local_storage : StorageMap)
| SealedBody (user_id device domain payload salt nonce : string).

Record Request := mkRequest {
  req_method : string;
  req_url : string;
  req_headers : list (string * string);
  req_body : option RequestBody
}.

(** What the code reads off a JSON value it received or decrypted.
    [j_cookies] is [Some] exactly when the [cookies] property is an
    array, [j_local_storage] when the property is truthy; [j_payload],
    [j_salt] and [j_nonce] are the properties as [atob] reads them,
    [None] when [undefined]. *)
Record Json := mkJson {
  j_detail : option string;
  j_cookies : option (list Cookie);
  j_local_storage : option StorageMap;
  j_payload : option string;
  j_salt : option string;
  j_nonce : option string
}.

Record Response := mkResponse {
  resp_ok : bool;
  resp_status : Z;
  resp_json : option Json
}.

(** What [chrome.scripting.executeScript] hands back to
    [readLocalStorage]. *)
Inductive ScriptRead :=
| ScriptRejected (message : string)
| ScriptNoResults
| ScriptNull
| ScriptData (data : Storage).

Inductive Event :=
| EvTabsCreate (url : string) (created : option nat)
| EvTabsRemove (id : nat)
| EvScriptRead (id : nat)
| EvScriptWrite (id : nat) (payload : Storage)
| EvCookiesGetAll (q : Query)
| EvCookiesSet (details : Details)
| EvFetch (request : Request)
| EvReload (id : nat).

(** The mutable part of the browser: which tabs are open, the next tab
    id, how often the random source was read, and everything the
    extension has asked of the host so far, oldest first. *)
Record World := mkWorld {
  open_tabs : list nat;
  next_tab : nat;
  rng_reads : nat;
  log : list Event
}.

(** How the host answers.  Every answer may depend on the call's
    arguments; answers about a tab depend on the tab. *)
Record Env := mkEnv {
  env_tabs_query : Result (list Tab);
  env_storage_get : string -> Result string;
  env_cookie_stores : Result (list CookieStore);
  env_cookies_getAll : Query -> Result (list Cookie);
  env_cookies_set : Details -> Result unit;
  env_tabs_create : nat -> string -> Result unit;
  env_tab_loaded : nat -> bool;
  env_tabs_get : nat -> Result string;
  env_script_read : nat -> ScriptRead;
  env_script_write : nat -> Storage -> Result unit;
  env_tabs_reload : nat -> Result unit;
  env_fetch : Request -> option Response;
  env_random : nat -> nat -> bytes;
  env_tabs_remove : nat -> Result unit
}.

(** Asynchronous code that may reject: a state-and-error monad. *)
Definition M (A : Type) : Type := World -> Result A * World.

Definition ret {A : Type} (a : A) : M A := fun w => (inr a, w).

Definition throw {A : Type} (e : Error) : M A := fun w => (inl e, w).

Definition bind {A B : Type} (m : M A) (k : A -> M B) : M B :=
  fun w =>
    match m w with
    | (inr a, w') => k a w'
    | (inl e, w') => (inl e, w')
    end.

(** [try { body } catch (error) { handler }]. *)
Definition tryCatch {A : Type} (body : M A) (handler : Error -> M A) : M A :=
  fun w =>
    match body w with
    | (inr a, w') => (inr a, w')
    | (inl e, w') => handler e w'
    end.

(** [try { body } finally { cleanup }]: the cleanup runs on every exit;
    when it rejects, its error replaces the outcome of the body. *)
Definition tryFinally {A : Type} (body : M A) (cleanup : M unit) : M A :=
  fun w =>
    match body w with
    | (r, w') =>
        match cleanup w' with
        | (inr _, w'') => (r, w'')
        | (inl e, w'') => (inl e, w'')
        end
    end.

Definition emit (e : Event) : M unit :=
  fun w => (inr tt, mkWorld (open_tabs w) (next_tab w) (rng_reads w)
                            (log w ++ [e])%list).

Definition lift {A : Type} (r : Result A) : M A := fun w => (r, w).

Definition liftOption {A : Type} (what : string) (o : option A) : M A :=
  match o with
  | Some a => ret a
  | None => throw (ErrBuiltin what)
  end.

Declare Scope js_scope.
Delimit Scope js_scope with js.
Notation "x <- m ;; k" := (bind m (fun x => k))
  (at level 100, m at next level, right associativity) : js_scope.
Notation "m ;;; k" := (bind m (fun _ => k))
  (at level 100, right associativity) : js_scope.

End Browser.

(** ** The engine: storage harvesting, envelope, backup and restore *)

Module Engine.
Import Cookies Resolver Browser.
Local Open Scope js_scope.

(** Functions of the JavaScript runtime that the code calls and this
    repository does not define. *)
Record Platform := mkPlatform {
  (** [new URL(s)]; [None] when the constructor throws *)
  URL_parse : string -> option URL;
  (** [encodeURIComponent] *)
  encodeURIComponent : string -> string;
  (** [new TextEncoder().encode(JSON.stringify(cookies)).length] *)
  jsonByteLength : list Cookie -> Z;
  (** UTF-8 bytes of [JSON.stringify({cookies, local_storage})] *)
  jsonEncode : list Cookie -> StorageMap -> bytes;
  (** [JSON.parse(new TextDecoder().decode(bytes))]; [None] when it
      throws or yields [null] *)
  jsonDecode : bytes -> option Json;
  (** [btoa] on a binary string, and [atob], [None] when it throws *)
  btoa : string -> string;
  atob : string -> option string;
  (** [CryptoKey] values *)
  Key : Type;
  (** [importKey] then [deriveKey] with PBKDF2 / SHA-256 to an AES-GCM
      256-bit key: password, salt, iteration count *)
  pbkdf2 : string -> bytes -> Z -> Key;
  (** [crypto.subtle.encrypt] / [decrypt] with AES-GCM: key, iv, data;
      decryption rejects ([None]) when the tag does not verify *)
  aesGcmEncrypt : Key -> bytes -> bytes -> bytes;
  aesGcmDecrypt : Key -> bytes -> bytes -> option bytes
}.

Definition API_BASE : string := "http://localhost:8000".
Definition API_BASE_KEY : string := "apiBase".
Definition API_PASSWORD_KEY : string := "apiPassword".
Definition USER_ID_KEY : string := "userId".
Definition E2E_PREFIX : string := "/e2e".
Definition COOKIE_SIZE_LIMIT_BYTES : Z := 6 * 1024.
Definition KDF_ITERATIONS : Z := 200000.
Definition KDF_SALT_BYTES : nat := 16.
Definition KDF_NONCE_BYTES : nat := 12.

(** The object returned by [encryptE2EPayload]. *)
Record Envelope := mkEnvelope {
  e_payload : string;
  e_salt : string;
  e_nonce : string
}.

(** The object returned by [readLocalStorageForUrl]. *)
Record Harvest := mkHarvest {
  h_origin : string;
  h_data : Storage
}.

(** The values [runBackup] and [runRestore] resolve to. *)
Record Outcome := mkOutcome {
  o_domain : string;
  o_cookies : nat
}.

(** The constants of [runBackup] fixed before cookies are queried. *)
Record Context := mkContext {
  c_tab : Tab;
  c_rootDomain : string;
  c_userId : string;
  c_currentOrigin : string;
  c_currentHostname : string;
  c_storeId : option string
}.

(** What [runRestore] holds once the response has been parsed. *)
Record Fetched := mkFetched {
  f_tab : Tab;
  f_rootDomain : string;
  f_apiPassword : string;
  f_data : Json
}.

(** What [runBackup] holds when it enters the harvesting loop. *)
Record Session := mkSession {
  s_context : Context;
  s_cookies : list Cookie;
  s_localStorageData : Storage
}.

Section WithHost.

Variable P : Platform.
Variable env : Env.

(** *** Host calls through [chromePromise] *)

Definition tabsCreate (url : string) : M nat :=
  fun w =>
    let id := next_tab w in
    match env_tabs_create env id url with
    | inl e =>
        (inl e, mkWorld (open_tabs w) (next_tab w) (rng_reads w)
                        (log w ++ [EvTabsCreate url None])%list)
    | inr _ =>
        (inr id, mkWorld (id :: open_tabs w) (S id) (rng_reads w)
                         (log w ++ [EvTabsCreate url (Some id)])%list)
    end.

(** [chromePromise(chrome.tabs.remove, id)].  A tab that is not open
    cannot be removed; for an open tab the host decides, and a removal it
    refuses leaves the tab open. *)
Definition tabsRemove (id : nat) : M unit :=
  fun w =>
    let asked := (log w ++ [EvTabsRemove id])%list in
    if existsb (Nat.eqb id) (open_tabs w) then
      match env_tabs_remove env id with
      | inr _ =>
          (inr tt,
           mkWorld (filter (fun t => negb (Nat.eqb t id)) (open_tabs w))
                   (next_tab w) (rng_reads w) asked)
      | inl e =>
          (inl e, mkWorld (open_tabs w) (next_tab w) (rng_reads w) asked)
      end
    else (inl (ErrLastError "No tab with id"),
          mkWorld (open_tabs w) (next_tab w) (rng_reads w) asked).

Definition tabsGet (id : nat) : M string := lift (env_tabs_get env id).

Definition storageGet (key : string) : M string :=
  lift (env_storage_get env key).

Definition cookiesGetAll (q : Query) : M (list Cookie) :=
  emit (EvCookiesGetAll q) ;;; lift (env_cookies_getAll env q).

Definition fetch (request : Request) : M Response :=
  emit (EvFetch request) ;;;
  match env_fetch env request with
  | Some response => ret response
  | None => throw ErrFetch
  end.

(** [crypto.getRandomValues(new Uint8Array(n))]. *)
Definition getRandomValues (n : nat) : M bytes :=
  fun w =>
    (inr (env_random env (rng_reads w) n),
     mkWorld (open_tabs w) (next_tab w) (S (rng_reads w)) (log w)).

(** *** Byte strings and the envelope *)

Definition bytesToBase64 (b : bytes) : string :=
  btoa P (string_of_list_byte b).

Definition base64ToBytes (value : string) : option bytes :=
  option_map list_byte_of_string (atob P value).

Definition deriveKey (password : string) (salt : bytes) : Key P :=
  pbkdf2 P password salt KDF_ITERATIONS.

Definition encryptE2EPayload (cookies : list Cookie)
  (local_storage : StorageMap) (password : string) : M Envelope :=
  salt <- getRandomValues KDF_SALT_BYTES ;;
  nonce <- getRandomValues KDF_NONCE_BYTES ;;
  let key := deriveKey password salt in
  let plaintext := jsonEncode P cookies local_storage in
  let ciphertext := aesGcmEncrypt P key nonce plaintext in
  ret {| e_payload := bytesToBase64 ciphertext;
         e_salt := bytesToBase64 salt;
         e_nonce := bytesToBase64 nonce |}.

(** [decryptE2EPayload]; [None] stands for any exception it throws.  A
    property that the response lacks reaches [atob] as [undefined],
    which it rejects. *)
Definition decryptE2EPayload (payload salt nonce : option string)
  (password : string) : option Json :=
  match salt with
  | None => None
  | Some salt =>
  match base64ToBytes salt with
  | None => None
  | Some saltBytes =>
  match nonce with
  | None => None
  | Some nonce =>
  match base64ToBytes nonce with
  | None => None
  | Some nonceBytes =>
      let key := deriveKey password saltBytes in
      match payload with
      | None => None
      | Some payload =>
      match base64ToBytes payload with
      | None => None
      | Some cipherBytes =>
      match aesGcmDecrypt P key nonceBytes cipherBytes with
      | None => None
      | Some plaintext => jsonDecode P plaintext
      end end end end end end end.

Definition getCookiesSizeBytes (cookies : list Cookie) : Z :=
  jsonByteLength P cookies.

(** *** Settings *)

Definition getApiBase : M string :=
  v <- storageGet API_BASE_KEY ;;
  ret (if Str.truthy v then v else API_BASE).

Definition getApiPassword : M string := storageGet API_PASSWORD_KEY.

Definition getUserId : M string := storageGet USER_ID_KEY.

Definition getActiveTab : M (option Tab) :=
  tabs <- lift (env_tabs_query env) ;;
  ret (hd_error tabs).

(** *** Storage of one tab *)

Definition waitForTabLoad (tabId : nat) : M unit :=
  if env_tab_loaded env tabId then ret tt else throw ErrTabLoadTimeout.

Definition readLocalStorage (tabId : nat) : M Storage :=
  emit (EvScriptRead tabId) ;;;
  match env_script_read env tabId with
  | ScriptRejected message => throw (ErrLastError message)
  | ScriptNoResults => ret []
  | ScriptNull => ret []
  | ScriptData data => ret data
  end.

Definition writeLocalStorage (tabId : nat) (payload : Storage) : M unit :=
  emit (EvScriptWrite tabId payload) ;;;
  lift (env_script_write env tabId payload).

(** [readLocalStorageForUrl(url)].  When [chrome.tabs.create] rejects,
    [tab] is still [null] and the [finally] block does nothing; once it
    has resolved, the rest of the [try] block runs under the
    [finally]. *)
Definition readLocalStorageForUrl (url : string) : M Harvest :=
  tab <- tabsCreate url ;;
  tryFinally
    (waitForTabLoad tab ;;;
     currentUrl <- tabsGet tab ;;
     if negb (Str.truthy currentUrl) || isRestrictedUrl currentUrl
     then throw (ErrUnsupportedPage ActStorage)
     else
       data <- readLocalStorage tab ;;
       u <- liftOption "URL" (URL_parse P currentUrl) ;;
       ret {| h_origin := origin u; h_data := data |})
    (tabsRemove tab).

(** [writeLocalStorageForUrl(origin, payload)]. *)
Definition writeLocalStorageForUrl (origin : string) (payload : Storage)
  : M unit :=
  tab <- tabsCreate origin ;;
  tryFinally
    (waitForTabLoad tab ;;;
     currentUrl <- tabsGet tab ;;
     if negb (Str.truthy currentUrl) || isRestrictedUrl currentUrl
     then throw (ErrUnsupportedPage ActStorage)
     else writeLocalStorage tab payload)
    (tabsRemove tab).

(** *** Backup *)

(** [chrome.cookies.getAllCookieStores] and the search for the store of
    a tab, as in [runBackup] and [getCookieStoreIdForTab]. *)
Definition getCookieStoreIdForTab (tabId : nat) : M (option string) :=
  tryCatch
    (stores <- lift (env_cookie_stores env) ;;
     ret (match find (fun item => existsb (Nat.eqb tabId) (cs_tabIds item))
                     stores with
          | Some store => Some (cs_id store)
          | None => None
          end))
    (fun _ => ret None).

(** The guards every operation starts with: an active tab with a URL
    that is not a browser-internal page. *)
Definition requireTab (action : Action) : M Tab :=
  tab <- getActiveTab ;;
  match tab with
  | None => throw ErrNoActiveTab
  | Some tab =>
      if negb (Str.truthy (tab_url tab)) then throw ErrNoActiveTab
      else if isRestrictedUrl (tab_url tab)
      then throw (ErrUnsupportedPage action)
      else ret tab
  end.

(** [runBackup], up to the cookie store lookup. *)
Definition backupContext : M Context :=
  tab <- requireTab ActBackup ;;
  rootDomain <- liftOption "URL" (getRootDomain (URL_parse P) (tab_url tab)) ;;
  userId <- getUserId ;;
  if negb (Str.truthy userId) then throw ErrUserIdMissing
  else
    currentUrl <- liftOption "URL" (URL_parse P (tab_url tab)) ;;
    storeId <- getCookieStoreIdForTab (tab_id tab) ;;
    ret {| c_tab := tab;
           c_rootDomain := rootDomain;
           c_userId := userId;
           c_currentOrigin := origin currentUrl;
           c_currentHostname := hostname currentUrl;
           c_storeId := storeId |}.

(** [storeId ? {...query, storeId} : query]. *)
Definition withStore (storeId : option string) (q : Query) : Query :=
  match keepTruthy storeId with
  | Some id => mkQuery (q_domain q) (q_url q) (Some id)
  | None => q
  end.

Definition cookieQueries (c : Context) : list Query :=
  [ mkQuery (Some (c_rootDomain c)) None None;
    mkQuery None (Some (tab_url (c_tab c))) None;
    mkQuery None (Some (c_currentOrigin c)) None;
    mkQuery None (Some (c_currentOrigin c ++ "/")) None ].

(** The [for ... of cookieQueries] loop filling [cookieBuckets]. *)
Fixpoint queryBuckets (storeId : option string) (queries : list Query)
  : M (list (list Cookie)) :=
  match queries with
  | [] => ret []
  | query :: rest =>
      result <- cookiesGetAll (withStore storeId query) ;;
      buckets <- queryBuckets storeId rest ;;
      ret (result :: buckets)
  end.

(** [runBackup], the four queries, the merge and the fallback scan. *)
Definition collectCookies (c : Context) : M (list Cookie) :=
  cookieBuckets <- queryBuckets (c_storeId c) (cookieQueries c) ;;
  let cookies := mergeCookies cookieBuckets in
  if (length cookies =? 0)%nat then
    allCookies <- cookiesGetAll (withStore (c_storeId c)
                                           (mkQuery None None None)) ;;
    ret (mergeCookies
           [cookies;
            filterCookiesForDomain allCookies (c_rootDomain c)
                                   (c_currentHostname c)])
  else ret cookies.

(** [runBackup], the size guard.  The limit shown in the message is
    [Math.round(COOKIE_SIZE_LIMIT_BYTES / 1024)], an exact quotient. *)
Definition guardCookieSize (cookies : list Cookie) : M unit :=
  if (COOKIE_SIZE_LIMIT_BYTES <? getCookiesSizeBytes cookies)%Z
  then throw (ErrCookieSizeExceeded (COOKIE_SIZE_LIMIT_BYTES / 1024))
  else ret tt.

(** One turn of the [for ... of candidateHosts] loop. *)
Definition harvestHost (currentHostname : string)
  (localStorageMap : StorageMap) (host : string) : M StorageMap :=
  if String.eqb host currentHostname then ret localStorageMap
  else
    result <-
      tryCatch
        (r <- readLocalStorageForUrl ("https://" ++ host) ;; ret (Some r))
        (fun _ =>
           tryCatch
             (r <- readLocalStorageForUrl ("http://" ++ host) ;; ret (Some r))
             (fun _ => ret None)) ;;
    match result with
    | Some r =>
        if Str.truthy (h_origin r)
           && negb (match objGet localStorageMap (h_origin r) with
                    | Some _ => true
                    | None => false
                    end)
        then ret (objSet localStorageMap (h_origin r) (h_data r))
        else ret localStorageMap
    | None => ret localStorageMap
    end.

Fixpoint harvestLoop (currentHostname : string) (hosts : list string)
  (localStorageMap : StorageMap) : M StorageMap :=
  match hosts with
  | [] => ret localStorageMap
  | host :: rest =>
      m <- harvestHost currentHostname localStorageMap host ;;
      harvestLoop currentHostname rest m
  end.

(** [runBackup], from the settings to the returned summary. *)
Definition submitBackup (c : Context) (cookies : list Cookie)
  (localStorageMap : StorageMap) : M Outcome :=
  apiBase <- getApiBase ;;
  apiPassword <- getApiPassword ;;
  let useE2E := Str.truthy apiPassword in
  let device := "" in
  let headers := [("Content-Type", "application/json")] in
  requestBody <-
    (if useE2E then
       encryptedPayload <- encryptE2EPayload cookies localStorageMap
                                             apiPassword ;;
       ret (SealedBody (c_userId c) device (c_rootDomain c)
                       (e_payload encryptedPayload)
                       (e_salt encryptedPayload)
                       (e_nonce encryptedPayload))
     else
       ret (PlainBody (c_userId c) device (c_rootDomain c)
                      cookies localStorageMap)) ;;
  let backupPath := if useE2E then E2E_PREFIX ++ "/backup" else "/backup" in
  response <- fetch (mkRequest "POST" (apiBase ++ backupPath) headers
                               (Some requestBody)) ;;
  if negb (resp_ok response) then throw (ErrBackupFailed (resp_status response))
  else ret {| o_domain := c_rootDomain c; o_cookies := length cookies |}.

(** [runBackup], everything that has to succeed before the other hosts
    are visited: context, cookies, size guard, storage of the active
    tab. *)
Definition collectSession : M Session :=
  c <- backupContext ;;
  cookies <- collectCookies c ;;
  guardCookieSize cookies ;;;
  localStorageData <- readLocalStorage (tab_id (c_tab c)) ;;
  ret {| s_context := c;
         s_cookies := cookies;
         s_localStorageData := localStorageData |}.

(** [runBackup], the harvesting loop on the map that starts with the
    storage of the active tab. *)
Definition harvestOthers (s : Session) : M StorageMap :=
  let c := s_context s in
  let localStorageMap := [(c_currentOrigin c, s_localStorageData s)] in
  let candidateHosts :=
    collectCandidateHosts (s_cookies s) (c_currentHostname c) in
  harvestLoop (c_currentHostname c) candidateHosts localStorageMap.

Definition runBackup : M Outcome :=
  s <- collectSession ;;
  localStorageMap <- harvestOthers s ;;
  submitBackup (s_context s) (s_cookies s) localStorageMap.

(** *** Restore *)

(** [Promise.all(cookies.map(cookie => chromePromise(chrome.cookies.set,
    ...)))]: every call is issued, in list order, before any answer is
    looked at; the promise rejects when one of them was refused. *)
Definition setAllCookies (details : list Details) : M unit :=
  fun w =>
    let w' := mkWorld (open_tabs w) (next_tab w) (rng_reads w)
                      (log w ++ map EvCookiesSet details)%list in
    match find (fun d => match env_cookies_set env d with
                         | inl _ => true
                         | inr _ => false
                         end) details with
    | Some d =>
        match env_cookies_set env d with
        | inl e => (inl e, w')
        | inr _ => (inr tt, w')
        end
    | None => (inr tt, w')
    end.

(** The [for ... of otherOrigins] loop of [runRestore].  The origins
    are keys of the map, so [localStorageMap[origin]] is defined. *)
Fixpoint restoreOthers (localStorageMap : StorageMap)
  (origins : list string) : M unit :=
  match origins with
  | [] => ret tt
  | origin :: rest =>
      tryCatch
        (writeLocalStorageForUrl origin
           (match objGet localStorageMap origin with
            | Some payload => payload
            | None => []
            end))
        (fun _ => ret tt) ;;;
      restoreOthers localStorageMap rest
  end.

(** [runRestore], the branch taken when the response is not [ok]. *)
Definition rejectRestore (useE2E : bool) (response : Response) : M Response :=
  (if negb useE2E && (resp_status response =? 401)%Z then
     match resp_json response with
     | Some data =>
         if match j_detail data with
            | Some d => String.eqb d "Password required"
            | None => false
            end
         then throw ErrPasswordRequired
         else if match j_detail data with
                 | Some d => String.eqb d "Invalid password"
                 | None => false
                 end
         then throw ErrInvalidPassword
         else ret tt
     | None => ret tt
     end
   else ret tt) ;;;
  throw (ErrRestoreFailed (resp_status response)).

(** [runRestore], from the parsed response to the cookies and the
    storage map to replay. *)
Definition openRecord (useE2E : bool) (apiPassword : string) (data : Json)
  : M (list Cookie * StorageMap) :=
  if useE2E then
    if negb (Str.truthy apiPassword) then throw ErrPasswordRequired
    else
      match decryptE2EPayload (j_payload data) (j_salt data) (j_nonce data)
                              apiPassword with
      | Some decrypted =>
          ret (match j_cookies decrypted with
               | Some cookies => cookies
               | None => []
               end,
               match j_local_storage decrypted with
               | Some localStorageMap => localStorageMap
               | None => []
               end)
      | None => throw ErrInvalidPassword
      end
  else
    ret (match j_cookies data with
         | Some cookies => cookies
         | None => []
         end,
         match j_local_storage data with
         | Some localStorageMap => localStorageMap
         | None => []
         end).

(** [runRestore], from the active tab to the parsed response. *)
Definition fetchRecord : M Fetched :=
  tab <- requireTab ActRestore ;;
  rootDomain <- liftOption "URL" (getRootDomain (URL_parse P) (tab_url tab)) ;;
  userId <- getUserId ;;
  if negb (Str.truthy userId) then throw ErrUserIdMissing
  else
    apiBase <- getApiBase ;;
    apiPassword <- getApiPassword ;;
    let useE2E := Str.truthy apiPassword in
    let headers := [("X-USK-User", userId)] in
    let restorePath :=
      if useE2E then E2E_PREFIX ++ "/restore" else "/restore" in
    response <- fetch (mkRequest "GET"
                         (apiBase ++ restorePath ++ "/" ++
                          encodeURIComponent P rootDomain)
                         headers None) ;;
    response <- (if negb (resp_ok response)
                 then rejectRestore useE2E response
                 else ret response) ;;
    data <- liftOption "JSON" (resp_json response) ;;
    ret {| f_tab := tab;
           f_rootDomain := rootDomain;
           f_apiPassword := apiPassword;
           f_data := data |}.

(** [runRestore], from the cookie store lookup to the returned
    summary. *)
Definition replayRecord (f : Fetched) (cookies : list Cookie)
  (localStorageMap : StorageMap) : M Outcome :=
  let tab := f_tab f in
  storeId <- getCookieStoreIdForTab (tab_id tab) ;;
  setAllCookies (map (fun cookie => buildCookieDetails cookie storeId)
                     cookies) ;;;
  currentUrl <- liftOption "URL" (URL_parse P (tab_url tab)) ;;
  let currentOrigin := origin currentUrl in
  match objGet localStorageMap currentOrigin with
  | Some payload => writeLocalStorage (tab_id tab) payload
  | None => ret tt
  end ;;;
  let otherOrigins :=
    filter (fun o => negb (String.eqb o currentOrigin))
           (objKeys localStorageMap) in
  restoreOthers localStorageMap otherOrigins ;;;
  emit (EvReload (tab_id tab)) ;;;
  lift (env_tabs_reload env (tab_id tab)) ;;;
  ret {| o_domain := f_rootDomain f; o_cookies := length cookies |}.

Definition runRestore : M Outcome :=
  f <- fetchRecord ;;
  let useE2E := Str.truthy (f_apiPassword f) in
  record <- openRecord useE2E (f_apiPassword f) (f_data f) ;;
  replayRecord f (fst record) (snd record).

End WithHost.

End Engine.

(** ** The key derivation of the browser *)

(** [crypto.subtle.deriveKey] with PBKDF2 and SHA-256, as the standards
    the browser implements define it: SHA-256 (FIPS 180-4), HMAC
    (RFC 2104) and PBKDF2 (RFC 8018), on bytes as numbers. *)
Module Kdf.
Local Open Scope Z_scope.

Definition word (x : Z) : Z := x mod 4294967296.

Definition rotr (n x : Z) : Z :=
  Z.lor (Z.shiftr x n) (word (Z.shiftl x (32 - n))).

Definition ch (x y z : Z) : Z :=
  Z.lxor (Z.land x y) (Z.land (Z.lnot x) z).

Definition maj (x y z : Z) : Z :=
  Z.lxor (Z.lxor (Z.land x y) (Z.land x z)) (Z.land y z).

Definition bigSigma0 (x : Z) : Z :=
  Z.lxor (Z.lxor (rotr 2 x) (rotr 13 x)) (rotr 22 x).

Definition bigSigma1 (x : Z) : Z :=
  Z.lxor (Z.lxor (rotr 6 x) (rotr 11 x)) (rotr 25 x).

Definition smallSigma0 (x : Z) : Z :=
  Z.lxor (Z.lxor (rotr 7 x) (rotr 18 x)) (Z.shiftr x 3).

Definition smallSigma1 (x : Z) : Z :=
  Z.lxor (Z.lxor (rotr 17 x) (rotr 19 x)) (Z.shiftr x 10).

Definition roundConstants : list Z :=
  [
    1116352408; 1899447441; 3049323471; 3921009573; 961987163;
    1508970993; 2453635748; 2870763221; 3624381080; 310598401;
    607225278; 1426881987; 1925078388; 2162078206; 2614888103;
    3248222580; 3835390401; 4022224774; 264347078; 604807628;
    770255983; 1249150122; 1555081692; 1996064986; 2554220882;
    2821834349; 2952996808; 3210313671; 3336571891; 3584528711;
    113926993; 338241895; 666307205; 773529912; 1294757372;
    1396182291; 1695183700; 1986661051; 2177026350; 2456956037;
    2730485921; 2820302411; 3259730800; 3345764771; 3516065817;
    3600352804; 4094571909; 275423344; 430227734; 506948616;
    659060556; 883997877; 958139571; 1322822218; 1537002063;
    1747873779; 1955562222; 2024104815; 2227730452; 2361852424;
    2428436474; 2756734187; 3204031479; 3329325298 ].

Definition initialHash : list Z :=
  [
    1779033703; 3144134277; 1013904242; 2773480762;
    1359893119; 2600822924; 528734635; 1541459225 ].

(** The message followed by the bit 1, zeros, and its length in bits
    on eight bytes, a multiple of 64 bytes in all. *)
Definition pad (message : list Z) : list Z :=
  let len := Z.of_nat (length message) in
  let zeros := Z.to_nat ((64 - (len + 9) mod 64) mod 64) in
  (message ++ [128] ++ repeat 0 zeros
   ++ map (fun i => Z.shiftr (8 * len) (8 * (7 - Z.of_nat i)) mod 256)
          (seq 0 8))%list.

Fixpoint blocks (count : nat) (data : list Z) : list (list Z) :=
  match count with
  | O => []
  | S rest => firstn 64 data :: blocks rest (skipn 64 data)
  end.

(** The sixteen words of a block, most significant byte first. *)
Definition blockWords (block : list Z) : list Z :=
  map (fun i =>
         let byte k := nth (4 * i + k) block 0 in
         Z.lor (Z.lor (Z.shiftl (byte 0%nat) 24) (Z.shiftl (byte 1%nat) 16))
               (Z.lor (Z.shiftl (byte 2%nat) 8) (byte 3%nat)))
      (seq 0 16).

(** The message schedule, latest word first. *)
Fixpoint schedule (more : nat) (latestFirst : list Z) : list Z :=
  match more with
  | O => latestFirst
  | S rest =>
      let w k := nth k latestFirst 0 in
      schedule rest
        (word (smallSigma1 (w 1%nat) + w 6%nat + smallSigma0 (w 14%nat)
               + w 15%nat) :: latestFirst)
  end.

Definition round (state : list Z) (kw : Z * Z) : list Z :=
  match state with
  | [a; b; c; d; e; f; g; h] =>
      let t1 := h + bigSigma1 e + ch e f g + fst kw + snd kw in
      let t2 := bigSigma0 a + maj a b c in
      [word (t1 + t2); a; b; c; word (d + t1); e; f; g]
  | _ => state
  end.

Definition compress (hash block : list Z) : list Z :=
  let w := rev (schedule 48 (rev (blockWords block))) in
  let state := fold_left round (combine roundConstants w) hash in
  map (fun p => word (fst p + snd p)) (combine hash state).

Definition sha256 (message : list Z) : list Z :=
  let data := pad message in
  let hash := fold_left compress (blocks (length data / 64) data)
                        initialHash in
  flat_map (fun x => [Z.shiftr x 24 mod 256; Z.shiftr x 16 mod 256;
                      Z.shiftr x 8 mod 256; x mod 256]) hash.

(** The key of HMAC on one block of 64 bytes: a longer key is hashed
    first, a shorter one is filled up with zero bytes. *)
Definition blockKey (key : list Z) : list Z :=
  let k := if (64 <? length key)%nat then sha256 key else key in
  (k ++ repeat 0 (64 - length k))%list.

(** HMAC with SHA-256 on a key of one block. *)
Definition hmacBlock (k message : list Z) : list Z :=
  sha256 (map (Z.lxor 92) k ++ sha256 (map (Z.lxor 54) k ++ message))%list.

Definition hmac (key message : list Z) : list Z :=
  hmacBlock (blockKey key) message.

(** PBKDF2 with HMAC-SHA-256 for a key of 32 bytes, which is one block
    of output, on a key of HMAC that is already one block. *)
Definition pbkdf2Block (k salt : list Z) (iterations : Z) : list Z :=
  let u1 := hmacBlock k (salt ++ [0; 0; 0; 1])%list in
  snd (Z.iter (iterations - 1)
         (fun ut =>
            let u := hmacBlock k (fst ut) in
            (u, map (fun p => Z.lxor (fst p) (snd p)) (combine (snd ut) u)))
         (u1, u1)).

Definition pbkdf2 (password salt : list Z) (iterations : Z) : list Z :=
  pbkdf2Block (blockKey password) salt iterations.



End Kdf.

(** ** A concrete host

    An executable platform and environment on which the engine can be
    run: a parser for the URLs that occur in the scenarios, a
    self-delimiting byte serialisation standing in for JSON, the
    identity for base64, and a cipher that frames the plaintext with
    its key. *)

Module Sample.
Import Cookies Resolver Browser Engine.

(** *** URLs *)

(** The longest prefix of [s] without a character satisfying [stop]. *)
Fixpoint upTo (stop : ascii -> bool) (s : string) : string :=
  match s with
  | EmptyString => EmptyString
  | String c rest => if stop c then EmptyString else String c (upTo stop rest)
  end.

Definition isDelimiter (c : ascii) : bool :=
  Ascii.eqb c "/" || Ascii.eqb c "?" || Ascii.eqb c "#".

(** Absolute URLs [scheme://host[:port][/...]] written in lower case
    without credentials or default port. *)
Definition parseURL (s : string) : option URL :=
  match String.index 0 "://" s with
  | None => None
  | Some i =>
      let scheme := String.substring 0 i s in
      let rest := String.substring (i + 3) (String.length s - (i + 3)) s in
      let authority := upTo isDelimiter rest in
      let host := upTo (Ascii.eqb ":") authority in
      if String.eqb scheme "" || String.eqb host "" then None
      else Some {| hostname := host;
                   origin := scheme ++ "://" ++ authority |}
  end.

(** *** Serialisation *)

Definition Decoder (A : Type) : Type := bytes -> option (A * bytes).

Definition encNat (n : nat) : bytes := (repeat Byte.x01 n ++ [Byte.x00])%list.

Fixpoint decNat (b : bytes) : option (nat * bytes) :=
  match b with
  | Byte.x00 :: rest => Some (0, rest)
  | Byte.x01 :: rest =>
      match decNat rest with
      | Some (n, rest') => Some (S n, rest')
      | None => None
      end
  | _ => None
  end.

Fixpoint encPos (p : positive) : bytes :=
  match p with
  | xH => [Byte.x00]
  | xO q => Byte.x01 :: encPos q
  | xI q => Byte.x02 :: encPos q
  end.

Fixpoint decPos (b : bytes) : option (positive * bytes) :=
  match b with
  | Byte.x00 :: rest => Some (xH, rest)
  | Byte.x01 :: rest =>
      match decPos rest with
      | Some (q, rest') => Some (xO q, rest')
      | None => None
      end
  | Byte.x02 :: rest =>
      match decPos rest with
      | Some (q, rest') => Some (xI q, rest')
      | None => None
      end
  | _ => None
  end.

Definition encZ (z : Z) : bytes :=
  match z with
  | Z0 => [Byte.x00]
  | Zpos p => Byte.x01 :: encPos p
  | Zneg p => Byte.x02 :: encPos p
  end.

Definition decZ (b : bytes) : option (Z * bytes) :=
  match b with
  | Byte.x00 :: rest => Some (Z0, rest)
  | Byte.x01 :: rest =>
      match decPos rest with
      | Some (p, rest') => Some (Zpos p, rest')
      | None => None
      end
  | Byte.x02 :: rest =>
      match decPos rest with
      | Some (p, rest') => Some (Zneg p, rest')
      | None => None
      end
  | _ => None
  end.

Definition encBool (x : bool) : bytes := [if x then Byte.x01 else Byte.x00].

Definition decBool (b : bytes) : option (bool * bytes) :=
  match b with
  | Byte.x00 :: rest => Some (false, rest)
  | Byte.x01 :: rest => Some (true, rest)
  | _ => None
  end.

Definition encStr (s : string) : bytes :=
  (encNat (String.length s) ++ list_byte_of_string s)%list.

Definition decStr (b : bytes) : option (string * bytes) :=
  match decNat b with
  | Some (n, rest) =>
      if (n <=? length rest)%nat
      then Some (string_of_list_byte (firstn n rest), skipn n rest)
      else None
  | None => None
  end.

Definition encOpt {A : Type} (encA : A -> bytes) (o : option A) : bytes :=
  match o with
  | None => [Byte.x00]
  | Some a => Byte.x01 :: encA a
  end.

Definition decOpt {A : Type} (decA : Decoder A) : Decoder (option A) :=
  fun b =>
    match b with
    | Byte.x00 :: rest => Some (None, rest)
    | Byte.x01 :: rest =>
        match decA rest with
        | Some (a, rest') => Some (Some a, rest')
        | None => None
        end
    | _ => None
    end.

Definition encPair {A B : Type} (encA : A -> bytes) (encB : B -> bytes)
  (x : A * B) : bytes :=
  (encA (fst x) ++ encB (snd x))%list.

Definition decPair {A B : Type} (decA : Decoder A) (decB : Decoder B)
  : Decoder (A * B) :=
  fun b =>
    match decA b with
    | Some (a, rest) =>
        match decB rest with
        | Some (x, rest') => Some ((a, x), rest')
        | None => None
        end
    | None => None
    end.

Fixpoint decMany {A : Type} (decA : Decoder A) (n : nat) (b : bytes)
  : option (list A * bytes) :=
  match n with
  | O => Some ([], b)
  | S m =>
      match decA b with
      | Some (a, rest) =>
          match decMany decA m rest with
          | Some (l, rest') => Some (a :: l, rest')
          | None => None
          end
      | None => None
      end
  end.

Definition encList {A : Type} (encA : A -> bytes) (l : list A) : bytes :=
  (encNat (length l) ++ flat_map encA l)%list.

Definition decList {A : Type} (decA : Decoder A) : Decoder (list A) :=
  fun b =>
    match decNat b with
    | Some (n, rest) => decMany decA n rest
    | None => None
    end.

Definition cookieTuple (c : Cookie) :=
  (name c, (value c, (domain c, (path c, (secure c, (httpOnly c,
   (hostOnly c, (sameSite c, (expirationDate c, (priority c,
    sameParty c)))))))))).

Definition encCookie (c : Cookie) : bytes :=
  encPair encStr (encPair encStr (encPair encStr (encPair encStr
  (encPair encBool (encPair encBool (encPair (encOpt encBool)
  (encPair (encOpt encStr) (encPair (encOpt encZ) (encPair (encOpt encStr)
  (encOpt encBool)))))))))) (cookieTuple c).

Definition decCookie : Decoder Cookie :=
  fun b =>
    match decPair decStr (decPair decStr (decPair decStr (decPair decStr
          (decPair decBool (decPair decBool (decPair (decOpt decBool)
          (decPair (decOpt decStr) (decPair (decOpt decZ)
          (decPair (decOpt decStr) (decOpt decBool)))))))))) b with
    | Some ((n, (v, (d, (p, (s, (h, (ho, (ss, (ex, (pr, sp)))))))))), rest) =>
        Some (mkCookie n v d p s h ho ss ex pr sp, rest)
    | None => None
    end.

Definition encStorageMap : StorageMap -> bytes :=
  encList (encPair encStr (encList (encPair encStr encStr))).

Definition decStorageMap : Decoder StorageMap :=
  decList (decPair decStr (decList (decPair decStr decStr))).

Definition encode (cookies : list Cookie) (local_storage : StorageMap)
  : bytes :=
  (encList encCookie cookies ++ encStorageMap local_storage)%list.

Definition decode (b : bytes) : option Json :=
  match decPair (decList decCookie) decStorageMap b with
  | Some ((cookies, local_storage), []) =>
      Some (mkJson None (Some cookies) (Some local_storage) None None None)
  | _ => None
  end.


(** *** Cipher *)

(** The key, byte by byte, each behind a marker, closed by a zero. *)
Definition frame (key : bytes) : bytes :=
  (flat_map (fun b => [Byte.x01; b]) key ++ [Byte.x00])%list.

(** Removes the frame of [key] from the front of [data]. *)
Fixpoint unframe (key data : bytes) : option bytes :=
  match key with
  | [] =>
      match data with
      | Byte.x00 :: rest => Some rest
      | _ => None
      end
  | k :: key' =>
      match data with
      | Byte.x01 :: d :: rest =>
          if Byte.eqb k d then unframe key' rest else None
      | _ => None
      end
  end.

(** Root domains are made of letters, digits, dots and hyphens, which
    [encodeURIComponent] leaves alone. *)
Definition platform : Platform :=
  {| URL_parse := parseURL;
     encodeURIComponent := fun s => s;
     jsonByteLength := fun cookies => Z.of_nat (length (encList encCookie cookies));
     jsonEncode := encode;
     jsonDecode := decode;
     btoa := fun s => s;
     atob := fun s => Some s;
     Key := bytes;
     pbkdf2 := fun password salt _ => (list_byte_of_string password ++ salt)%list;
     aesGcmEncrypt := fun key _ data => (frame key ++ data)%list;
     aesGcmDecrypt := fun key _ data => unframe key data |}.


(** *** Scenarios *)

Definition cookie (n v d : string) (host_only : bool) : Cookie :=
  mkCookie n v d "/" true false (Some host_only) None None None None.

(** The active tab is tab 1; the tabs the extension opens are numbered
    from 2. *)
Definition world0 : World := mkWorld [1] 2 0 [].

Definition activeUrl : string := "https://app.example.com/home".

(** A host with user [u-1], the given password, the given cookies for
    the domain query, and the given behaviour of the tabs the extension
    opens and of the remote store. *)
Definition host (password : string) (cookies : list Cookie)
  (loaded : nat -> bool) (shown : nat -> Result string)
  (script : nat -> ScriptRead) (respond : Request -> option Response) : Env :=
  {| env_tabs_query := inr [mkTab 1 activeUrl];
     env_storage_get := fun key =>
       inr (if String.eqb key USER_ID_KEY then "u-1"
            else if String.eqb key API_PASSWORD_KEY then password
            else "");
     env_cookie_stores := inr [mkCookieStore "0" [1]];
     env_cookies_getAll := fun q =>
       inr (match q_domain q with Some _ => cookies | None => [] end);
     env_cookies_set := fun _ => inr tt;
     env_tabs_create := fun _ _ => inr tt;
     env_tab_loaded := loaded;
     env_tabs_get := shown;
     env_script_read := script;
     env_script_write := fun _ _ => inr tt;
     env_tabs_reload := fun _ => inr tt;
     env_fetch := respond;
     env_random := fun k n =>
       repeat (match Byte.of_nat (S k) with
               | Some b => b
               | None => Byte.x00
               end) n;
     env_tabs_remove := fun _ => inr tt |}.

(** A remote store that accepts whatever it is sent. *)
Definition accepted : Request -> option Response :=
  fun _ => Some (mkResponse true 200
                   (Some (mkJson None None None None None None))).

(** A cookie without a name, as the browser stores it for a header
    that has a value only. *)
Definition nameless : Cookie := cookie "" "v" "x.com" true.

(** Scenario A: the same name on two domains, and twice on one. *)
Definition a1 : Cookie := cookie "a" "1" "x.com" false.
Definition a2 : Cookie := cookie "a" "2" "y.x.com" false.
Definition a3 : Cookie := cookie "a" "3" "x.com" false.

(** Scenario C: the cookies name three hosts besides the active one;
    tab 2 loads the first, tabs 3 and 4 ([https] then [http]) never
    finish loading the second, tab 5 loads the third. *)
Definition cookiesC : list Cookie :=
  [ cookie "sid" "1" "a.example.com" true;
    cookie "t" "2" ".b.example.com" false;
    cookie "u" "3" "c.example.com" true ].

Definition loadedC (id : nat) : bool := negb (Nat.eqb id 3 || Nat.eqb id 4).

Definition shownC (id : nat) : Result string :=
  match id with
  | 2 => inr "https://a.example.com/"
  | 5 => inr "https://c.example.com/"
  | _ => inl (ErrLastError "No tab with id")
  end.

Definition scriptC (id : nat) : ScriptRead :=
  match id with
  | 1 => ScriptData [("k", "app")]
  | 2 => ScriptData [("k", "a")]
  | 5 => ScriptData [("k", "c")]
  | _ => ScriptNull
  end.

Definition hostC : Env := host "" cookiesC loadedC shownC scriptC accepted.

(** Scenario C on a browser that refuses to remove tabs, as a browser
    does while the user drags a tab. *)
Definition hostStuck : Env :=
  mkEnv (env_tabs_query hostC) (env_storage_get hostC)
        (env_cookie_stores hostC) (env_cookies_getAll hostC)
        (env_cookies_set hostC) (env_tabs_create hostC)
        (env_tab_loaded hostC) (env_tabs_get hostC) (env_script_read hostC)
        (env_script_write hostC) (env_tabs_reload hostC) (env_fetch hostC)
        (env_random hostC)
        (fun _ => inl (ErrLastError "Tabs cannot be edited right now")).

(** Two hosts that land on one origin, and one that lands on the origin
    of the active tab: tabs 2 and 3 both end on [sso.example.com], tab 4
    ends on [app.example.com]. *)
Definition shownD (id : nat) : Result string :=
  match id with
  | 2 => inr "https://sso.example.com/login"
  | 3 => inr "https://sso.example.com/start"
  | 4 => inr "https://app.example.com/welcome"
  | _ => inl (ErrLastError "No tab with id")
  end.

Definition scriptD (id : nat) : ScriptRead :=
  match id with
  | 1 => ScriptData [("k", "app")]
  | 2 => ScriptData [("k", "first")]
  | 3 => ScriptData [("k", "second")]
  | 4 => ScriptData [("k", "other")]
  | _ => ScriptNull
  end.

Definition hostD : Env :=
  host "" cookiesC (fun _ => true) shownD scriptD accepted.

(** A cookie set beyond the size ceiling. *)
Definition cookiesBig : list Cookie :=
  [ cookie "sid" (string_of_list_byte (repeat Byte.x78 (7 * 1000)))
           "a.example.com" true ].

Definition hostBig : Env :=
  host "" cookiesBig (fun _ => true) shownC scriptC accepted.

(** A remote store that answers every request with [data]. *)
Definition answering (data : Json) : Request -> option Response :=
  fun _ => Some (mkResponse true 200 (Some data)).

(** A host that restores: no cookies of its own, every tab loads. *)
Definition restoring (password : string) (data : Json) : Env :=
  host password [] (fun _ => true) shownC scriptC (answering data).

(** Scenario B: a domain cookie and a host-only cookie in the backup. *)
Definition cookiesB : list Cookie :=
  [ mkCookie "A2" "1" ".v2ex.com" "/" true true (Some false)
             None None None None;
    mkCookie "PB3" "2" "www.v2ex.com" "/" false false (Some true)
             None None None None ].

Definition hostB : Env :=
  restoring "" (mkJson None (Some cookiesB) (Some []) None None None).

(** The envelope produced for the session of scenario C under the
    password [pw1]. *)
Definition storageC : StorageMap :=
  [("https://app.example.com", [("k", "app")])].

Definition envelopeC : Envelope :=
  match fst (encryptE2EPayload platform hostC cookiesC storageC "pw1" world0)
  with
  | inr e => e
  | inl _ => mkEnvelope "" "" ""
  end.

Definition sealedC : Json :=
  mkJson None None None (Some (e_payload envelopeC))
         (Some (e_salt envelopeC)) (Some (e_nonce envelopeC)).



End Sample.


(** ** Vocabulary of the properties *)

Module Spec.
Import Cookies Browser Engine.





(** The body of [request] is the backup of [cookies] and
    [local_storage] for the identity of [c]: in the clear, or sealed
    under some salt and nonce with [password]. *)
Definition carries (P : Platform) (c : Context) (password : string)
  (cookies : list Cookie) (local_storage : StorageMap) (request : Request)
  : Prop :=
  req_body request
  = Some (PlainBody (c_userId c) "" (c_rootDomain c) cookies local_storage)
  \/ exists salt nonce,
       req_body request
       = Some (SealedBody (c_userId c) "" (c_rootDomain c)
                 (bytesToBase64 P
                    (aesGcmEncrypt P (deriveKey P password salt) nonce
                       (jsonEncode P cookies local_storage)))
                 (bytesToBase64 P salt) (bytesToBase64 P nonce)).

(** The identity key (name, domain, path) of [c] is that of [c0]. *)
Definition sameIdentity (c0 c : Cookie) : bool :=
  String.eqb (name c) (name c0) && String.eqb (domain c) (domain c0)
  && String.eqb (path c) (path c0).

(** Neither the name nor the domain contains the separator that
    [mergeCookies] puts between the parts of its key. *)
Definition barFree (c : Cookie) : Prop :=
  Str.lacks "|" (name c) = true /\ Str.lacks "|" (domain c) = true.

(** The named records of [l] whose key is neither in [seen] nor carried
    by an earlier named record of [l], in order. *)
Fixpoint firstPerKey (seen : list string) (l : list Cookie) : list Cookie :=
  match l with
  | [] => []
  | c :: rest =>
      if negb (Str.truthy (name c)) then firstPerKey seen rest
      else if existsb (fun k => String.eqb k (cookieKey c)) seen
      then firstPerKey seen rest
      else c :: firstPerKey (seen ++ [cookieKey c])%list rest
  end.

(** The URLs of the [https] tabs the extension asked for. *)
Fixpoint httpsAttempts (events : list Event) : list string :=
  match events with
  | [] => []
  | EvTabsCreate url _ :: rest =>
      if Str.startsWith url "https://" then url :: httpsAttempts rest
      else httpsAttempts rest
  | _ :: rest => httpsAttempts rest
  end.

(** The requests sent to the remote store. *)
Fixpoint requests (events : list Event) : list Request :=
  match events with
  | [] => []
  | EvFetch r :: rest => r :: requests rest
  | _ :: rest => requests rest
  end.

(** The tabs the extension opened. *)
Fixpoint created (events : list Event) : list nat :=
  match events with
  | [] => []
  | EvTabsCreate _ (Some id) :: rest => id :: created rest
  | _ :: rest => created rest
  end.

(** The arguments of the calls of [chrome.cookies.set]. *)
Fixpoint cookieSets (events : list Event) : list Cookies.Details :=
  match events with
  | [] => []
  | EvCookiesSet d :: rest => d :: cookieSets rest
  | _ :: rest => cookieSets rest
  end.

(** From [w] to [w'] the log only grew, every tab opened in between
    was removed again and is not open in [w'], and no tab is open in
    [w'] that was not open in [w]. *)
Definition closesItsTabs (w w' : World) : Prop :=
  exists delta,
    log w' = (log w ++ delta)%list /\
    (forall id, In id (created delta) ->
                In (EvTabsRemove id) delta /\ ~ In id (open_tabs w')) /\
    incl (open_tabs w') (open_tabs w).

(** The host carries out every removal of an open tab it is asked
    for. *)
Definition obliging (env : Env) : Prop :=
  forall id, env_tabs_remove env id = inr tt.

(** From [w] to [w'] the log grew by events among which the [https]
    tabs asked for are [attempts], and no request was sent. *)
Definition grows (w w' : World) (attempts : list string) : Prop :=
  exists delta,
    log w' = (log w ++ delta)%list /\
    httpsAttempts delta = attempts /\
    requests delta = [].

(** The callback of [forEach] in [collectCandidateHosts]. *)
Definition candidateStep (hosts : list string) (cookie : Cookie)
  : list string :=
  if negb (Str.truthy (domain cookie)) then hosts
  else
    let host := Str.stripLeadingDot (domain cookie) in
    if Str.truthy host then setAdd hosts host else hosts.

(** Tab ids are handed out in increasing order: every open tab has an
    id below the next one. *)
Definition settled (w : World) : Prop :=
  Forall (fun t => t < next_tab w) (open_tabs w).

(** Running [m] in a settled world ends in a settled world with the
    same tabs open. *)
Definition tidy {A : Type} (m : M A) : Prop :=
  forall w, settled w ->
    settled (snd (m w)) /\ open_tabs (snd (m w)) = open_tabs w.

(** The queries handed to [chrome.cookies.getAll]. *)
Fixpoint getAlls (events : list Event) : list Query :=
  match events with
  | [] => []
  | EvCookiesGetAll q :: rest => q :: getAlls rest
  | _ :: rest => getAlls rest
  end.

(** The URLs of all tabs the extension asked for. *)
Fixpoint tabsAsked (events : list Event) : list string :=
  match events with
  | [] => []
  | EvTabsCreate url _ :: rest => url :: tabsAsked rest
  | _ :: rest => tabsAsked rest
  end.

(** Whatever the world, running [m] sends no request and asks for no
    [https] tab. *)
Definition silent {A : Type} (m : M A) : Prop :=
  forall w, grows w (snd (m w)) [].

End Spec.

(** ** Delete and status *)

Module Remote.
Import Cookies Resolver Browser Engine.

(** What [runDelete] and [runCheck] read off the JSON value of a
    response: the truthiness of [deleted] and of [exists], and
    [updated_at] when it is truthy. *)
Record StatusJson := mkStatusJson {
  sj_deleted : bool;
  sj_exists : bool;
  sj_updated_at : option string
}.

(** What [response.json()] gives: a rejection, the value [null], or
    any other value, of which the code reads three properties.  A value
    that is no object (a number, a string, [true]) has none of them:
    it reads as [mkStatusJson false false None]. *)
Inductive Body :=
| BodyUnreadable
| BodyNull
| BodyValue (data : StatusJson).

(** A response of the delete and status endpoints. *)
Record Reply := mkReply {
  reply_ok : bool;
  reply_status : Z;
  reply_json : Body
}.

(** What [runDelete] throws: an error of the engine, or the message
    [error_delete_failed] with its status. *)
Inductive Failure :=
| Thrown (e : Error)
| DeleteFailed (status : Z).

(** The values [runDelete] and [runCheck] resolve to. *)
Record Deletion := mkDeletion {
  del_domain : string;
  del_deleted : bool
}.

Record Status := mkStatus {
  st_backendOk : bool;
  st_domain : string;
  st_hasBackup : bool;
  st_updatedAt : option string
}.

Section WithRemote.

Variable P : Platform.
Variable env : Env.

(** How the remote store answers the delete and status requests;
    [None] when [fetch] rejects. *)
Variable remote : Request -> option Reply.

Local Open Scope js_scope.

Definition fetchReply (request : Request) : M Reply :=
  emit (EvFetch request) ;;;
  match remote request with
  | Some reply => ret reply
  | None => throw ErrFetch
  end.

(** [runDelete], up to the response. *)
Definition requestDelete : M (string * Reply) :=
  tab <- requireTab env ActDelete ;;
  rootDomain <- liftOption "URL" (getRootDomain (URL_parse P) (tab_url tab)) ;;
  userId <- getUserId env ;;
  if negb (Str.truthy userId) then throw ErrUserIdMissing
  else
    apiBase <- getApiBase env ;;
    apiPassword <- getApiPassword env ;;
    let deletePath :=
      if Str.truthy apiPassword then E2E_PREFIX ++ "/backup" else "/backup" in
    response <- fetchReply (mkRequest "DELETE"
                              (apiBase ++ deletePath ++ "/" ++
                               encodeURIComponent P rootDomain)
                              [("X-USK-User", userId)] None) ;;
    ret (rootDomain, response).

(** [runDelete].  An unreadable body is read as [{}]; reading
    [deleted] off [null] throws a [TypeError]. *)
Definition runDelete : World -> (Failure + Deletion) * World :=
  fun w =>
    match requestDelete w with
    | (inl e, w') => (inl (Thrown e), w')
    | (inr (rootDomain, response), w') =>
        if negb (reply_ok response)
        then (inl (DeleteFailed (reply_status response)), w')
        else
          match reply_json response with
          | BodyUnreadable =>
              (inr {| del_domain := rootDomain; del_deleted := false |}, w')
          | BodyNull => (inl (Thrown (ErrBuiltin "TypeError")), w')
          | BodyValue data =>
              (inr {| del_domain := rootDomain;
                      del_deleted := sj_deleted data |}, w')
          end
    end.

(** [runCheck] of the service worker. *)
Definition runCheck : M Status :=
  tab <- requireTab env ActStatus ;;
  apiBase <- getApiBase env ;;
  userId <- getUserId env ;;
  if negb (Str.truthy userId) then throw ErrUserIdMissing
  else
    apiPassword <- getApiPassword env ;;
    let statusPath :=
      if Str.truthy apiPassword then E2E_PREFIX ++ "/status" else "/status" in
    backendOk <-
      tryCatch
        (response <- fetchReply (mkRequest "GET" (apiBase ++ "/") [] None) ;;
         ret (reply_ok response))
        (fun _ => ret false) ;;
    rootDomain <- liftOption "URL" (getRootDomain (URL_parse P) (tab_url tab)) ;;
    if negb backendOk
    then ret {| st_backendOk := false; st_domain := rootDomain;
                st_hasBackup := false; st_updatedAt := None |}
    else
      tryCatch
        (response <- fetchReply (mkRequest "GET"
                                   (apiBase ++ statusPath ++ "/" ++
                                    encodeURIComponent P rootDomain)
                                   [("X-USK-User", userId)] None) ;;
         if negb (reply_ok response)
         then ret {| st_backendOk := true; st_domain := rootDomain;
                     st_hasBackup := false; st_updatedAt := None |}
         else
           match reply_json response with
           | BodyUnreadable => throw (ErrBuiltin "JSON")
           | BodyNull => throw (ErrBuiltin "TypeError")
           | BodyValue data =>
               ret {| st_backendOk := true; st_domain := rootDomain;
                      st_hasBackup := sj_exists data;
                      st_updatedAt := sj_updated_at data |}
           end)
        (fun _ => ret {| st_backendOk := true; st_domain := rootDomain;
                         st_hasBackup := false; st_updatedAt := None |}).

End WithRemote.

(** The operation can start: there is an active tab on a page that is
    not browser-internal, its URL parses, and the settings can be
    read. *)
Record Ready (P : Platform) (env : Env) (tab : Tab) (u : URL)
  (userId apiBase password : string) : Prop := mkReady {
  ready_tab : exists others, env_tabs_query env = inr (tab :: others);
  ready_url : Str.truthy (tab_url tab) = true;
  ready_page : isRestrictedUrl (tab_url tab) = false;
  ready_parse : URL_parse P (tab_url tab) = Some u;
  ready_user : env_storage_get env USER_ID_KEY = inr userId;
  ready_base : env_storage_get env API_BASE_KEY = inr apiBase;
  ready_password : env_storage_get env API_PASSWORD_KEY = inr password
}.

(** [data[API_BASE_KEY] || API_BASE]. *)
Definition baseOf (apiBase : string) : string :=
  if Str.truthy apiBase then apiBase else API_BASE.

(** Every event that [m] adds to the log satisfies [allowed]. *)
Definition confined {A : Type} (allowed : Event -> bool) (m : M A) : Prop :=
  forall w, exists delta,
    log (snd (m w)) = (log w ++ delta)%list /\ forallb allowed delta = true.

(** Events that leave the browser session as it is: everything but
    setting a cookie, writing storage and reloading. *)
Definition readOnly (e : Event) : bool :=
  match e with
  | EvCookiesSet _ | EvScriptWrite _ _ | EvReload _ => false
  | _ => true
  end.

(** Events that do not read the session: everything but querying
    cookies and reading storage. *)
Definition writeOnly (e : Event) : bool :=
  match e with
  | EvCookiesGetAll _ | EvScriptRead _ => false
  | _ => true
  end.

Definition isFetch (e : Event) : bool :=
  match e with
  | EvFetch _ => true
  | _ => false
  end.

Definition notCookieSet (e : Event) : bool :=
  match e with
  | EvCookiesSet _ => false
  | _ => true
  end.

(** The error of an operation that finds no page to work on. *)
Definition refusal (tabs : list Tab) (action : Action) : Error :=
  match hd_error tabs with
  | Some tab =>
      if Str.truthy (tab_url tab) then ErrUnsupportedPage action
      else ErrNoActiveTab
  | None => ErrNoActiveTab
  end.

(** There is no active tab, or it has no URL, or it shows a
    browser-internal page. *)
Definition pageless (tabs : list Tab) : Prop :=
  match hd_error tabs with
  | Some tab =>
      negb (Str.truthy (tab_url tab)) || isRestrictedUrl (tab_url tab) = true
  | None => True
  end.

(** The world after one more event. *)
Definition after (w : World) (events : list Event) : World :=
  mkWorld (open_tabs w) (next_tab w) (rng_reads w) (log w ++ events)%list.

(** The requests the operations send for the root domain of [u]. *)
Definition rootOf (u : URL) : string := rootOfHostname (hostname u).

Definition endpoint (P : Platform) (u : URL) (apiBase password : string)
  (path : string) : string :=
  baseOf apiBase ++ (if Str.truthy password then E2E_PREFIX ++ path else path)
  ++ "/" ++ encodeURIComponent P (rootOf u).

Definition deleteRequest (P : Platform) (u : URL)
  (userId apiBase password : string) : Request :=
  mkRequest "DELETE" (endpoint P u apiBase password "/backup")
            [("X-USK-User", userId)] None.

Definition statusRequest (P : Platform) (u : URL)
  (userId apiBase password : string) : Request :=
  mkRequest "GET" (endpoint P u apiBase password "/status")
            [("X-USK-User", userId)] None.

Definition restoreRequest (P : Platform) (u : URL)
  (userId apiBase password : string) : Request :=
  mkRequest "GET" (endpoint P u apiBase password "/restore")
            [("X-USK-User", userId)] None.

Definition probeRequest (apiBase : string) : Request :=
  mkRequest "GET" (baseOf apiBase ++ "/") [] None.

(** The [detail] of the body of a response, when it has one. *)
Definition detailOf (response : Response) : option string :=
  match resp_json response with
  | Some data => j_detail data
  | None => None
  end.

(** The host [e] with the active tab on [url]. *)
Definition onPage (url : string) (e : Env) : Env :=
  mkEnv (inr [mkTab 1 url]) (env_storage_get e) (env_cookie_stores e)
        (env_cookies_getAll e) (env_cookies_set e) (env_tabs_create e)
        (env_tab_loaded e) (env_tabs_get e) (env_script_read e)
        (env_script_write e) (env_tabs_reload e) (env_fetch e)
        (env_random e) (env_tabs_remove e).

(** The host [e] with no user id stored. *)
Definition anonymous (e : Env) : Env :=
  mkEnv (env_tabs_query e)
        (fun key => if String.eqb key USER_ID_KEY then inr ""
                    else env_storage_get e key)
        (env_cookie_stores e)
        (env_cookies_getAll e) (env_cookies_set e) (env_tabs_create e)
        (env_tab_loaded e) (env_tabs_get e) (env_script_read e)
        (env_script_write e) (env_tabs_reload e) (env_fetch e)
        (env_random e) (env_tabs_remove e).

(** A host whose remote store refuses the restore with status 401 and
    the given detail. *)
Definition denied (password detail : string) : Env :=
  Sample.host password [] (fun _ => true) Sample.shownC Sample.scriptC
    (fun _ => Some (mkResponse false 401
                      (Some (mkJson (Some detail) None None None None None)))).

(** A host that refuses to set the cookie named [PB3]. *)
Definition picky (e : Env) : Env :=
  mkEnv (env_tabs_query e) (env_storage_get e) (env_cookie_stores e)
        (env_cookies_getAll e)
        (fun d => if String.eqb (d_name d) "PB3"
                  then inl (ErrLastError "Failed to parse or set cookie")
                  else inr tt)
        (env_tabs_create e)
        (env_tab_loaded e) (env_tabs_get e) (env_script_read e)
        (env_script_write e) (env_tabs_reload e) (env_fetch e)
        (env_random e) (env_tabs_remove e).

(** A remote store for the scenarios: the probe and the status request
    succeed, a backup exists. *)
Definition reachable : Request -> option Reply :=
  fun _ => Some (mkReply true 200
                   (BodyValue (mkStatusJson true true (Some "2024-01-01")))).

(** A remote store that answers every request with the body [null]. *)
Definition hollow : Request -> option Reply :=
  fun _ => Some (mkReply true 200 BodyNull).

(** A remote store that cannot be reached. *)
Definition unreachable : Request -> option Reply := fun _ => None.

End Remote.

(** ** Localisation *)

Module I18n.

Definition LANG_KEY : string := "lang".

(** The two message tables of [STRINGS]. *)
Definition STRINGS_en : list (string * string) :=
  [ ("popup_title", "OmniSession");
    ("popup_hint", "Backup or restore the current site's login state.");
    ("label_backend", "Backend");
    ("label_backup", "Backup");
    ("button_backup", "Backup");
    ("button_restore", "Restore");
    ("button_delete", "Delete");
    ("status_checking", "Checking...");
    ("status_connected", "Connected");
    ("status_disconnected", "Disconnected");
    ("status_unavailable", "Unavailable");
    ("status_error", "Error");
    ("status_found", "Found");
    ("status_not_found", "Not found");
    ("status_working", "Working...");
    ("status_backend_unreachable", "Backend not reachable. Update settings.");
    ("status_backup_done", "Backup done for {domain} ({cookies} cookies)");
    ("status_restore_done", "Restore done for {domain} ({cookies} cookies)");
    ("status_delete_done", "Deleted backup for {domain}");
    ("status_delete_missing", "No backup found for {domain}");
    ("error_no_active_tab", "No active tab available");
    ("error_unsupported_page", "Unsupported page for {action}");
    ("error_backup_failed", "Backup failed ({status})");
    ("error_restore_failed", "Restore failed ({status})");
    ("error_delete_failed", "Delete failed ({status})");
    ("error_status_failed", "Status check failed ({status})");
    ("error_backend_responded", "Backend responded {status}");
    ("action_storage", "storage");
    ("action_backup", "backup");
    ("action_restore", "restore");
    ("action_delete", "delete");
    ("action_status", "status check");
    ("options_title", "OmniSession Settings");
    ("options_hint", "Set the FastAPI base URL used by the extension.");
    ("label_api_base", "API Base URL");
    ("label_password", "Encryption Password");
    ("label_debug_logs", "Debug Logs");
    ("label_language", "Language");
    ("button_save", "Save");
    ("button_test", "Test Connection");
    ("status_saved", "Saved.");
    ("status_testing", "Testing...");
    ("status_connection_ok", "Connection ok.");
    ("placeholder_password", "Leave empty to store plaintext");
    ("password_hint", "Optional. If set, the backend encrypts backups with this password.");
    ("error_password_required", "Password required for restore");
    ("error_invalid_password", "Invalid password");
    ("language_english", "English");
    ("language_chinese", "中文") ].

Definition STRINGS_zh : list (string * string) :=
  [ ("popup_title", "OmniSession");
    ("popup_hint", "备份或恢复当前网站的登录状态。");
    ("label_backend", "后端");
    ("label_backup", "备份");
    ("button_backup", "备份");
    ("button_restore", "恢复");
    ("button_delete", "删除");
    ("status_checking", "检查中...");
    ("status_connected", "已连接");
    ("status_disconnected", "未连接");
    ("status_unavailable", "不可用");
    ("status_error", "错误");
    ("status_found", "已存在");
    ("status_not_found", "未找到");
    ("status_working", "处理中...");
    ("status_backend_unreachable", "后端不可用，请更新设置。");
    ("status_backup_done", "备份完成：{domain}（{cookies} 个 Cookie）");
    ("status_restore_done", "恢复完成：{domain}（{cookies} 个 Cookie）");
    ("status_delete_done", "已删除：{domain}");
    ("status_delete_missing", "未找到备份：{domain}");
    ("error_no_active_tab", "未找到当前标签页");
    ("error_unsupported_page", "当前页面不支持{action}");
    ("error_backup_failed", "备份失败（{status}）");
    ("error_restore_failed", "恢复失败（{status}）");
    ("error_delete_failed", "删除失败（{status}）");
    ("error_status_failed", "状态查询失败（{status}）");
    ("error_backend_responded", "后端响应 {status}");
    ("action_storage", "存储");
    ("action_backup", "备份");
    ("action_restore", "恢复");
    ("action_delete", "删除");
    ("action_status", "状态查询");
    ("options_title", "OmniSession 设置");
    ("options_hint", "设置扩展使用的 FastAPI 地址。");
    ("label_api_base", "API Base URL");
    ("label_password", "加密密码");
    ("label_debug_logs", "调试日志");
    ("label_language", "语言");
    ("button_save", "保存");
    ("button_test", "测试连接");
    ("status_saved", "已保存。");
    ("status_testing", "测试中...");
    ("status_connection_ok", "连接正常。");
    ("placeholder_password", "留空则明文存储");
    ("password_hint", "可选。设置后后端会用此密码加密备份。");
    ("error_password_required", "恢复需要密码");
    ("error_invalid_password", "密码错误");
    ("language_english", "English");
    ("language_chinese", "中文") ].

(** [c.toLowerCase()] on an ASCII character. *)
Definition lowerChar (c : ascii) : ascii :=
  let n := nat_of_ascii c in
  if ((65 <=? n) && (n <=? 90))%nat then ascii_of_nat (n + 32) else c.

(** [s.toLowerCase()] on strings of ASCII characters. *)
Fixpoint toLowerCase (s : string) : string :=
  match s with
  | EmptyString => EmptyString
  | String c rest => String (lowerChar c) (toLowerCase rest)
  end.

(** [normalizeLang(lang)]; [None] is [null] or [undefined]. *)
Definition normalizeLang (lang : option string) : string :=
  match lang with
  | None => "en"
  | Some l =>
      if negb (Str.truthy l) then "en"
      else
        let lower := toLowerCase l in
        if Str.startsWith lower "zh" then "zh" else "en"
  end.

(** [getDefaultLang()]; [uiLang] is what the browser reports as its
    language. *)
Definition getDefaultLang (uiLang : option string) : string :=
  normalizeLang
    (Some (match uiLang with
           | Some l => if Str.truthy l then l else "en"
           | None => "en"
           end)).

(** The names every object inherits from [Object.prototype]. *)
Definition inherited : list string :=
  [ "constructor"; "__defineGetter__"; "__defineSetter__"; "hasOwnProperty";
    "__lookupGetter__"; "__lookupSetter__"; "isPrototypeOf";
    "propertyIsEnumerable"; "toString"; "valueOf"; "__proto__";
    "toLocaleString" ].

(** The member [key] of a table of strings itself; it is what
    [obj[key]] finds unless the table lacks the key and the key is
    [inherited]. *)
Definition lookup (table : list (string * string)) (key : string)
  : option string :=
  match find (fun kv => String.eqb (fst kv) key) table with
  | Some kv => Some (snd kv)
  | None => None
  end.

(** [getMessages(lang)]: [STRINGS[normalized] || STRINGS.en]. *)
Definition getMessages (lang : option string) : list (string * string) :=
  let normalized := normalizeLang lang in
  if String.eqb normalized "zh" then STRINGS_zh else STRINGS_en.

(** The class [\w] of the regular expression. *)
Definition isWordChar (c : ascii) : bool :=
  let n := nat_of_ascii c in
  ((48 <=? n) && (n <=? 57) || (65 <=? n) && (n <=? 90)
   || (97 <=? n) && (n <=? 122) || (n =? 95))%nat.

(** The callback of [replace]: the value of the parameter when the
    parameters have the key, the whole match otherwise. *)
Definition replacement (params : list (string * string)) (key : string)
  : string :=
  match lookup params key with
  | Some v => v
  | None => "{" ++ key ++ "}"
  end.

(** [text.replace(/\{(\w+)\}/g, ...)], read from left to right.
    [pending] holds the word characters seen since an opening brace
    that may still start a match; a match can start nowhere inside
    them. *)
Fixpoint scan (params : list (string * string)) (pending : option string)
  (s : string) : string :=
  match s with
  | EmptyString =>
      match pending with
      | Some word => "{" ++ word
      | None => EmptyString
      end
  | String c rest =>
      match pending with
      | None =>
          if Ascii.eqb c "{" then scan params (Some EmptyString) rest
          else String c (scan params None rest)
      | Some word =>
          if isWordChar c
          then scan params (Some (word ++ String c EmptyString)) rest
          else if Ascii.eqb c "}" && Str.truthy word
          then replacement params word ++ scan params None rest
          else if Ascii.eqb c "{"
          then "{" ++ word ++ scan params (Some EmptyString) rest
          else "{" ++ word ++ String c (scan params None rest)
      end
  end.

(** [interpolate(text, params)]. *)
Definition interpolate (text : string) (params : list (string * string))
  : string :=
  scan params None text.

(** [langOverride || currentLang || getDefaultLang()]. *)
Definition chosenLang (currentLang uiLang langOverride : option string)
  : string :=
  let pick (o : option string) :=
    match o with
    | Some l => if Str.truthy l then Some l else None
    | None => None
    end in
  match pick langOverride with
  | Some l => l
  | None =>
      match pick currentLang with
      | Some l => l
      | None => getDefaultLang uiLang
      end
  end.

(** [t(key, params, langOverride)] with the module variable
    [currentLang] and the language of the browser, for a key of the
    tables or a key that is not [inherited]: for an inherited name,
    [messages[key]] is no string. *)
Definition t (currentLang uiLang : option string) (key : string)
  (params : option (list (string * string))) (langOverride : option string)
  : string :=
  let lang := chosenLang currentLang uiLang langOverride in
  let messages := getMessages (Some lang) in
  let text :=
    match lookup messages key with
    | Some m => if Str.truthy m then m else key
    | None => key
    end in
  match params with
  | Some p => interpolate text p
  | None => text
  end.

(** The module variable [currentLang] and the entry [lang] of the
    extension's local storage. *)
Record Prefs := mkPrefs
  { currentLang : option string;
    storedLang : option string }.

(** [resolveLang(forcedLang)]; [storageWorks] tells whether
    [chrome.storage.local] answers without [lastError]. *)
Definition resolveLang (storageWorks : bool) (uiLang forcedLang : option string)
  (p : Prefs) : string :=
  match forcedLang with
  | Some l =>
      if Str.truthy l then normalizeLang (Some l)
      else if storageWorks then
        match storedLang p with
        | Some s => if Str.truthy s then normalizeLang (Some s)
                    else getDefaultLang uiLang
        | None => getDefaultLang uiLang
        end
      else getDefaultLang uiLang
  | None =>
      if storageWorks then
        match storedLang p with
        | Some s => if Str.truthy s then normalizeLang (Some s)
                    else getDefaultLang uiLang
        | None => getDefaultLang uiLang
        end
      else getDefaultLang uiLang
  end.

(** [init(forcedLang)]: the language and the preferences afterwards. *)
Definition init (storageWorks : bool) (uiLang forcedLang : option string)
  (p : Prefs) : string * Prefs :=
  let lang := resolveLang storageWorks uiLang forcedLang p in
  (lang, mkPrefs (Some lang) (storedLang p)).

(** [setStoredLang(lang)]: [false] when the write is rejected; the
    module variable is set before the write. *)
Definition setStoredLang (storageWorks : bool) (lang : option string)
  (p : Prefs) : bool * Prefs :=
  let normalized := normalizeLang lang in
  if storageWorks then (true, mkPrefs (Some normalized) (Some normalized))
  else (false, mkPrefs (Some normalized) (storedLang p)).

(** The parameters named in a message. *)
Fixpoint placeholders (pending : option string) (s : string) : list string :=
  match s with
  | EmptyString => []
  | String c rest =>
      match pending with
      | None =>
          if Ascii.eqb c "{" then placeholders (Some EmptyString) rest
          else placeholders None rest
      | Some word =>
          if isWordChar c
          then placeholders (Some (word ++ String c EmptyString)) rest
          else if Ascii.eqb c "}" && Str.truthy word
          then word :: placeholders None rest
          else if Ascii.eqb c "{"
          then placeholders (Some EmptyString) rest
          else placeholders None rest
      end
  end.

End I18n.

(** ** The popup *)

Module Popup.

(** What the popup shows: the status line and its [error] class, the
    two status fields, and the [disabled] flag of the three buttons. *)
Record View := mkView
  { status : string;
    status_error : bool;
    backend_status : string;
    backup_status : string;
    backup_disabled : bool;
    restore_disabled : bool;
    delete_disabled : bool }.

(** The fields the popup reads from a result, strings as [String]
    renders them. *)
Record Fields := mkFields
  { f_domain : string;
    f_cookies : string;
    f_deleted : bool;
    f_backendOk : bool;
    f_hasBackup : bool;
    f_updatedAt : option string }.

(** The answer of the service worker: [{ok, error, result}]. *)
Record Response := mkResponse
  { r_ok : bool;
    r_error : option string;
    r_result : option Fields }.

(** What the callback of [chrome.runtime.sendMessage] finds:
    [lastError] with its message, or a response, which may be missing. *)
Inductive Answer :=
| LastError (message : option string)
| Answered (response : option Response).

(** What a [catch] block of the popup receives: the [lastError] object,
    an [Error] with its message, or the [TypeError] of reading a field
    of a missing result. *)
Inductive Thrown :=
| HostError (message : option string)
| PlainError (message : string)
| NullAccess.

(** The popup and the messages it has sent, each with the [disabled]
    flags of the three buttons at the time. *)
Record Popup := mkPopup
  { view : View;
    sent : list (string * (bool * bool * bool)) }.

Section WithWorker.

(** The language in use and the language of the browser. *)
Variables currentLang uiLang : option string.
(** The message of the [TypeError]. *)
Variable nullAccessText : string.
(** The answer to the [n]-th message. *)
Variable channel : nat -> string -> Answer.

Definition tr (key : string) (params : option (list (string * string)))
  : string :=
  I18n.t currentLang uiLang key params None.

Definition setStatus (message : string) (isError : bool) (v : View) : View :=
  mkView message isError (backend_status v) (backup_status v)
         (backup_disabled v) (restore_disabled v) (delete_disabled v).

Definition setBusy (isBusy : bool) (v : View) : View :=
  if negb isBusy then v
  else mkView (status v) (status_error v) (backend_status v)
              (backup_status v) true true true.

Definition setControlsEnabled (backendOk hasBackup : bool) (v : View) : View :=
  mkView (status v) (status_error v) (backend_status v) (backup_status v)
         (negb backendOk) (negb backendOk)
         (negb backendOk || negb hasBackup).

Definition setBackendStatus (text : string) (v : View) : View :=
  mkView (status v) (status_error v) text (backup_status v)
         (backup_disabled v) (restore_disabled v) (delete_disabled v).

Definition setBackupStatus (text : string) (v : View) : View :=
  mkView (status v) (status_error v) (backend_status v) text
         (backup_disabled v) (restore_disabled v) (delete_disabled v).

(** [error.message || String(error)]. *)
Definition errorText (e : Thrown) : string :=
  match e with
  | HostError (Some m) => if Str.truthy m then m else "[object Object]"
  | HostError None => "[object Object]"
  | PlainError m => if Str.truthy m then m else "Error"
  | NullAccess =>
      if Str.truthy nullAccessText then nullAccessText else "TypeError"
  end.

(** The promise of [sendMessage(type)], given the answer. *)
Definition settle (a : Answer) : Thrown + option Fields :=
  match a with
  | LastError m => inl (HostError m)
  | Answered None => inl (PlainError "Request failed")
  | Answered (Some r) =>
      if negb (r_ok r) then
        inl (PlainError
               match r_error r with
               | Some e => if Str.truthy e then e else "Request failed"
               | None => "Request failed"
               end)
      else inr (r_result r)
  end.

Definition sendMessage (type : string) (p : Popup)
  : (Thrown + option Fields) * Popup :=
  let v := view p in
  (settle (channel (length (sent p)) type),
   mkPopup v
     (sent p ++ [(type, (backup_disabled v, restore_disabled v,
                         delete_disabled v))])%list).

(** The popup's [runCheck]. *)
Definition runCheck (p : Popup) : Popup :=
  let (answer, p1) := sendMessage "check" p in
  let failed (e : Thrown) :=
    mkPopup
      (setControlsEnabled false false
         (setStatus (errorText e) true
            (setBackupStatus (tr "status_unavailable" None)
               (setBackendStatus (tr "status_error" None) (view p1)))))
      (sent p1) in
  match answer with
  | inl e => failed e
  | inr None => failed NullAccess
  | inr (Some result) =>
      if negb (f_backendOk result) then
        mkPopup
          (setControlsEnabled false false
             (setStatus (tr "status_backend_unreachable" None) true
                (setBackupStatus (tr "status_unavailable" None)
                   (setBackendStatus (tr "status_disconnected" None)
                      (view p1)))))
          (sent p1)
      else
        let v1 := setBackendStatus (tr "status_connected" None) (view p1) in
        let v2 :=
          if f_hasBackup result then
            let updatedAt :=
              match f_updatedAt result with
              | Some u => if Str.truthy u then " (" ++ u ++ ")" else ""
              | None => ""
              end in
            setBackupStatus (tr "status_found" None ++ updatedAt) v1
          else setBackupStatus (tr "status_not_found" None) v1 in
        mkPopup
          (setControlsEnabled true (f_hasBackup result)
             (setStatus "" false v2))
          (sent p1)
  end.

(** [handleAction(type)]. *)
Definition handleAction (type : string) (p : Popup) : Popup :=
  let v1 := setStatus (tr "status_working" None) false
              (setBusy true (view p)) in
  let (answer, p1) := sendMessage type (mkPopup v1 (sent p)) in
  let v2 :=
    match answer with
    | inr (Some result) =>
        if String.eqb type "backup" then
          setStatus
            (tr "status_backup_done"
                (Some [("domain", f_domain result);
                       ("cookies", f_cookies result)]))
            false (view p1)
        else if String.eqb type "restore" then
          setStatus
            (tr "status_restore_done"
                (Some [("domain", f_domain result);
                       ("cookies", f_cookies result)]))
            false (view p1)
        else
          setStatus
            (if f_deleted result
             then tr "status_delete_done" (Some [("domain", f_domain result)])
             else tr "status_delete_missing"
                     (Some [("domain", f_domain result)]))
            false (view p1)
    | inr None => setStatus (errorText NullAccess) true (view p1)
    | inl e => setStatus (errorText e) true (view p1)
    end in
  runCheck (mkPopup (setBusy false v2) (sent p1)).

End WithWorker.

End Popup.

(** ** The messages of the worker's errors *)

Module Messages.

Import Browser Remote.

Definition actionKey (a : Action) : string :=
  match a with
  | ActBackup => "action_backup"
  | ActRestore => "action_restore"
  | ActDelete => "action_delete"
  | ActStatus => "action_status"
  | ActStorage => "action_storage"
  end.

(** [String(n)] for an integer. *)
Definition showZ (z : Z) : string :=
  DecimalString.NilZero.string_of_int (Z.to_int z).

Section WithLanguage.

Variables currentLang uiLang : option string.

(** The key and the parameters of the call of [USK_I18N.t] that makes
    the message of an error; [None] for the errors that come from the
    host. *)
Definition keyOf (e : Error)
  : option (string * option (list (string * string))) :=
  match e with
  | ErrNoActiveTab => Some ("error_no_active_tab", None)
  | ErrUnsupportedPage a =>
      Some ("error_unsupported_page",
            Some [("action",
                   I18n.t currentLang uiLang (actionKey a) None None)])
  | ErrUserIdMissing => Some ("error_user_id_missing", None)
  | ErrCookieSizeExceeded limit =>
      Some ("error_cookie_size_exceeded", Some [("limit", showZ limit)])
  | ErrBackupFailed st =>
      Some ("error_backup_failed", Some [("status", showZ st)])
  | ErrRestoreFailed st =>
      Some ("error_restore_failed", Some [("status", showZ st)])
  | ErrPasswordRequired => Some ("error_password_required", None)
  | ErrInvalidPassword => Some ("error_invalid_password", None)
  | ErrTabLoadTimeout | ErrLastError _ | ErrFetch | ErrBuiltin _ => None
  end.

Definition keyOfFailure (f : Failure)
  : option (string * option (list (string * string))) :=
  match f with
  | Thrown e => keyOf e
  | DeleteFailed st =>
      Some ("error_delete_failed", Some [("status", showZ st)])
  end.

(** The message of the error, where [USK_I18N.t] makes it. *)
Definition messageOf (f : Failure) : option string :=
  match keyOfFailure f with
  | Some (key, params) => Some (I18n.t currentLang uiLang key params None)
  | None => None
  end.

End WithLanguage.

End Messages.

(** ** The user id of the options page *)

Module Uuid.

Definition NAMESPACE_X500 : string := "6ba7b814-9dad-11d1-80b4-00c04fd430c8".

(** [uuid.replace(/-/g, "")]. *)
Fixpoint removeDashes (s : string) : string :=
  match s with
  | EmptyString => EmptyString
  | String c rest =>
      if Ascii.eqb c "-" then removeDashes rest
      else String c (removeDashes rest)
  end.

(** [s.slice(a, b)] for indices that are not negative. *)
Definition slice (s : string) (a b : nat) : string :=
  String.substring a (b - a) s.

(** White space, among the ASCII characters. *)
Definition isSpace (c : ascii) : bool :=
  let n := nat_of_ascii c in
  ((9 <=? n) && (n <=? 13) || (n =? 32))%nat.

Fixpoint trimStart (s : string) : string :=
  match s with
  | EmptyString => EmptyString
  | String c rest => if isSpace c then trimStart rest else s
  end.

(** The value of a digit in base 16. *)
Definition hexValue (c : ascii) : option Z :=
  let n := nat_of_ascii c in
  if ((48 <=? n) && (n <=? 57))%nat then Some (Z.of_nat (n - 48))
  else if ((97 <=? n) && (n <=? 102))%nat then Some (Z.of_nat (n - 87))
  else if ((65 <=? n) && (n <=? 70))%nat then Some (Z.of_nat (n - 55))
  else None.

(** The number written by the longest run of digits at the start of
    [s]; [acc] is the number read so far, [None] before the first
    digit. *)
Fixpoint hexDigits (acc : option Z) (s : string) : option Z :=
  match s with
  | EmptyString => acc
  | String c rest =>
      match hexValue c with
      | Some d =>
          hexDigits (Some (16 * match acc with Some n => n | None => 0 end
                           + d)%Z) rest
      | None => acc
      end
  end.

(** [parseInt(s, 16)]; [None] is [NaN]. *)
Definition parseInt16 (s : string) : option Z :=
  let trimmed := trimStart s in
  let (sign, unsigned) :=
    match trimmed with
    | String "-" rest => ((-1)%Z, rest)
    | String "+" rest => (1%Z, rest)
    | _ => (1%Z, trimmed)
    end in
  let digits :=
    match unsigned with
    | String "0" (String "x" rest) => rest
    | String "0" (String "X" rest) => rest
    | _ => unsigned
    end in
  match hexDigits None digits with
  | Some n => Some (sign * n)%Z
  | None => None
  end.

(** What a [Uint8Array] keeps of a number. *)
Definition toUint8 (v : option Z) : Z :=
  match v with
  | Some z => (z mod 256)%Z
  | None => 0%Z
  end.

Definition uuidToBytes (uuid : string) : list Z :=
  let hex := removeDashes uuid in
  map (fun i => toUint8 (parseInt16 (slice hex (i * 2) (i * 2 + 2))))
      (seq 0 16).

(** [value.toString(16)] for a byte. *)
Definition toString16 (value : Z) : string :=
  HexadecimalString.NilZero.string_of_uint (N.to_hex_uint (Z.to_N value)).

(** [s.padStart(2, "0")]. *)
Definition padStart2 (s : string) : string :=
  match String.length s with
  | 0 => "00" ++ s
  | 1 => "0" ++ s
  | _ => s
  end.

Definition bytesToUuid (bytes : list Z) : string :=
  let hex := String.concat "" (map (fun value => padStart2 (toString16 value))
                                   bytes) in
  Str.join "-"
    [slice hex 0 8; slice hex 8 12; slice hex 12 16; slice hex 16 20;
     slice hex 20 32].

(** [bytes[i] = f(bytes[i])] on a typed array: nothing is written
    outside it. *)
Fixpoint patch (i : nat) (f : Z -> Z) (bytes : list Z) : list Z :=
  match bytes, i with
  | [], _ => []
  | b :: rest, 0 => f b :: rest
  | b :: rest, S j => b :: patch j f rest
  end.

(** [new TextEncoder().encode(name)]: strings are kept as their UTF-8
    bytes. *)
Definition encode (name : string) : list Z :=
  map (fun c => Z.of_nat (nat_of_ascii c)) (list_ascii_of_string name).

(** [uuidv5(name, namespace)]; [digest] is
    [crypto.subtle.digest("SHA-1", ...)]. *)
Definition uuidv5 (digest : list Z -> list Z) (name namespace : string)
  : string :=
  let namespaceBytes := uuidToBytes namespace in
  let nameBytes := encode name in
  let data := (namespaceBytes ++ nameBytes)%list in
  let hash := digest data in
  let hash := patch 6 (fun b => Z.lor (Z.land b 15) 80) hash in
  let hash := patch 8 (fun b => Z.lor (Z.land b 63) 128) hash in
  bytesToUuid (firstn 16 hash).

Fixpoint trimEnd (s : string) : string :=
  match s with
  | EmptyString => EmptyString
  | String c rest =>
      match trimEnd rest with
      | EmptyString => if isSpace c then EmptyString else String c EmptyString
      | kept => String c kept
      end
  end.

(** [s.trim()], for ASCII white space. *)
Definition trim (s : string) : string := trimEnd (trimStart s).

(** The user id [saveSettings] stores for the e-mail field. *)
Definition userIdOf (digest : list Z -> list Z) (field : string) : string :=
  let email := I18n.toLowerCase (trim field) in
  if Str.truthy email then uuidv5 digest email NAMESPACE_X500 else "".

(** A digit, or a letter from a to f. *)
Definition isLowerHex (c : ascii) : bool :=
  let n := nat_of_ascii c in
  ((48 <=? n) && (n <=? 57) || (97 <=? n) && (n <=? 102))%nat.

(** Every value of a byte. *)
Definition byteRange : list Z := map Z.of_nat (seq 0 256).

(** The SHA-1 digest of the bytes of the X.500 name space followed by
    the bytes of [user@example.com]. *)
Definition sampleDigest : list Z :=
  [56; 227; 244; 28; 226; 3; 119; 237; 209; 157; 7; 228; 79; 178; 102; 154;
   15; 204; 2; 252]%Z.

(** A digest function for the examples: it answers [sampleDigest]. *)
Definition sampleSha1 (data : list Z) : list Z := sampleDigest.

End Uuid.
(** * Properties *)

(** ** Root Domain Resolver *)

Module ResolverFacts.
Import Resolver.

Lemma split_nonempty (sep : ascii) (s : string) : Str.split sep s <> [].
Proof.
  destruct s as [|c rest]; simpl; [discriminate|].
  destruct (Ascii.eqb c sep); [discriminate|].
  destruct (Str.split sep rest); discriminate.
Qed.

Lemma split_lacks (sep : ascii) (s : string) :
  Str.lacks sep s = true -> Str.split sep s = [s].
Proof.
  induction s as [|c rest IH]; simpl; intros H; [reflexivity|].
  apply andb_prop in H as [Hc Hrest].
  apply negb_true_iff in Hc. rewrite Hc, (IH Hrest). reflexivity.
Qed.

Lemma split_append (sep : ascii) (a b : string) :
  Str.lacks sep a = true ->
  Str.split sep (a ++ String sep b) = a :: Str.split sep b.
Proof.
  induction a as [|c rest IH]; simpl; intros H.
  - rewrite Ascii.eqb_refl. reflexivity.
  - apply andb_prop in H as [Hc Hrest].
    apply negb_true_iff in Hc. rewrite Hc, (IH Hrest). reflexivity.
Qed.

(** Splitting undoes joining when no label contains the separator. *)
Lemma split_join (sep : ascii) (labels : list string) :
  labels <> [] ->
  Forall (fun l => Str.lacks sep l = true) labels ->
  Str.split sep (Str.join (String sep EmptyString) labels) = labels.
Proof.
  intros Hne Hall. induction Hall as [|l rest Hl Hrest IH]; [congruence|].
  destruct rest as [|l' rest'].
  - simpl. apply split_lacks, Hl.
  - unfold Str.join in *. cbn [String.concat].
    change (String sep EmptyString ++ ?x) with (String sep x).
    rewrite split_append by exact Hl.
    f_equal. apply IH. discriminate.
Qed.

(** Joining undoes splitting, and no piece of a split contains the
    separator: every hostname is a dot-separated list of labels. *)
Lemma join_split (sep : ascii) (s : string) :
  Str.join (String sep EmptyString) (Str.split sep s) = s /\
  Forall (fun l => Str.lacks sep l = true) (Str.split sep s).
Proof.
  induction s as [|c rest [IHj IHl]]; simpl.
  - split; [reflexivity | repeat constructor].
  - destruct (Ascii.eqb c sep) eqn:Hc.
    + apply Ascii.eqb_eq in Hc. subst c. split.
      * unfold Str.join in *. cbn [String.concat].
        destruct (Str.split sep rest) eqn:Hs.
        { exfalso. exact (split_nonempty sep rest Hs). }
        rewrite IHj. reflexivity.
      * constructor; [reflexivity | exact IHl].
    + pose proof (split_nonempty sep rest) as Hne.
      destruct (Str.split sep rest) as [|piece pieces]; [congruence|].
      pose proof (Forall_inv IHl) as Hp. pose proof (Forall_inv_tail IHl) as Hps.
      cbv beta in Hp. split.
      * unfold Str.join in *. cbn [String.concat] in *.
        destruct pieces; simpl in *; rewrite IHj; reflexivity.
      * constructor; [simpl; rewrite Hc, Hp; reflexivity | exact Hps].
Qed.

Lemma rootOfHostname_labels (labels : list string) :
  labels <> [] ->
  Forall (fun l => Str.lacks "." l = true) labels ->
  rootOfHostname (Str.join "." labels) =
  if (2 <? length labels)%nat then Str.join "." (Str.slice_last 2 labels)
  else Str.join "." labels.
Proof.
  intros Hne Hall. unfold rootOfHostname.
  rewrite (split_join "." labels Hne Hall). reflexivity.
Qed.

(** C4.  [getRootDomain] reads the hostname of the parsed URL and,
    seeing it as labels joined by dots, answers the last two labels
    joined by a dot when there are more than two labels and the
    hostname itself otherwise; a URL that does not parse yields no
    answer.  On the three documented URLs the answers are
    [example.com], [example.com] and [co.uk]. *)
Theorem getRootDomain_last_two_labels
  (parse : string -> option URL) (url : string) (u : URL)
  (labels : list string) :
  parse url = Some u ->
  hostname u = Str.join "." labels ->
  labels <> [] ->
  Forall (fun l => Str.lacks "." l = true) labels ->
  getRootDomain parse url =
    Some (if (2 <? length labels)%nat
          then Str.join "." (Str.slice_last 2 labels)
          else hostname u)
  /\ (forall bad, parse bad = None -> getRootDomain parse bad = None)
  /\ getRootDomain Sample.parseURL "https://login.example.com/x"
     = Some "example.com"
  /\ getRootDomain Sample.parseURL "https://example.com" = Some "example.com"
  /\ getRootDomain Sample.parseURL "https://a.example.co.uk" = Some "co.uk".
Proof.
  intros Hparse Hhost Hne Hall. repeat split.
  - unfold getRootDomain. rewrite Hparse, Hhost.
    rewrite (rootOfHostname_labels labels Hne Hall). reflexivity.
  - intros bad Hbad. unfold getRootDomain. rewrite Hbad. reflexivity.
Qed.

Lemma getRootDomain_last_two_labels_witness :
  getRootDomain Sample.parseURL "https://login.example.com/x"
  = Some "example.com".
Proof.
  destruct (getRootDomain_last_two_labels Sample.parseURL
              "https://login.example.com/x"
              (mkURL "login.example.com" "https://login.example.com")
              ["login"; "example"; "com"]) as [H _].
  - reflexivity.
  - reflexivity.
  - discriminate.
  - repeat constructor.
  - exact H.
Defined.

(** The browser-internal schemes are restricted, web pages are not. *)
Lemma isRestrictedUrl_schemes (rest : string) :
  isRestrictedUrl ("chrome://" ++ rest) = true /\
  isRestrictedUrl ("chrome-extension://" ++ rest) = true /\
  isRestrictedUrl ("edge://" ++ rest) = true /\
  isRestrictedUrl ("http://" ++ rest) = false /\
  isRestrictedUrl ("https://" ++ rest) = false.
Proof.
  unfold isRestrictedUrl, Str.startsWith.
  repeat split; destruct rest; reflexivity.
Qed.

End ResolverFacts.

(** ** Cookie merge and cookie replay *)

Module CookieFacts.
Import Cookies Spec.

Example collectCandidateHosts_scenario :
  collectCandidateHosts Sample.cookiesC "app.example.com"
  = ["app.example.com"; "a.example.com"; "b.example.com"; "c.example.com"].
Proof. reflexivity. Qed.

Example filterCookiesForDomain_scenario :
  filterCookiesForDomain
    (Sample.cookiesC ++ [Sample.a1; Sample.cookie "z" "9" "example.com" true])%list
    "example.com" "app.example.com"
  = (Sample.cookiesC ++ [Sample.cookie "z" "9" "example.com" true])%list.
Proof. reflexivity. Qed.

Lemma cut_at_separator (sep : ascii) (a b x y : string) :
  Str.lacks sep a = true -> Str.lacks sep b = true ->
  (a ++ String sep x = b ++ String sep y)%string -> a = b /\ x = y.
Proof.
  revert b. induction a as [|c a IH]; intros [|d b] Ha Hb H; simpl in *.
  - injection H as ->. split; reflexivity.
  - injection H as Hd _. subst d. rewrite Ascii.eqb_refl in Hb. discriminate.
  - injection H as Hc _. subst c. rewrite Ascii.eqb_refl in Ha. discriminate.
  - injection H as -> H.
    apply andb_prop in Ha as [_ Ha]. apply andb_prop in Hb as [_ Hb].
    destruct (IH b Ha Hb H) as [-> ->]. split; reflexivity.
Qed.

(** On records without the separator in name and domain, equal keys mean
    equal identities. *)
Lemma cookieKey_sameIdentity (c0 c : Cookie) :
  barFree c0 -> barFree c ->
  String.eqb (cookieKey c) (cookieKey c0) = sameIdentity c0 c.
Proof.
  intros [Hn0 Hd0] [Hn Hd]. unfold sameIdentity, cookieKey.
  destruct (String.eqb_spec (name c ++ "|" ++ domain c ++ "|" ++ path c)
                            (name c0 ++ "|" ++ domain c0 ++ "|" ++ path c0))
    as [E|NE].
  - change ("|" ++ ?x)%string with (String "|" x) in E.
    apply cut_at_separator in E as [En E]; try assumption.
    apply cut_at_separator in E as [Ed Ep]; try assumption.
    rewrite En, Ed, Ep, !String.eqb_refl. reflexivity.
  - destruct (String.eqb_spec (name c) (name c0)) as [En|]; [|reflexivity].
    destruct (String.eqb_spec (domain c) (domain c0)) as [Ed|]; [|reflexivity].
    destruct (String.eqb_spec (path c) (path c0)) as [Ep|]; [|reflexivity].
    exfalso. apply NE. rewrite En, Ed, Ep. reflexivity.
Qed.

Lemma mapHas_keys {V : Type} (key : string) (m : list (string * V)) :
  mapHas key m = existsb (fun k => String.eqb k key) (map fst m).
Proof.
  unfold mapHas. induction m as [|kv m IH]; simpl; [reflexivity|].
  rewrite IH. reflexivity.
Qed.

(** The fold of [mergeCookies] appends to the map, in order, the first
    named record of every key that the map does not hold yet. *)
Lemma fold_mergeStep (l : list Cookie) (merged : list (string * Cookie)) :
  map snd (fold_left mergeStep l merged) =
  (map snd merged ++ firstPerKey (map fst merged) l)%list
  /\ map fst (fold_left mergeStep l merged) =
     (map fst merged ++ map cookieKey (firstPerKey (map fst merged) l))%list.
Proof.
  revert merged. induction l as [|c l IH]; intros merged; simpl.
  - rewrite !app_nil_r. split; reflexivity.
  - unfold mergeStep at 2 4. destruct (negb (Str.truthy (name c))).
    + apply IH.
    + rewrite mapHas_keys.
      destruct (existsb (fun k => String.eqb k (cookieKey c)) (map fst merged));
        simpl.
      * apply IH.
      * destruct (IH (merged ++ [(cookieKey c, c)])%list) as [E1 E2].
        rewrite E1, E2, !map_app. simpl. rewrite <- !app_assoc. simpl.
        split; reflexivity.
Qed.

Lemma mergeCookies_firstPerKey (cookieLists : list (list Cookie)) :
  mergeCookies cookieLists = firstPerKey [] (concat cookieLists).
Proof.
  unfold mergeCookies.
  destruct (fold_mergeStep (concat cookieLists) []) as [E _]. exact E.
Qed.

Lemma firstPerKey_incl (l : list Cookie) (seen : list string) (c : Cookie) :
  In c (firstPerKey seen l) -> In c l /\ Str.truthy (name c) = true.
Proof.
  revert seen. induction l as [|a l IH]; intros seen H; simpl in *; [tauto|].
  destruct (Str.truthy (name a)) eqn:Hn; simpl in H.
  - destruct (existsb (fun k => String.eqb k (cookieKey a)) seen).
    + destruct (IH _ H). tauto.
    + destruct H as [<-|H]; [tauto|]. destruct (IH _ H). tauto.
  - destruct (IH _ H). tauto.
Qed.

(** Per key: nothing when the key was seen before, else the first named
    record that carries it. *)
Lemma filter_firstPerKey (l : list Cookie) (seen : list string) (s : string) :
  filter (fun c => String.eqb (cookieKey c) s) (firstPerKey seen l) =
  if existsb (fun k => String.eqb k s) seen then []
  else match find (fun c => Str.truthy (name c) && String.eqb (cookieKey c) s) l
       with
       | Some c => [c]
       | None => []
       end.
Proof.
  revert seen. induction l as [|a l IH]; intros seen; simpl.
  - destruct (existsb _ seen); reflexivity.
  - destruct (Str.truthy (name a)) eqn:Hn; simpl; [|apply IH].
    destruct (existsb (fun k => String.eqb k (cookieKey a)) seen) eqn:Hseen.
    + rewrite IH. destruct (String.eqb_spec (cookieKey a) s) as [<-|]; simpl.
      * rewrite Hseen. reflexivity.
      * reflexivity.
    + simpl. rewrite IH, existsb_app. simpl. rewrite orb_false_r.
      destruct (String.eqb_spec (cookieKey a) s) as [<-|]; simpl.
      * rewrite Hseen. simpl. reflexivity.
      * rewrite orb_false_r. reflexivity.
Qed.

Lemma find_ext_in {A : Type} (f g : A -> bool) (l : list A) :
  (forall a, In a l -> f a = g a) -> find f l = find g l.
Proof.
  induction l as [|a l IH]; intros H; simpl; [reflexivity|].
  rewrite (H a (or_introl eq_refl)). rewrite IH; [reflexivity|].
  intros b Hb. apply H. right. exact Hb.
Qed.

(** C2, as stated, fails on a record without a name.  Such a record
    never reaches the merged list: the key
    ("", x.com, /) occurs in the input and has no record in the
    output. *)
Lemma mergeCookies_skips_nameless :
  In Sample.nameless (concat [[Sample.nameless]]) /\
  find (sameIdentity Sample.nameless) (concat [[Sample.nameless]])
    = Some Sample.nameless /\
  filter (sameIdentity Sample.nameless) (mergeCookies [[Sample.nameless]])
    = [].
Proof.
  split; [left; reflexivity|]. split; reflexivity.
Qed.

(** C2 (amended).  On cookie lists whose names and domains are free of
    the character "|", [mergeCookies] returns, for every identity key
    (name, domain, path) carried by an input record with a non-empty
    name, exactly one record, the first one with that key in the
    concatenation of the lists; every returned record is an input
    record with a non-empty name.  Two records that differ in the
    domain only are both kept; two records with the same key collapse
    to the first. *)
Theorem mergeCookies_first_per_named_key
  (cookieLists : list (list Cookie)) (c0 : Cookie) :
  Forall barFree (concat cookieLists) ->
  In c0 (concat cookieLists) ->
  Str.truthy (name c0) = true ->
  (exists first,
      find (sameIdentity c0) (concat cookieLists) = Some first /\
      filter (sameIdentity c0) (mergeCookies cookieLists) = [first])
  /\ (forall c, In c (mergeCookies cookieLists) ->
                In c (concat cookieLists) /\ Str.truthy (name c) = true)
  /\ mergeCookies [[Sample.a1]; [Sample.a2]] = [Sample.a1; Sample.a2]
  /\ mergeCookies [[Sample.a1]; [Sample.a3]] = [Sample.a1].
Proof.
  intros Hfree Hin Hname.
  assert (Hsub : forall c, In c (mergeCookies cookieLists) ->
                           In c (concat cookieLists) /\
                           Str.truthy (name c) = true).
  { intros c Hc. rewrite mergeCookies_firstPerKey in Hc.
    apply firstPerKey_incl in Hc. exact Hc. }
  pose proof (proj1 (Forall_forall _ _) Hfree) as Hfree'.
  split; [|split; [exact Hsub | split; reflexivity]].
  assert (Hfind : find (sameIdentity c0) (concat cookieLists) =
                  find (fun c => Str.truthy (name c) &&
                                 String.eqb (cookieKey c) (cookieKey c0))
                       (concat cookieLists)).
  { apply find_ext_in. intros c Hc.
    rewrite (cookieKey_sameIdentity c0 c (Hfree' _ Hin) (Hfree' _ Hc)).
    unfold sameIdentity.
    destruct (String.eqb_spec (name c) (name c0)) as [E|]; simpl.
    - rewrite E, Hname. reflexivity.
    - rewrite andb_false_r. reflexivity. }
  assert (Hfilter : filter (sameIdentity c0) (mergeCookies cookieLists) =
                    filter (fun c => String.eqb (cookieKey c) (cookieKey c0))
                           (mergeCookies cookieLists)).
  { apply filter_ext_in. intros c Hc. symmetry.
    apply cookieKey_sameIdentity; [apply Hfree', Hin|].
    apply Hfree'. exact (proj1 (Hsub c Hc)). }
  rewrite Hfilter, Hfind, mergeCookies_firstPerKey, filter_firstPerKey. simpl.
  destruct (find (fun c => Str.truthy (name c) &&
                           String.eqb (cookieKey c) (cookieKey c0))
                 (concat cookieLists)) as [first|] eqn:E.
  - exists first. split; reflexivity.
  - exfalso.
    apply (find_none _ _ E) in Hin.
    rewrite Hname, String.eqb_refl in Hin. discriminate.
Qed.

Lemma mergeCookies_first_per_named_key_witness :
  exists first,
    find (sameIdentity Sample.a3) (concat [[Sample.a1]; [Sample.a3]])
      = Some first /\
    filter (sameIdentity Sample.a3) (mergeCookies [[Sample.a1]; [Sample.a3]])
      = [first].
Proof.
  refine (proj1 (mergeCookies_first_per_named_key
                   [[Sample.a1]; [Sample.a3]] Sample.a3 _ _ _)).
  - repeat constructor.
  - simpl. right. left. reflexivity.
  - reflexivity.
Defined.

End CookieFacts.

(** ** The concrete host obeys the specification of the runtime *)

Module SampleFacts.
Import Cookies Browser Engine Sample Spec.
















(** *** The key derivation of the browser *)

Example sha256_abc :
  Kdf.sha256 [97; 98; 99]%Z
  = [186; 120; 22; 191; 143; 1; 207; 234; 65; 65; 64; 222; 93; 174; 34; 35;
     176; 3; 97; 163; 150; 23; 122; 156; 180; 16; 255; 97; 242; 0; 21;
     173]%Z.
Proof. vm_compute. reflexivity. Qed.

(** The key PBKDF2 derives from [password] and [salt] in two rounds. *)
Example pbkdf2_two_rounds :
  Kdf.pbkdf2 [112; 97; 115; 115; 119; 111; 114; 100]%Z
             [115; 97; 108; 116]%Z 2
  = [174; 77; 12; 149; 175; 107; 70; 211; 45; 10; 223; 249; 40; 240; 109;
     208; 42; 48; 63; 142; 243; 194; 81; 223; 214; 226; 216; 90; 149; 71;
     76; 67]%Z.
Proof. vm_compute. reflexivity. Qed.








End SampleFacts.

(** ** The engine *)

Module EngineFacts.
Import Cookies Resolver Browser Engine Spec.

(** *** Tabs of the harvester *)

Lemma filter_not_in (id : nat) (l : list nat) :
  ~ In id (filter (fun t => negb (Nat.eqb t id)) l).
Proof.
  intros H. apply filter_In in H as [_ H].
  rewrite Nat.eqb_refl in H. discriminate.
Qed.

Lemma filter_drop_incl (id : nat) (l : list nat) :
  incl (filter (fun t => negb (Nat.eqb t id)) (id :: l)) l.
Proof.
  intros x H. apply filter_In in H as [[<-|H] Hx].
  - rewrite Nat.eqb_refl in Hx. discriminate.
  - exact H.
Qed.

(** Unfolds one harvester call down to the answers of the host. *)
Ltac run_tab_call :=
  unfold readLocalStorageForUrl, writeLocalStorageForUrl, tryFinally, bind,
    tabsCreate, tabsRemove, waitForTabLoad, tabsGet, readLocalStorage,
    writeLocalStorage, emit, lift, liftOption, ret, throw;
  cbn [open_tabs next_tab rng_reads log existsb].

(** Closes the goal [closesItsTabs w w'] once [w'] is explicit. *)
Ltac tab_closed :=
  eexists; cbn [log open_tabs]; split;
  [ repeat rewrite <- app_assoc; reflexivity
  | split;
    [ cbn; intros ? [<-|[]]; split;
      [ repeat first [left; reflexivity | right]
      | apply filter_not_in ]
    | first [apply filter_drop_incl | apply incl_filter] ] ].

(** Splits on the answer of the host to the removal of a tab. *)
Ltac removal :=
  repeat match goal with
         | |- context [env_tabs_remove ?env ?id] =>
             destruct (env_tabs_remove env id) as [?|[]]
         end.

(** Finishes a path of a harvester call once the answers are fixed. *)
Ltac tab_path :=
  cbn; rewrite ?Nat.eqb_refl; cbn;
  repeat match goal with
         | H : env_tabs_remove _ _ = _ |- _ => rewrite H
         end;
  cbn; tab_closed.

Lemma readLocalStorageForUrl_closes (P : Platform) (env : Env)
  (url : string) (w : World) :
  env_tabs_remove env (next_tab w) = inr tt ->
  closesItsTabs w (snd (readLocalStorageForUrl P env url w)).
Proof.
  intros Hremove. run_tab_call.
  destruct (env_tabs_create env (next_tab w) url) as [e|[]]; cbn.
  { exists [EvTabsCreate url None]. cbn.
    repeat split; [tauto | tauto | apply incl_refl]. }
  destruct (env_tab_loaded env (next_tab w)); [|tab_path].
  destruct (env_tabs_get env (next_tab w)) as [e|currentUrl]; [tab_path|].
  destruct (negb (Str.truthy currentUrl) || isRestrictedUrl currentUrl);
    [tab_path|].
  destruct (env_script_read env (next_tab w)); try solve [tab_path];
    destruct (URL_parse P currentUrl); tab_path.
Qed.

Lemma writeLocalStorageForUrl_closes (env : Env)
  (target : string) (payload : Storage) (w : World) :
  env_tabs_remove env (next_tab w) = inr tt ->
  closesItsTabs w (snd (writeLocalStorageForUrl env target payload w)).
Proof.
  intros Hremove. run_tab_call.
  destruct (env_tabs_create env (next_tab w) target) as [e|[]]; cbn.
  { exists [EvTabsCreate target None]. cbn.
    repeat split; [tauto | tauto | apply incl_refl]. }
  destruct (env_tab_loaded env (next_tab w)); [|tab_path].
  destruct (env_tabs_get env (next_tab w)) as [e|currentUrl]; [tab_path|].
  destruct (negb (Str.truthy currentUrl) || isRestrictedUrl currentUrl);
    [tab_path|].
  destruct (env_script_write env (next_tab w) payload); tab_path.
Qed.

(** *** What a call adds to the log *)

Lemma httpsAttempts_app (a b : list Event) :
  httpsAttempts (a ++ b) = (httpsAttempts a ++ httpsAttempts b)%list.
Proof.
  induction a as [|e a IH]; simpl; [reflexivity|].
  destruct e; try exact IH.
  destruct (Str.startsWith url "https://"); simpl; rewrite IH; reflexivity.
Qed.

Lemma requests_app (a b : list Event) :
  requests (a ++ b) = (requests a ++ requests b)%list.
Proof.
  induction a as [|e a IH]; simpl; [reflexivity|].
  destruct e; try exact IH. simpl. rewrite IH. reflexivity.
Qed.

Lemma grows_refl (w : World) : grows w w [].
Proof. exists []. rewrite app_nil_r. repeat split. Qed.

Lemma grows_trans (w1 w2 w3 : World) (a b : list string) :
  grows w1 w2 a -> grows w2 w3 b -> grows w1 w3 (a ++ b).
Proof.
  intros (d1 & L1 & A1 & R1) (d2 & L2 & A2 & R2). exists (d1 ++ d2)%list.
  rewrite L2, L1, <- app_assoc, httpsAttempts_app, requests_app, A1, A2, R1, R2.
  repeat split.
Qed.

Ltac grows_path :=
  cbn; rewrite ?Nat.eqb_refl; cbn; removal; cbn;
  (eexists; cbn [log]; split;
   [ repeat rewrite <- app_assoc; reflexivity
   | cbn; destruct (Str.startsWith _ "https://"); split; reflexivity ]).

Lemma readLocalStorageForUrl_grows (P : Platform) (env : Env)
  (url : string) (w : World) :
  grows w (snd (readLocalStorageForUrl P env url w))
        (if Str.startsWith url "https://" then [url] else []).
Proof.
  run_tab_call.
  destruct (env_tabs_create env (next_tab w) url) as [e|[]]; [grows_path|].
  destruct (env_tab_loaded env (next_tab w)); [|grows_path].
  destruct (env_tabs_get env (next_tab w)) as [e|currentUrl]; [grows_path|].
  destruct (negb (Str.truthy currentUrl) || isRestrictedUrl currentUrl);
    [grows_path|].
  destruct (env_script_read env (next_tab w)); try solve [grows_path];
    destruct (URL_parse P currentUrl); grows_path.
Qed.

(** *** The harvesting loop *)

Lemma objGet_objSet_other (obj : StorageMap) (key other : string)
  (v : Storage) :
  other <> key -> objGet (objSet obj key v) other = objGet obj other.
Proof.
  intros Hne. unfold objGet.
  induction obj as [|[k old] obj IH]; simpl.
  - destruct (String.eqb_spec key other); [congruence | reflexivity].
  - destruct (String.eqb_spec k key) as [->|Hk]; simpl.
    + destruct (String.eqb_spec key other); [congruence | reflexivity].
    + destruct (String.eqb_spec k other); [reflexivity | exact IH].
Qed.

Lemma objGet_objSet_kept (obj : StorageMap) (key other : string)
  (v d : Storage) :
  objGet obj key = None -> objGet obj other = Some d ->
  objGet (objSet obj key v) other = Some d.
Proof.
  intros Hnone Hsome. rewrite objGet_objSet_other; [exact Hsome|].
  intros ->. congruence.
Qed.

Lemma https_prefix (h : string) :
  Str.startsWith ("https://" ++ h) "https://" = true.
Proof. destruct h; reflexivity. Qed.

Lemma http_no_https_prefix (h : string) :
  Str.startsWith ("http://" ++ h) "https://" = false.
Proof. reflexivity. Qed.

(** One turn of the loop always completes; it leaves the map alone or
    adds one origin that the map did not hold; besides the active host
    it asks for exactly one [https] tab. *)
Lemma harvestHost_total (P : Platform) (env : Env) (cur : string)
  (lsm : StorageMap) (h : string) (w : World) :
  exists lsm' w',
    harvestHost P env cur lsm h w = (inr lsm', w') /\
    (lsm' = lsm \/
     exists o d, objGet lsm o = None /\ lsm' = objSet lsm o d) /\
    grows w w' (if String.eqb h cur then [] else ["https://" ++ h]).
Proof.
  unfold harvestHost. destruct (String.eqb h cur).
  { exists lsm, w. repeat split; [left; reflexivity | apply grows_refl]. }
  unfold bind at 1. unfold tryCatch at 1. unfold bind at 1.
  pose proof (readLocalStorageForUrl_grows P env ("https://" ++ h) w) as G1.
  rewrite https_prefix in G1.
  destruct (readLocalStorageForUrl P env ("https://" ++ h) w)
    as [[e1|r1] w1]; cbn [snd] in G1.
  - unfold tryCatch at 1. unfold bind at 1.
    pose proof (readLocalStorageForUrl_grows P env ("http://" ++ h) w1) as G2.
    rewrite http_no_https_prefix in G2.
    pose proof (grows_trans _ _ _ _ _ G1 G2) as G.
    destruct (readLocalStorageForUrl P env ("http://" ++ h) w1)
      as [[e2|r2] w2]; cbn [snd] in G; unfold ret.
    + exists lsm, w2. repeat split; [left; reflexivity | exact G].
    + destruct (Str.truthy (h_origin r2)); cbn [andb].
      * destruct (objGet lsm (h_origin r2)) eqn:E; cbn [negb].
        { exists lsm, w2. repeat split; [left; reflexivity | exact G]. }
        { eexists _, w2. repeat split; [|exact G].
          right. exists (h_origin r2), (h_data r2). split; [exact E|reflexivity]. }
      * exists lsm, w2. repeat split; [left; reflexivity | exact G].
  - unfold ret.
    destruct (Str.truthy (h_origin r1)); cbn [andb].
    + destruct (objGet lsm (h_origin r1)) eqn:E; cbn [negb].
      * exists lsm, w1. repeat split; [left; reflexivity | exact G1].
      * eexists _, w1. repeat split; [|exact G1].
        right. exists (h_origin r1), (h_data r1). split; [exact E|reflexivity].
    + exists lsm, w1. repeat split; [left; reflexivity | exact G1].
Qed.

(** A host whose two attempts fail leaves the map as it was. *)
Lemma harvestHost_failure_swallowed (P : Platform) (env : Env)
  (cur : string) (lsm : StorageMap) (h : string) (w : World)
  (e1 e2 : Error) :
  String.eqb h cur = false ->
  fst (readLocalStorageForUrl P env ("https://" ++ h) w) = inl e1 ->
  fst (readLocalStorageForUrl P env ("http://" ++ h)
         (snd (readLocalStorageForUrl P env ("https://" ++ h) w))) = inl e2 ->
  fst (harvestHost P env cur lsm h w) = inr lsm.
Proof.
  intros Hcur H1 H2. unfold harvestHost. rewrite Hcur.
  unfold bind at 1. unfold tryCatch at 1. unfold bind at 1.
  destruct (readLocalStorageForUrl P env ("https://" ++ h) w)
    as [[e|r] w1]; cbn [fst snd] in *; [|discriminate].
  unfold tryCatch at 1. unfold bind at 1.
  destruct (readLocalStorageForUrl P env ("http://" ++ h) w1)
    as [[e'|r'] w2]; cbn [fst] in *; [reflexivity | discriminate].
Qed.

(** The loop always completes, never drops or replaces an entry of the
    map, and asks for the [https] tab of every host other than the
    active one, in list order. *)
Lemma harvestLoop_total (P : Platform) (env : Env) (cur : string)
  (hosts : list string) (lsm : StorageMap) (w : World) :
  exists lsm' w',
    harvestLoop P env cur hosts lsm w = (inr lsm', w') /\
    (forall o d, objGet lsm o = Some d -> objGet lsm' o = Some d) /\
    grows w w' (map (fun h => "https://" ++ h)
                    (filter (fun h => negb (String.eqb h cur)) hosts)).
Proof.
  revert lsm w. induction hosts as [|h hosts IH]; intros lsm w; simpl.
  - exists lsm, w. repeat split; [tauto | apply grows_refl].
  - destruct (harvestHost_total P env cur lsm h w)
      as (lsm1 & w1 & E1 & Hmap & G1).
    destruct (IH lsm1 w1) as (lsm2 & w2 & E2 & Hkeep & G2).
    exists lsm2, w2. unfold bind. rewrite E1. split; [exact E2|]. split.
    + intros o d Hod. apply Hkeep.
      destruct Hmap as [->|(o' & d' & Hnone & ->)]; [exact Hod|].
      apply objGet_objSet_kept; assumption.
    + pose proof (grows_trans _ _ _ _ _ G1 G2) as G.
      destruct (String.eqb h cur); exact G.
Qed.

(** C6.  Once the mandatory steps of a backup have succeeded, the
    harvesting loop always completes: a host whose [https] and [http]
    attempts both fail (a tab-load timeout included) is swallowed and
    leaves the map as it was, every host other than the active one is
    still asked for, in discovery order, and the backup ends exactly as
    the submission of what was gathered ends.  With three hosts of
    which the second times out, the snapshots of the first and the
    third are submitted and the backup succeeds. *)
Theorem harvest_failures_isolated (P : Platform) (env : Env)
  (w w1 : World) (s : Session) :
  collectSession P env w = (inr s, w1) ->
  (exists lsm w2,
      harvestOthers P env s w1 = (inr lsm, w2) /\
      runBackup P env w =
        submitBackup P env (s_context s) (s_cookies s) lsm w2 /\
      grows w1 w2
        (map (fun h => "https://" ++ h)
           (filter (fun h => negb (String.eqb h
                                     (c_currentHostname (s_context s))))
              (collectCandidateHosts (s_cookies s)
                 (c_currentHostname (s_context s))))))
  /\ (forall cur lsm h w0 e1 e2,
        String.eqb h cur = false ->
        fst (readLocalStorageForUrl P env ("https://" ++ h) w0) = inl e1 ->
        fst (readLocalStorageForUrl P env ("http://" ++ h)
               (snd (readLocalStorageForUrl P env ("https://" ++ h) w0)))
          = inl e2 ->
        fst (harvestHost P env cur lsm h w0) = inr lsm)
  /\ fst (runBackup Sample.platform Sample.hostC Sample.world0)
       = inr {| o_domain := "example.com"; o_cookies := 3 |}
  /\ map req_body
         (requests (log (snd (runBackup Sample.platform Sample.hostC
                                        Sample.world0))))
       = [Some (PlainBody "u-1" "" "example.com" Sample.cookiesC
                  [("https://app.example.com", [("k", "app")]);
                   ("https://a.example.com", [("k", "a")]);
                   ("https://c.example.com", [("k", "c")])])]
  /\ httpsAttempts (log (snd (runBackup Sample.platform Sample.hostC
                                         Sample.world0)))
       = ["https://a.example.com"; "https://b.example.com";
          "https://c.example.com"].
Proof.
  intros Hs. split; [|split; [|split; [|split]]].
  - unfold harvestOthers.
    destruct (harvestLoop_total P env (c_currentHostname (s_context s))
                (collectCandidateHosts (s_cookies s)
                   (c_currentHostname (s_context s)))
                [(c_currentOrigin (s_context s), s_localStorageData s)] w1)
      as (lsm & w2 & E & _ & G).
    exists lsm, w2. split; [exact E|]. split; [|exact G].
    unfold runBackup, bind at 1. rewrite Hs.
    unfold bind at 1. unfold harvestOthers. rewrite E. reflexivity.
  - intros cur lsm h w0 e1 e2. apply harvestHost_failure_swallowed.
  - vm_compute. reflexivity.
  - vm_compute. reflexivity.
  - vm_compute. reflexivity.
Qed.

Lemma harvest_failures_isolated_witness :
  exists lsm w2,
    harvestOthers Sample.platform Sample.hostC
      (mkSession
         (mkContext (mkTab 1 Sample.activeUrl) "example.com" "u-1"
                    "https://app.example.com" "app.example.com" (Some "0"))
         Sample.cookiesC [("k", "app")])
      (snd (collectSession Sample.platform Sample.hostC Sample.world0))
    = (inr lsm, w2).
Proof.
  destruct (harvest_failures_isolated Sample.platform Sample.hostC
              Sample.world0
              (snd (collectSession Sample.platform Sample.hostC Sample.world0))
              (mkSession
                 (mkContext (mkTab 1 Sample.activeUrl) "example.com" "u-1"
                            "https://app.example.com" "app.example.com"
                            (Some "0"))
                 Sample.cookiesC [("k", "app")]))
    as [(lsm & w2 & E & _) _].
  - vm_compute. reflexivity.
  - exists lsm, w2. exact E.
Defined.

(** C10.  An origin that has an entry in the storage map keeps that
    entry through the whole harvesting loop: the loop completes with a
    map in which the entry is unchanged.  In a backup the entry of the
    active tab's origin, written before the loop, is the one submitted;
    when two hosts land on one origin the snapshot of the earlier host
    is kept, and a host that lands on the active tab's origin changes
    nothing. *)
Theorem harvest_never_overwrites (P : Platform) (env : Env) (cur : string)
  (hosts : list string) (lsm : StorageMap) (w : World)
  (o : string) (d : Storage) :
  objGet lsm o = Some d ->
  (exists lsm' w',
      harvestLoop P env cur hosts lsm w = (inr lsm', w') /\
      objGet lsm' o = Some d)
  /\ (forall s w1, exists lsm' w',
        harvestOthers P env s w1 = (inr lsm', w') /\
        objGet lsm' (c_currentOrigin (s_context s))
          = Some (s_localStorageData s))
  /\ map req_body
         (requests (log (snd (runBackup Sample.platform Sample.hostD
                                        Sample.world0))))
       = [Some (PlainBody "u-1" "" "example.com" Sample.cookiesC
                  [("https://app.example.com", [("k", "app")]);
                   ("https://sso.example.com", [("k", "first")])])].
Proof.
  intros Hod. split; [|split].
  - destruct (harvestLoop_total P env cur hosts lsm w)
      as (lsm' & w' & E & Hkeep & _).
    exists lsm', w'. split; [exact E | apply Hkeep, Hod].
  - intros s w1. unfold harvestOthers.
    destruct (harvestLoop_total P env (c_currentHostname (s_context s))
                (collectCandidateHosts (s_cookies s)
                   (c_currentHostname (s_context s)))
                [(c_currentOrigin (s_context s), s_localStorageData s)] w1)
      as (lsm' & w' & E & Hkeep & _).
    exists lsm', w'. split; [exact E|]. apply Hkeep.
    unfold objGet. simpl. rewrite String.eqb_refl. reflexivity.
  - vm_compute. reflexivity.
Qed.

Lemma harvest_never_overwrites_witness :
  exists lsm' w',
    harvestLoop Sample.platform Sample.hostD "app.example.com"
      ["app.example.com"; "a.example.com"; "b.example.com"; "c.example.com"]
      [("https://app.example.com", [("k", "app")])] Sample.world0
    = (inr lsm', w') /\
    objGet lsm' "https://app.example.com" = Some [("k", "app")].
Proof.
  refine (proj1 (harvest_never_overwrites Sample.platform Sample.hostD
                   "app.example.com"
                   ["app.example.com"; "a.example.com"; "b.example.com";
                    "c.example.com"]
                   [("https://app.example.com", [("k", "app")])]
                   Sample.world0 "https://app.example.com" [("k", "app")] _)).
  reflexivity.
Defined.

(** *** Steps that stay off the network *)

Lemma silent_ret {A : Type} (a : A) : silent (ret a).
Proof. intros w. apply grows_refl. Qed.

Lemma silent_throw {A : Type} (e : Error) : silent (@throw A e).
Proof. intros w. apply grows_refl. Qed.

Lemma silent_lift {A : Type} (r : Result A) : silent (lift r).
Proof. intros w. apply grows_refl. Qed.

Lemma silent_liftOption {A : Type} (what : string) (o : option A) :
  silent (liftOption what o).
Proof. destruct o; [apply silent_ret | apply silent_throw]. Qed.

Lemma silent_bind {A B : Type} (m : M A) (k : A -> M B) :
  silent m -> (forall a, silent (k a)) -> silent (bind m k).
Proof.
  intros Hm Hk w. unfold bind. specialize (Hm w).
  destruct (m w) as [[e|a] w1]; cbn [snd] in *; [exact Hm|].
  exact (grows_trans _ _ _ _ _ Hm (Hk a w1)).
Qed.

Lemma silent_tryCatch {A : Type} (m : M A) (h : Error -> M A) :
  silent m -> (forall e, silent (h e)) -> silent (tryCatch m h).
Proof.
  intros Hm Hh w. unfold tryCatch. specialize (Hm w).
  destruct (m w) as [[e|a] w1]; cbn [snd] in *; [|exact Hm].
  exact (grows_trans _ _ _ _ _ Hm (Hh e w1)).
Qed.

Lemma silent_cookiesGetAll (env : Env) (q : Query) :
  silent (cookiesGetAll env q).
Proof.
  intros w. unfold cookiesGetAll, bind, emit, lift. cbn.
  exists [EvCookiesGetAll q]. repeat split.
Qed.

Lemma silent_readLocalStorage (env : Env) (tabId : nat) :
  silent (readLocalStorage env tabId).
Proof.
  intros w. unfold readLocalStorage, bind, emit, ret, throw. cbn.
  exists [EvScriptRead tabId].
  destruct (env_script_read env tabId); repeat split.
Qed.

Lemma silent_getCookieStoreIdForTab (env : Env) (tabId : nat) :
  silent (getCookieStoreIdForTab env tabId).
Proof.
  apply silent_tryCatch; [|intros; apply silent_ret].
  apply silent_bind; [apply silent_lift | intros; apply silent_ret].
Qed.

Lemma silent_requireTab (env : Env) (action : Action) :
  silent (requireTab env action).
Proof.
  apply silent_bind.
  - apply silent_bind; [apply silent_lift | intros; apply silent_ret].
  - intros [tab|]; [|apply silent_throw].
    destruct (negb (Str.truthy (tab_url tab))); [apply silent_throw|].
    destruct (isRestrictedUrl (tab_url tab));
      [apply silent_throw | apply silent_ret].
Qed.

Lemma silent_backupContext (P : Platform) (env : Env) :
  silent (backupContext P env).
Proof.
  apply silent_bind; [apply silent_requireTab | intros tab].
  apply silent_bind; [apply silent_liftOption | intros rootDomain].
  apply silent_bind; [apply silent_lift | intros userId].
  destruct (negb (Str.truthy userId)); [apply silent_throw|].
  apply silent_bind; [apply silent_liftOption | intros u].
  apply silent_bind; [apply silent_getCookieStoreIdForTab | intros storeId].
  apply silent_ret.
Qed.

Lemma silent_queryBuckets (env : Env) (storeId : option string)
  (queries : list Query) :
  silent (queryBuckets env storeId queries).
Proof.
  induction queries as [|q queries IH]; simpl; [apply silent_ret|].
  apply silent_bind; [apply silent_cookiesGetAll | intros result].
  apply silent_bind; [exact IH | intros; apply silent_ret].
Qed.

Lemma silent_collectCookies (env : Env) (c : Context) :
  silent (collectCookies env c).
Proof.
  apply silent_bind; [apply silent_queryBuckets | intros buckets].
  cbv zeta.
  destruct (length (mergeCookies buckets) =? 0)%nat; [|apply silent_ret].
  apply silent_bind; [apply silent_cookiesGetAll | intros; apply silent_ret].
Qed.

Lemma silent_requests {A : Type} (m : M A) (w : World) :
  silent m -> requests (log (snd (m w))) = requests (log w).
Proof.
  intros H. destruct (H w) as (delta & L & _ & R).
  rewrite L, requests_app, R, app_nil_r. reflexivity.
Qed.

(** C5.  In the identity-scoped backup, when the cookie set that was
    collected serialises to more than [COOKIE_SIZE_LIMIT_BYTES] = 6144
    bytes, [runBackup] stops right there with the size-exceeded error
    (limit 6 KiB); up to that point no request has been sent, so
    nothing is uploaded. *)
Theorem size_guard_before_network (P : Platform) (env : Env)
  (w w1 w2 : World) (c : Context) (cookies : list Cookie) :
  backupContext P env w = (inr c, w1) ->
  collectCookies env c w1 = (inr cookies, w2) ->
  (COOKIE_SIZE_LIMIT_BYTES < getCookiesSizeBytes P cookies)%Z ->
  runBackup P env w = (inl (ErrCookieSizeExceeded 6), w2)
  /\ requests (log w2) = requests (log w)
  /\ COOKIE_SIZE_LIMIT_BYTES = 6144%Z.
Proof.
  intros Hc Hk Hsize. split; [|split; [|reflexivity]].
  - unfold runBackup, bind at 1. unfold collectSession, bind at 1.
    rewrite Hc. unfold bind at 1. rewrite Hk.
    unfold bind at 1. unfold guardCookieSize.
    apply Z.ltb_lt in Hsize. rewrite Hsize. reflexivity.
  - pose proof (silent_requests _ w (silent_backupContext P env)) as R1.
    pose proof (silent_requests _ w1 (silent_collectCookies env c)) as R2.
    rewrite Hc in R1. rewrite Hk in R2. cbn [snd] in R1, R2.
    rewrite R2, R1. reflexivity.
Qed.

Lemma size_guard_before_network_witness :
  runBackup Sample.platform Sample.hostBig Sample.world0
  = (inl (ErrCookieSizeExceeded 6),
     snd (collectCookies Sample.hostBig
            (mkContext (mkTab 1 Sample.activeUrl) "example.com" "u-1"
                       "https://app.example.com" "app.example.com" (Some "0"))
            Sample.world0)).
Proof.
  refine (proj1 (size_guard_before_network Sample.platform Sample.hostBig
                   Sample.world0 Sample.world0 _
                   (mkContext (mkTab 1 Sample.activeUrl) "example.com" "u-1"
                              "https://app.example.com" "app.example.com"
                              (Some "0"))
                   Sample.cookiesBig _ _ _)).
  - vm_compute. reflexivity.
  - vm_compute. reflexivity.
  - vm_compute. reflexivity.
Defined.

(** *** The envelope *)









(** *** Exit paths of the harvester *)

Ltac exit_path :=
  cbn; rewrite ?Nat.eqb_refl; cbn;
  repeat match goal with
         | H : env_tabs_remove _ _ = _ |- _ => rewrite H
         end;
  cbn;
  (split; [reflexivity|];
   split; [rewrite ?in_app_iff; cbn; tauto | apply filter_not_in]).

(** Once the tab is open and the host removes it when asked, the
    outcome of a read is decided by the answers of the host in this
    order: load, tab lookup, restricted page, script, URL; on each of
    them the tab has been removed. *)
Lemma readLocalStorageForUrl_exits (P : Platform) (env : Env)
  (url : string) (w : World) :
  env_tabs_create env (next_tab w) url = inr tt ->
  env_tabs_remove env (next_tab w) = inr tt ->
  fst (readLocalStorageForUrl P env url w) =
    (if negb (env_tab_loaded env (next_tab w)) then inl ErrTabLoadTimeout
     else match env_tabs_get env (next_tab w) with
          | inl e => inl e
          | inr currentUrl =>
              if negb (Str.truthy currentUrl) || isRestrictedUrl currentUrl
              then inl (ErrUnsupportedPage ActStorage)
              else match env_script_read env (next_tab w) with
                   | ScriptRejected message => inl (ErrLastError message)
                   | answer =>
                       match URL_parse P currentUrl with
                       | None => inl (ErrBuiltin "URL")
                       | Some u =>
                           inr {| h_origin := origin u;
                                  h_data := match answer with
                                            | ScriptData data => data
                                            | _ => []
                                            end |}
                       end
                   end
          end)
  /\ In (EvTabsRemove (next_tab w))
        (log (snd (readLocalStorageForUrl P env url w)))
  /\ ~ In (next_tab w) (open_tabs (snd (readLocalStorageForUrl P env url w))).
Proof.
  intros Hcreate Hremove. run_tab_call. rewrite Hcreate.
  destruct (env_tab_loaded env (next_tab w)); [|exit_path].
  destruct (env_tabs_get env (next_tab w)) as [e|currentUrl]; [exit_path|].
  destruct (negb (Str.truthy currentUrl) || isRestrictedUrl currentUrl);
    [exit_path|].
  destruct (env_script_read env (next_tab w)); try solve [exit_path];
    destruct (URL_parse P currentUrl); exit_path.
Qed.

Lemma writeLocalStorageForUrl_exits (env : Env) (target : string)
  (payload : Storage) (w : World) :
  env_tabs_create env (next_tab w) target = inr tt ->
  env_tabs_remove env (next_tab w) = inr tt ->
  fst (writeLocalStorageForUrl env target payload w) =
    (if negb (env_tab_loaded env (next_tab w)) then inl ErrTabLoadTimeout
     else match env_tabs_get env (next_tab w) with
          | inl e => inl e
          | inr currentUrl =>
              if negb (Str.truthy currentUrl) || isRestrictedUrl currentUrl
              then inl (ErrUnsupportedPage ActStorage)
              else env_script_write env (next_tab w) payload
          end)
  /\ In (EvTabsRemove (next_tab w))
        (log (snd (writeLocalStorageForUrl env target payload w)))
  /\ ~ In (next_tab w)
        (open_tabs (snd (writeLocalStorageForUrl env target payload w))).
Proof.
  intros Hcreate Hremove. run_tab_call. rewrite Hcreate.
  destruct (env_tab_loaded env (next_tab w)); [|exit_path].
  destruct (env_tabs_get env (next_tab w)) as [e|currentUrl]; [exit_path|].
  destruct (negb (Str.truthy currentUrl) || isRestrictedUrl currentUrl);
    [exit_path|].
  destruct (env_script_write env (next_tab w) payload); exit_path.
Qed.

(** Whatever the host answers, the removal of the tab is asked for; a
    removal the host refuses ends the call with the refusal and leaves
    the tab open. *)
Ltac stuck_path :=
  cbn; rewrite ?Nat.eqb_refl; cbn; removal; cbn;
  (split; [rewrite ?in_app_iff; cbn; tauto|];
   intros ? ?; first [discriminate | split; [congruence | left; reflexivity]]).

Lemma readLocalStorageForUrl_asks (P : Platform) (env : Env)
  (url : string) (w : World) :
  env_tabs_create env (next_tab w) url = inr tt ->
  In (EvTabsRemove (next_tab w))
     (log (snd (readLocalStorageForUrl P env url w)))
  /\ forall e, env_tabs_remove env (next_tab w) = inl e ->
       fst (readLocalStorageForUrl P env url w) = inl e
       /\ In (next_tab w)
             (open_tabs (snd (readLocalStorageForUrl P env url w))).
Proof.
  intros Hcreate. run_tab_call. rewrite Hcreate.
  destruct (env_tab_loaded env (next_tab w)); [|stuck_path].
  destruct (env_tabs_get env (next_tab w)) as [e|currentUrl]; [stuck_path|].
  destruct (negb (Str.truthy currentUrl) || isRestrictedUrl currentUrl);
    [stuck_path|].
  destruct (env_script_read env (next_tab w)); try solve [stuck_path];
    destruct (URL_parse P currentUrl); stuck_path.
Qed.

Lemma writeLocalStorageForUrl_asks (env : Env) (target : string)
  (payload : Storage) (w : World) :
  env_tabs_create env (next_tab w) target = inr tt ->
  In (EvTabsRemove (next_tab w))
     (log (snd (writeLocalStorageForUrl env target payload w)))
  /\ forall e, env_tabs_remove env (next_tab w) = inl e ->
       fst (writeLocalStorageForUrl env target payload w) = inl e
       /\ In (next_tab w)
             (open_tabs (snd (writeLocalStorageForUrl env target payload w))).
Proof.
  intros Hcreate. run_tab_call. rewrite Hcreate.
  destruct (env_tab_loaded env (next_tab w)); [|stuck_path].
  destruct (env_tabs_get env (next_tab w)) as [e|currentUrl]; [stuck_path|].
  destruct (negb (Str.truthy currentUrl) || isRestrictedUrl currentUrl);
    [stuck_path|].
  destruct (env_script_write env (next_tab w) payload); stuck_path.
Qed.

(** C9, as the specification states it, fails: on a browser that
    refuses the removal, a read that opened tab 2 and read its storage
    asks for the removal of the tab and ends with the tab still open. *)
Lemma harvester_tab_left_open_on_refusal :
  env_tabs_create Sample.hostStuck (next_tab Sample.world0)
    "https://a.example.com" = inr tt
  /\ In (EvTabsRemove 2)
        (log (snd (readLocalStorageForUrl Sample.platform Sample.hostStuck
                     "https://a.example.com" Sample.world0)))
  /\ In 2 (open_tabs (snd (readLocalStorageForUrl Sample.platform
                             Sample.hostStuck "https://a.example.com"
                             Sample.world0)))
  /\ ~ closesItsTabs Sample.world0
         (snd (readLocalStorageForUrl Sample.platform Sample.hostStuck
                 "https://a.example.com" Sample.world0)).
Proof.
  split; [reflexivity|]. split; [cbn; tauto|]. split; [cbn; tauto|].
  intros (delta & Hlog & Hclosed & _).
  cbn in Hlog. subst delta.
  destruct (Hclosed 2 ltac:(cbn; tauto)) as [_ Hopen].
  apply Hopen. cbn. tauto.
Qed.

(** C9, amended.  Whenever [readLocalStorageForUrl] or
    [writeLocalStorageForUrl] has opened its tab, the removal of the tab
    is asked for before the call ends, whichever way it ends.  When the
    browser carries the removal out, the tab is not open after the
    call, on a tab-load timeout, on a rejected tab lookup, on a
    restricted page, on a rejected script and on success alike: every
    tab opened during the call has been removed, and no tab is open that
    was not open before.  When the browser refuses the removal, the
    call ends with that refusal and the tab stays open. *)
Theorem harvester_tab_closed_on_every_exit (P : Platform) (env : Env)
  (url : string) (payload : Storage) (w : World) :
  env_tabs_create env (next_tab w) url = inr tt ->
  (In (EvTabsRemove (next_tab w))
      (log (snd (readLocalStorageForUrl P env url w)))
   /\ In (EvTabsRemove (next_tab w))
         (log (snd (writeLocalStorageForUrl env url payload w))))
  /\ (forall e, env_tabs_remove env (next_tab w) = inl e ->
        (fst (readLocalStorageForUrl P env url w) = inl e
         /\ In (next_tab w)
               (open_tabs (snd (readLocalStorageForUrl P env url w))))
        /\ (fst (writeLocalStorageForUrl env url payload w) = inl e
            /\ In (next_tab w)
                  (open_tabs
                     (snd (writeLocalStorageForUrl env url payload w)))))
  /\ (env_tabs_remove env (next_tab w) = inr tt ->
  (~ In (next_tab w) (open_tabs (snd (readLocalStorageForUrl P env url w)))
   /\ closesItsTabs w (snd (readLocalStorageForUrl P env url w)))
  /\ (~ In (next_tab w)
        (open_tabs (snd (writeLocalStorageForUrl env url payload w)))
      /\ closesItsTabs w (snd (writeLocalStorageForUrl env url payload w)))
  /\ (env_tab_loaded env (next_tab w) = false ->
      fst (readLocalStorageForUrl P env url w) = inl ErrTabLoadTimeout /\
      fst (writeLocalStorageForUrl env url payload w) = inl ErrTabLoadTimeout)
  /\ (forall currentUrl,
        env_tab_loaded env (next_tab w) = true ->
        env_tabs_get env (next_tab w) = inr currentUrl ->
        isRestrictedUrl currentUrl = true ->
        fst (readLocalStorageForUrl P env url w)
          = inl (ErrUnsupportedPage ActStorage) /\
        fst (writeLocalStorageForUrl env url payload w)
          = inl (ErrUnsupportedPage ActStorage))
  /\ (forall currentUrl message,
        env_tab_loaded env (next_tab w) = true ->
        env_tabs_get env (next_tab w) = inr currentUrl ->
        negb (Str.truthy currentUrl) || isRestrictedUrl currentUrl = false ->
        env_script_read env (next_tab w) = ScriptRejected message ->
        fst (readLocalStorageForUrl P env url w)
          = inl (ErrLastError message))
  /\ (forall currentUrl data u,
        env_tab_loaded env (next_tab w) = true ->
        env_tabs_get env (next_tab w) = inr currentUrl ->
        negb (Str.truthy currentUrl) || isRestrictedUrl currentUrl = false ->
        env_script_read env (next_tab w) = ScriptData data ->
        URL_parse P currentUrl = Some u ->
        fst (readLocalStorageForUrl P env url w)
          = inr {| h_origin := origin u; h_data := data |})).
Proof.
  intros Hcreate.
  destruct (readLocalStorageForUrl_asks P env url w Hcreate) as (Ar & Sr).
  destruct (writeLocalStorageForUrl_asks env url payload w Hcreate)
    as (Aw & Sw).
  split; [split; assumption|].
  split; [intros e He; split; [apply Sr | apply Sw]; exact He|].
  intros Hremove.
  destruct (readLocalStorageForUrl_exits P env url w Hcreate Hremove)
    as (Hr & _ & Hr2).
  destruct (writeLocalStorageForUrl_exits env url payload w Hcreate Hremove)
    as (Hw & _ & Hw2).
  split; [|split; [|split; [|split; [|split]]]].
  - split; [assumption|]. apply readLocalStorageForUrl_closes; assumption.
  - split; [assumption|]. apply writeLocalStorageForUrl_closes; assumption.
  - intros Hl. rewrite Hr, Hw, Hl. split; reflexivity.
  - intros currentUrl Hl Hg Hres. rewrite Hr, Hw, Hl, Hg, Hres.
    rewrite orb_true_r. split; reflexivity.
  - intros currentUrl message Hl Hg Hres Hs.
    rewrite Hr, Hl, Hg, Hres, Hs. reflexivity.
  - intros currentUrl data u Hl Hg Hres Hs Hu.
    rewrite Hr, Hl, Hg, Hres, Hs, Hu. reflexivity.
Qed.

Lemma harvester_tab_closed_on_every_exit_witness :
  fst (readLocalStorageForUrl Sample.platform Sample.hostC
         "https://b.example.com"
         (mkWorld [1] 3 0 [])) = inl ErrTabLoadTimeout
  /\ ~ In 3 (open_tabs (snd (readLocalStorageForUrl Sample.platform
                               Sample.hostC "https://b.example.com"
                               (mkWorld [1] 3 0 []))))
  /\ In (EvTabsRemove 3)
        (log (snd (readLocalStorageForUrl Sample.platform
                     Sample.hostC "https://b.example.com"
                     (mkWorld [1] 3 0 [])))).
Proof.
  destruct (harvester_tab_closed_on_every_exit Sample.platform Sample.hostC
              "https://b.example.com" [] (mkWorld [1] 3 0 []) eq_refl)
    as ((Hrem & _) & _ & Hdone).
  destruct (Hdone eq_refl) as ((Hopen & _) & _ & Htimeout & _).
  split; [exact (proj1 (Htimeout eq_refl))|].
  split; [exact Hopen | exact Hrem].
Defined.

(** *** What a backup sends *)

Lemma silent_collectSession (P : Platform) (env : Env) :
  silent (collectSession P env).
Proof.
  apply silent_bind; [apply silent_backupContext | intros c].
  apply silent_bind; [apply silent_collectCookies | intros cookies].
  apply silent_bind.
  - unfold guardCookieSize.
    destruct (COOKIE_SIZE_LIMIT_BYTES <? getCookiesSizeBytes P cookies)%Z;
      [apply silent_throw | apply silent_ret].
  - intros _. apply silent_bind; [apply silent_readLocalStorage|].
    intros data. apply silent_ret.
Qed.

(** The session keeps the cookies exactly as [collectCookies] returned
    them. *)
Lemma collectSession_cookies (P : Platform) (env : Env) (w w1 : World)
  (s : Session) :
  collectSession P env w = (inr s, w1) ->
  exists wa wb,
    backupContext P env w = (inr (s_context s), wa) /\
    collectCookies env (s_context s) wa = (inr (s_cookies s), wb).
Proof.
  unfold collectSession, bind.
  destruct (backupContext P env w) as [[e|c] wa]; [discriminate|].
  destruct (collectCookies env c wa) as [[e|cookies] wb] eqn:Ek;
    [discriminate|].
  destruct (guardCookieSize P cookies wb) as [[e|[]] wc]; [discriminate|].
  destruct (readLocalStorage env (tab_id (c_tab c)) wc) as [[e|data] wd];
    [discriminate|].
  unfold ret. intros H. injection H as <- _. exists wa, wb.
  cbn [s_context s_cookies]. split; [reflexivity | exact Ek].
Qed.

Ltac sent_nothing :=
  exists []; rewrite app_nil_r; split; [reflexivity | intros ? []].

(** Whatever [submitBackup] sends carries the cookies and the storage
    map it was given. *)
Lemma submitBackup_carries (P : Platform) (env : Env) (c : Context)
  (cookies : list Cookie) (lsm : StorageMap) (w : World) :
  exists delta,
    log (snd (submitBackup P env c cookies lsm w)) = (log w ++ delta)%list /\
    forall request, In request (requests delta) ->
      exists password, carries P c password cookies lsm request.
Proof.
  unfold submitBackup, getApiBase, getApiPassword, storageGet,
    encryptE2EPayload, getRandomValues, fetch, bind, lift, emit, ret.
  destruct (env_storage_get env API_BASE_KEY) as [e|base]; [sent_nothing|].
  destruct (env_storage_get env API_PASSWORD_KEY) as [e|password];
    [sent_nothing|].
  destruct (Str.truthy password);
    cbn [open_tabs next_tab rng_reads log e_payload e_salt e_nonce];
    match goal with
    | |- context [env_fetch env ?r] =>
        exists [EvFetch r]; destruct (env_fetch env r) as [response|];
        [destruct (negb (resp_ok response))|]; cbn [snd log];
        (split; [reflexivity|]); intros request [<-|[]]; exists password
    end;
    solve [ left; reflexivity
          | right; eexists _, _; reflexivity ].
Qed.

(** C8, as stated, fails on scenario C.  The backup goes out in the
    clear with the [hostOnly] flag of every collected record as collected: two of the three
    transported records carry [hostOnly = true]. *)
Lemma backup_transports_hostOnly :
  map req_body
    (requests (log (snd (runBackup Sample.platform Sample.hostC
                                   Sample.world0))))
  = [Some (PlainBody "u-1" "" "example.com" Sample.cookiesC
             [("https://app.example.com", [("k", "app")]);
              ("https://a.example.com", [("k", "a")]);
              ("https://c.example.com", [("k", "c")])])]
  /\ map hostOnly Sample.cookiesC = [Some true; Some false; Some true].
Proof. split; vm_compute; reflexivity. Qed.

(** C8 (amended).  Every request that a backup sends to the remote
    store carries the collected cookie records exactly as
    [collectCookies] returned them, the [hostOnly] field included: in
    the clear as the [cookies] of the body, or sealed as the plaintext
    of the envelope. *)
Theorem backup_transports_cookies_unchanged (P : Platform) (env : Env)
  (w w1 : World) (s : Session) (request : Request) :
  collectSession P env w = (inr s, w1) ->
  In request (requests (log (snd (runBackup P env w)))) ->
  (exists wa wb,
      backupContext P env w = (inr (s_context s), wa) /\
      collectCookies env (s_context s) wa = (inr (s_cookies s), wb))
  /\ (In request (requests (log w))
      \/ exists password lsm,
           carries P (s_context s) password (s_cookies s) lsm request).
Proof.
  intros Hs Hin. split; [exact (collectSession_cookies P env w w1 s Hs)|].
  pose proof (silent_requests _ w (silent_collectSession P env)) as R1.
  rewrite Hs in R1. cbn [snd] in R1.
  unfold runBackup, bind at 1 in Hin. rewrite Hs in Hin.
  unfold bind at 1 in Hin. unfold harvestOthers in Hin.
  destruct (harvestLoop_total P env (c_currentHostname (s_context s))
              (collectCandidateHosts (s_cookies s)
                 (c_currentHostname (s_context s)))
              [(c_currentOrigin (s_context s), s_localStorageData s)] w1)
    as (lsm & w2 & E & _ & (d2 & L2 & _ & R2)).
  rewrite E in Hin.
  destruct (submitBackup_carries P env (s_context s) (s_cookies s) lsm w2)
    as (d3 & L3 & Hcarries).
  rewrite L3, L2, !requests_app, R2, app_nil_r, R1 in Hin.
  apply in_app_or in Hin as [Hold|Hnew]; [left; exact Hold|].
  right. destruct (Hcarries request Hnew) as [password Hc].
  exists password, lsm. exact Hc.
Qed.

Lemma backup_transports_cookies_unchanged_witness :
  exists password lsm,
    carries Sample.platform
      (mkContext (mkTab 1 Sample.activeUrl) "example.com" "u-1"
                 "https://app.example.com" "app.example.com" (Some "0"))
      password Sample.cookiesC lsm
      (mkRequest "POST" "http://localhost:8000/backup"
         [("Content-Type", "application/json")]
         (Some (PlainBody "u-1" "" "example.com" Sample.cookiesC
                  [("https://app.example.com", [("k", "app")]);
                   ("https://a.example.com", [("k", "a")]);
                   ("https://c.example.com", [("k", "c")])]))).
Proof.
  destruct (backup_transports_cookies_unchanged Sample.platform Sample.hostC
              Sample.world0
              (snd (collectSession Sample.platform Sample.hostC Sample.world0))
              (mkSession
                 (mkContext (mkTab 1 Sample.activeUrl) "example.com" "u-1"
                            "https://app.example.com" "app.example.com"
                            (Some "0"))
                 Sample.cookiesC [("k", "app")])
              (mkRequest "POST" "http://localhost:8000/backup"
                 [("Content-Type", "application/json")]
                 (Some (PlainBody "u-1" "" "example.com" Sample.cookiesC
                          [("https://app.example.com", [("k", "app")]);
                           ("https://a.example.com", [("k", "a")]);
                           ("https://c.example.com", [("k", "c")])]))))
    as [_ [Hold|Hnew]].
  - vm_compute. reflexivity.
  - vm_compute. left. reflexivity.
  - destruct Hold.
  - exact Hnew.
Defined.

(** *** Restore *)

Lemma setAllCookies_log (env : Env) (details : list Details) (w : World) :
  cookieSets (log (snd (setAllCookies env details w))) =
  (cookieSets (log w) ++ details)%list.
Proof.
  assert (Happ : forall a b, cookieSets (a ++ b)
                             = (cookieSets a ++ cookieSets b)%list).
  { induction a as [|e a IH]; intros b; simpl; [reflexivity|].
    destruct e; try apply IH. simpl. rewrite IH. reflexivity. }
  assert (Hmap : forall l, cookieSets (map EvCookiesSet l) = l).
  { induction l as [|d l IH]; simpl; [reflexivity | rewrite IH; reflexivity]. }
  unfold setAllCookies.
  destruct (find _ details) as [d|]; [destruct (env_cookies_set env d)|];
    cbn [snd log]; rewrite Happ, Hmap; reflexivity.
Qed.

(** C3.  The call of [chrome.cookies.set] built for a cookie has the
    URL [https://] or [http://], by the [secure] flag, followed by the
    domain without its leading dot and by the path ([/] when the path
    is empty); it has the cookie's own domain, dot included, as
    [domain] attribute unless the cookie is host-only, and no [domain]
    attribute when it is.  A restore issues exactly these calls: for
    the backup of scenario B, one with domain [.v2ex.com] and one
    without a domain. *)
Theorem buildCookieDetails_target (cookie : Cookie)
  (storeId : option string) (rest : string) (env : Env) (w : World) :
  d_url (buildCookieDetails cookie storeId)
  = (if secure cookie then "https" else "http") ++ "://"
    ++ Str.stripLeadingDot (domain cookie)
    ++ (if String.eqb (path cookie) "" then "/" else path cookie)
  /\ Str.stripLeadingDot (String "." rest) = rest
  /\ ((forall tail, domain cookie <> String "." tail) ->
      Str.stripLeadingDot (domain cookie) = domain cookie)
  /\ d_domain (buildCookieDetails cookie storeId)
     = (if flagSet (hostOnly cookie) then None else Some (domain cookie))
  /\ (domain cookie = String "." rest ->
      flagSet (hostOnly cookie) = false ->
      d_domain (buildCookieDetails cookie storeId) = Some (String "." rest)
      /\ d_url (buildCookieDetails cookie storeId)
         = (if secure cookie then "https" else "http") ++ "://" ++ rest
           ++ (if String.eqb (path cookie) "" then "/" else path cookie))
  /\ cookieSets (log (snd (setAllCookies env
                             [buildCookieDetails cookie storeId] w)))
     = (cookieSets (log w) ++ [buildCookieDetails cookie storeId])%list
  /\ map (fun d => (d_url d, d_domain d))
         (cookieSets (log (snd (runRestore Sample.platform Sample.hostB
                                           Sample.world0))))
     = [("https://v2ex.com/", Some ".v2ex.com");
        ("http://www.v2ex.com/", None)].
Proof.
  assert (Hurl : d_url (buildCookieDetails cookie storeId)
                 = (if secure cookie then "https" else "http") ++ "://"
                   ++ Str.stripLeadingDot (domain cookie)
                   ++ (if String.eqb (path cookie) "" then "/"
                       else path cookie)).
  { unfold buildCookieDetails, Str.truthy. cbn [d_url].
    destruct (String.eqb (path cookie) ""); reflexivity. }
  assert (Hdom : d_domain (buildCookieDetails cookie storeId)
                 = (if flagSet (hostOnly cookie) then None
                    else Some (domain cookie))).
  { unfold buildCookieDetails. cbn [d_domain].
    destruct (flagSet (hostOnly cookie)); reflexivity. }
  split; [exact Hurl|]. split; [reflexivity|].
  split; [|split; [exact Hdom|split; [|split]]].
  - destruct (domain cookie) as [|a d]; [reflexivity|]. intros Hne.
    destruct a as [[] [] [] [] [] [] [] []]; try reflexivity.
    exfalso. apply (Hne d). reflexivity.
  - intros Hd Hh. rewrite Hdom, Hurl, Hh, Hd. split; reflexivity.
  - apply setAllCookies_log.
  - vm_compute. reflexivity.
Qed.

Lemma buildCookieDetails_target_witness :
  d_domain (buildCookieDetails
              (mkCookie "A2" "1" ".v2ex.com" "/" true true (Some false)
                        None None None None) None)
  = Some ".v2ex.com".
Proof.
  refine (proj1 (proj1 (proj2 (proj2 (proj2 (proj2
           (buildCookieDetails_target
              (mkCookie "A2" "1" ".v2ex.com" "/" true true (Some false)
                        None None None None)
              None "v2ex.com" Sample.hostB Sample.world0)))))
           eq_refl eq_refl)).
Defined.

(** C7 (the code at the failing input).  With no password configured,
    a restore that receives an envelope from the remote store does not
    fail: it replays no cookie and reports success with zero cookies.
    The guard that raises PasswordRequired inside the sealed branch can
    never fire, since that branch is entered only when a password is
    configured. *)
Theorem restore_without_password_ignores_envelope :
  fst (runRestore Sample.platform (Sample.restoring "" Sample.sealedC)
                  Sample.world0)
  = inr {| o_domain := "example.com"; o_cookies := 0 |}
  /\ cookieSets (log (snd (runRestore Sample.platform
                             (Sample.restoring "" Sample.sealedC)
                             Sample.world0))) = []
  /\ map req_url
         (requests (log (snd (runRestore Sample.platform
                                (Sample.restoring "" Sample.sealedC)
                                Sample.world0))))
     = ["http://localhost:8000/restore/example.com"]
  /\ (forall P password data w,
        fst (openRecord P (Str.truthy password) password data w)
        <> inl ErrPasswordRequired).
Proof.
  split; [vm_compute; reflexivity|].
  split; [vm_compute; reflexivity|].
  split; [vm_compute; reflexivity|].
  intros P password data w. unfold openRecord.
  destruct (Str.truthy password); cbn [negb].
  - destruct (decryptE2EPayload P (j_payload data) (j_salt data)
                (j_nonce data) password); cbn; discriminate.
  - cbn. discriminate.
Qed.

End EngineFacts.

(** * Further properties of the code *)

(** ** Strings *)

Module StrFacts.

Lemma startsWith_spec (s p : string) :
  Str.startsWith s p = true <-> exists rest, s = p ++ rest.
Proof.
  unfold Str.startsWith. revert s. induction p as [|a p IH]; intros s.
  - destruct s; simpl; split; eauto.
  - destruct s as [|b s]; simpl.
    + split; [discriminate | intros [rest H]; discriminate].
    + destruct (Ascii.ascii_dec a b) as [<-|Hne].
      * rewrite IH. split; intros [rest H]; exists rest.
        { rewrite H. reflexivity. }
        { injection H as H. exact H. }
      * split; [discriminate|]. intros [rest H]. injection H as H _.
        congruence.
Qed.

Lemma substring_all (s : string) :
  String.substring 0 (String.length s) s = s.
Proof. induction s as [|c s IH]; simpl; [reflexivity | rewrite IH; reflexivity]. Qed.

Lemma substring_skip (a b : string) :
  String.substring (String.length a) (String.length b) (a ++ b) = b.
Proof.
  induction a as [|c a IH]; simpl; [apply substring_all | exact IH].
Qed.

Lemma length_append (a b : string) :
  String.length (a ++ b) = String.length a + String.length b.
Proof. induction a as [|c a IH]; simpl; [reflexivity | rewrite IH; reflexivity]. Qed.

Lemma substring_cut (n : nat) (s : string) :
  n <= String.length s ->
  s = String.substring 0 n s ++ String.substring n (String.length s - n) s.
Proof.
  revert s. induction n as [|n IH]; intros s Hn.
  - rewrite Nat.sub_0_r, substring_all. destruct s; reflexivity.
  - destruct s as [|c s]; simpl in *; [lia|].
    rewrite <- IH by lia. reflexivity.
Qed.

Lemma endsWith_spec (s p : string) :
  Str.endsWith s p = true <-> exists front, s = front ++ p.
Proof.
  unfold Str.endsWith. split.
  - intros H. apply andb_prop in H as [Hlen Heq].
    apply Nat.leb_le in Hlen. apply String.eqb_eq in Heq.
    exists (String.substring 0 (String.length s - String.length p) s).
    pose proof (substring_cut (String.length s - String.length p) s) as H.
    replace (String.length s - (String.length s - String.length p))
      with (String.length p) in H by lia.
    rewrite Heq in H. apply H. lia.
  - intros [front ->]. rewrite length_append.
    replace (String.length front + String.length p - String.length p)
      with (String.length front) by lia.
    rewrite substring_skip, String.eqb_refl.
    destruct (Nat.leb_spec (String.length p)
                (String.length front + String.length p)); [reflexivity | lia].
Qed.

End StrFacts.

(** ** Resolver, continued *)

Module ResolverMore.
Import Resolver ResolverFacts StrFacts.

Lemma append_assoc' (a b c : string) : (a ++ b) ++ c = a ++ b ++ c.
Proof. induction a as [|x a IH]; simpl; [reflexivity | rewrite IH; reflexivity]. Qed.

Lemma join_app (sep : string) (a b : list string) :
  a <> [] -> b <> [] ->
  Str.join sep (a ++ b) = Str.join sep a ++ sep ++ Str.join sep b.
Proof.
  intros Ha Hb. unfold Str.join.
  induction a as [|x a IH]; [congruence|].
  destruct a as [|y a].
  - simpl. destruct b; [congruence | reflexivity].
  - change ((x :: y :: a) ++ b)%list with (x :: ((y :: a) ++ b))%list.
    cbn [String.concat app] in *.
    rewrite IH by discriminate.
    rewrite !append_assoc'. reflexivity.
Qed.

(** X1.  The root domain of a hostname has at most two labels, is a
    fixed point of the resolver, and is the hostname itself or what
    follows a dot in it. *)
Theorem rootOfHostname_shape (host : string) :
  length (Str.split "." (rootOfHostname host)) <= 2
  /\ rootOfHostname (rootOfHostname host) = rootOfHostname host
  /\ (rootOfHostname host = host
      \/ exists front, host = front ++ "." ++ rootOfHostname host).
Proof.
  destruct (join_split "." host) as [Hjoin Hall].
  pose proof (split_nonempty "." host) as Hne.
  assert (E : rootOfHostname host =
              if (2 <? length (Str.split "." host))%nat
              then Str.join "." (Str.slice_last 2 (Str.split "." host))
              else host) by reflexivity.
  destruct (Nat.ltb_spec 2 (length (Str.split "." host))) as [Hlong|Hshort];
    rewrite !E; clear E.
  - set (parts := Str.split "." host) in *.
    set (last2 := Str.slice_last 2 parts).
    assert (Hlen : length last2 = 2).
    { unfold last2, Str.slice_last. rewrite length_skipn. lia. }
    assert (Hparts : parts = (firstn (length parts - 2) parts ++ last2)%list).
    { unfold last2, Str.slice_last. symmetry. apply firstn_skipn. }
    assert (Hall2 : Forall (fun l => Str.lacks "." l = true) last2).
    { rewrite Hparts in Hall. apply Forall_app in Hall. tauto. }
    assert (Hne2 : last2 <> []).
    { intros E. rewrite E in Hlen. discriminate. }
    assert (Hsplit : Str.split "." (Str.join "." last2) = last2).
    { apply split_join; assumption. }
    split; [rewrite Hsplit; lia|]. split.
    + unfold rootOfHostname. rewrite Hsplit, Hlen. reflexivity.
    + right. exists (Str.join "." (firstn (length parts - 2) parts)).
      rewrite <- Hjoin at 1. fold parts. rewrite Hparts at 1.
      apply join_app; [|exact Hne2].
      intros E. apply (f_equal (@length string)) in E.
      rewrite length_firstn in E. simpl in E. lia.
  - split; [exact Hshort|]. split; [|left; reflexivity].
    unfold rootOfHostname.
    destruct (Nat.ltb_spec 2 (length (Str.split "." host))); [lia|reflexivity].
Qed.

(** X2.  A URL is restricted exactly when it starts with one of the
    three browser-internal schemes; the test is case-sensitive. *)
Theorem isRestrictedUrl_iff (url : string) :
  (isRestrictedUrl url = true <->
   exists rest, url = "chrome://" ++ rest
                \/ url = "chrome-extension://" ++ rest
                \/ url = "edge://" ++ rest)
  /\ isRestrictedUrl "Chrome://settings" = false.
Proof.
  split; [|reflexivity]. unfold isRestrictedUrl. split.
  - intros H. apply orb_prop in H as [H|H]; [apply orb_prop in H as [H|H]|];
      apply startsWith_spec in H as [rest H]; exists rest; tauto.
  - intros [rest [H|[H|H]]].
    + assert (E : Str.startsWith url "chrome://" = true)
        by (apply startsWith_spec; eauto).
      rewrite E. reflexivity.
    + assert (E : Str.startsWith url "chrome-extension://" = true)
        by (apply startsWith_spec; eauto).
      rewrite E. apply orb_true_iff. left. apply orb_true_r.
    + assert (E : Str.startsWith url "edge://" = true)
        by (apply startsWith_spec; eauto).
      rewrite E. apply orb_true_r.
Qed.

End ResolverMore.

(** ** Cookie functions, continued *)

Module CookieMore.
Import Cookies Spec CookieFacts StrFacts.

Lemma truthy_spec (s : string) : Str.truthy s = true <-> s <> "".
Proof.
  unfold Str.truthy. destruct (String.eqb_spec s ""); simpl; split;
    congruence.
Qed.

Lemma existsb_eqb_In (h : string) (l : list string) :
  existsb (String.eqb h) l = true <-> In h l.
Proof.
  rewrite existsb_exists. split.
  - intros (x & Hx & E). apply String.eqb_eq in E. subst. exact Hx.
  - intros H. exists h. split; [exact H | apply String.eqb_refl].
Qed.

Lemma setAdd_spec (hosts : list string) (h : string) :
  NoDup hosts ->
  NoDup (setAdd hosts h)
  /\ (exists tail, setAdd hosts h = (hosts ++ tail)%list)
  /\ (forall x, In x (setAdd hosts h) <-> In x hosts \/ x = h).
Proof.
  intros Hnd. unfold setAdd.
  destruct (existsb (String.eqb h) hosts) eqn:E.
  - apply existsb_eqb_In in E. split; [exact Hnd|]. split.
    + exists []. rewrite app_nil_r. reflexivity.
    + intros x. split; [tauto | intros [H| ->]; assumption].
  - assert (Hnot : ~ In h hosts).
    { intros H. apply existsb_eqb_In in H. congruence. }
    split; [|split].
    + apply NoDup_app; [exact Hnd | repeat constructor; intros [] |].
      intros x Hx [<-|[]]. exact (Hnot Hx).
    + exists [h]. reflexivity.
    + intros x. rewrite in_app_iff. simpl. split.
      * intros [H|[<-|[]]]; [left; exact H | right; reflexivity].
      * intros [H| ->]; [left; exact H | right; left; reflexivity].
Qed.

Lemma candidateStep_spec (acc : list string) (c : Cookie) :
  NoDup acc ->
  NoDup (candidateStep acc c)
  /\ (exists tail, candidateStep acc c = (acc ++ tail)%list)
  /\ (forall h, In h (candidateStep acc c) <->
                In h acc \/
                (Str.stripLeadingDot (domain c) = h /\ h <> "")).
Proof.
  intros Hnd. unfold candidateStep.
  assert (Hkeep : NoDup acc
                  /\ (exists tail, acc = (acc ++ tail)%list)
                  /\ (Str.stripLeadingDot (domain c) = "" ->
                      forall h, In h acc <->
                        In h acc \/
                        (Str.stripLeadingDot (domain c) = h /\ h <> ""))).
  { split; [exact Hnd|]. split; [exists []; rewrite app_nil_r; reflexivity|].
    intros E h. split; [tauto | intros [H|[H1 H2]]; [exact H | congruence]]. }
  destruct Hkeep as (K1 & K2 & K3).
  destruct (Str.truthy (domain c)) eqn:Hd; simpl.
  - destruct (Str.truthy (Str.stripLeadingDot (domain c))) eqn:Hs.
    + destruct (setAdd_spec acc (Str.stripLeadingDot (domain c)) Hnd)
        as (Hnd' & Htail & Hin).
      split; [exact Hnd'|]. split; [exact Htail|].
      intros h. rewrite Hin. apply truthy_spec in Hs. split.
      * intros [H| ->]; [left; exact H | right; split; [reflexivity|exact Hs]].
      * intros [H|[H _]]; [left; exact H | right; symmetry; exact H].
    + split; [exact K1|]. split; [exact K2|]. apply K3.
      destruct (String.eqb_spec (Str.stripLeadingDot (domain c)) "") as [E|E];
        [exact E|].
      apply truthy_spec in E. congruence.
  - split; [exact K1|]. split; [exact K2|]. apply K3.
    unfold Str.truthy in Hd.
    destruct (String.eqb_spec (domain c) "") as [E|E]; [|discriminate].
    rewrite E. reflexivity.
Qed.

Lemma candidateFold_spec (cookies : list Cookie) (acc : list string) :
  NoDup acc ->
  NoDup (fold_left candidateStep cookies acc)
  /\ (exists tail, fold_left candidateStep cookies acc = (acc ++ tail)%list)
  /\ (forall h, In h (fold_left candidateStep cookies acc) <->
                In h acc \/
                exists c, In c cookies /\
                          Str.stripLeadingDot (domain c) = h /\ h <> "").
Proof.
  revert acc. induction cookies as [|c cookies IH]; intros acc Hnd; simpl.
  - split; [exact Hnd|]. split; [exists []; rewrite app_nil_r; reflexivity|].
    intros h. split; [tauto | intros [H|(c & [] & _)]; exact H].
  - destruct (candidateStep_spec acc c Hnd) as (Hnd1 & (t1 & Ht1) & Hin1).
    destruct (IH _ Hnd1) as (Hnd2 & (t2 & Ht2) & Hin2).
    split; [exact Hnd2|]. split.
    { exists (t1 ++ t2)%list. rewrite Ht2, Ht1, app_assoc. reflexivity. }
    intros h. rewrite Hin2, Hin1. split.
    + intros [[H|H]|(c' & Hc' & E)].
      * left. exact H.
      * right. exists c. split; [left; reflexivity | exact H].
      * right. exists c'. split; [right; exact Hc' | exact E].
    + intros [H|(c' & [<-|Hc'] & E)].
      * left. left. exact H.
      * left. right. exact E.
      * right. exists c'. split; assumption.
Qed.

(** X3.  The candidate hosts start with the current hostname, hold no
    host twice, and are exactly the current hostname and the non-empty
    cookie domains with one leading dot removed. *)
Theorem collectCandidateHosts_spec (cookies : list Cookie) (cur : string) :
  NoDup (collectCandidateHosts cookies cur)
  /\ hd_error (collectCandidateHosts cookies cur) = Some cur
  /\ (forall h, In h (collectCandidateHosts cookies cur) <->
                h = cur \/
                exists c, In c cookies /\
                          Str.stripLeadingDot (domain c) = h /\ h <> "").
Proof.
  change (collectCandidateHosts cookies cur)
    with (fold_left candidateStep cookies [cur]).
  destruct (candidateFold_spec cookies [cur])
    as (Hnd & (tail & Ht) & Hin).
  { repeat constructor. intros []. }
  split; [exact Hnd|]. split; [rewrite Ht; reflexivity|].
  intros h. rewrite Hin. simpl. split.
  - intros [[H|[]]|H]; [left; symmetry; exact H | right; exact H].
  - intros [H|H]; [left; left; symmetry; exact H | right; exact H].
Qed.

(** X4.  The fallback filter keeps a cookie exactly when its domain,
    one leading dot removed, is non-empty and is the current hostname,
    the root domain, or something that ends with a dot followed by the
    root domain; a domain that merely ends with the letters of the root
    domain is dropped. *)
Theorem filterCookiesForDomain_spec (cookies : list Cookie)
  (rootDomain currentHostname : string) (c : Cookie) :
  (In c (filterCookiesForDomain cookies rootDomain currentHostname) <->
   In c cookies /\
   Str.stripLeadingDot (domain c) <> "" /\
   (Str.stripLeadingDot (domain c) = currentHostname
    \/ Str.stripLeadingDot (domain c) = rootDomain
    \/ exists front,
         Str.stripLeadingDot (domain c) = front ++ "." ++ rootDomain))
  /\ filterCookiesForDomain
       [Sample.cookie "s" "1" "notexample.com" true;
        Sample.cookie "t" "2" ".shop.example.com" false]
       "example.com" "app.example.com"
     = [Sample.cookie "t" "2" ".shop.example.com" false].
Proof.
  split; [|reflexivity].
  unfold filterCookiesForDomain. rewrite filter_In.
  assert (Hd : (if Str.truthy (domain c)
                then Str.stripLeadingDot (domain c) else "")
               = Str.stripLeadingDot (domain c)).
  { destruct (domain c); reflexivity. }
  cbv zeta. rewrite Hd.
  set (d := Str.stripLeadingDot (domain c)).
  split; intros [Hin H]; (split; [exact Hin|]).
  - destruct (Str.truthy d) eqn:Ht; [|discriminate].
    apply truthy_spec in Ht. split; [exact Ht|]. simpl in H.
    destruct (String.eqb_spec d currentHostname); [tauto|].
    destruct (String.eqb_spec d rootDomain); [tauto|]. simpl in H.
    apply endsWith_spec in H. tauto.
  - destruct H as [Hne H]. apply truthy_spec in Hne. rewrite Hne. simpl.
    destruct (String.eqb_spec d currentHostname); [reflexivity|].
    destruct (String.eqb_spec d rootDomain); [reflexivity|]. simpl.
    apply endsWith_spec. destruct H as [H|[H|H]]; [congruence..|exact H].
Qed.

Lemma firstPerKey_keys (l : list Cookie) (seen : list string) :
  NoDup (map cookieKey (firstPerKey seen l))
  /\ forall c, In c (firstPerKey seen l) -> ~ In (cookieKey c) seen.
Proof.
  revert seen. induction l as [|a l IH]; intros seen; simpl.
  - split; [constructor | intros c []].
  - destruct (Str.truthy (name a)); simpl; [|apply IH].
    destruct (existsb (fun k => String.eqb k (cookieKey a)) seen) eqn:E;
      [apply IH|].
    destruct (IH (seen ++ [cookieKey a])%list) as [Hnd Hfresh]. split.
    + simpl. constructor; [|exact Hnd].
      intros Hin. apply in_map_iff in Hin as (c & Hk & Hc).
      apply (Hfresh c Hc). rewrite in_app_iff. right. left. symmetry. exact Hk.
    + intros c [<-|Hc].
      * intros Hin. assert (existsb (fun k => String.eqb k (cookieKey a)) seen = true).
        { apply existsb_exists. exists (cookieKey a).
          split; [exact Hin | apply String.eqb_refl]. }
        congruence.
      * intros Hin. apply (Hfresh c Hc). rewrite in_app_iff. left. exact Hin.
Qed.

Lemma firstPerKey_fixed (l : list Cookie) (seen : list string) :
  Forall (fun c => Str.truthy (name c) = true) l ->
  NoDup (map cookieKey l) ->
  (forall c, In c l -> ~ In (cookieKey c) seen) ->
  firstPerKey seen l = l.
Proof.
  revert seen. induction l as [|a l IH]; intros seen Hnamed Hnd Hfresh;
    simpl; [reflexivity|].
  inversion Hnamed as [|? ? Ha Hl]; subst.
  inversion Hnd as [|? ? Hnotin Hnd']; subst.
  rewrite Ha. simpl.
  destruct (existsb (fun k => String.eqb k (cookieKey a)) seen) eqn:E.
  - exfalso. apply existsb_exists in E as (k & Hk & Ek).
    apply String.eqb_eq in Ek. subst k.
    exact (Hfresh a (or_introl eq_refl) Hk).
  - f_equal. apply IH; [exact Hl | exact Hnd' |].
    intros c Hc Hin. apply in_app_or in Hin as [Hin|[Hin|[]]].
    + exact (Hfresh c (or_intror Hc) Hin).
    + apply Hnotin. rewrite Hin. apply in_map. exact Hc.
Qed.

(** X5.  Whatever the input, the merged list holds no key twice,
    merging it again changes nothing, and it is never longer than the
    input. *)
Theorem mergeCookies_distinct_and_idempotent
  (cookieLists : list (list Cookie)) :
  NoDup (map cookieKey (mergeCookies cookieLists))
  /\ mergeCookies [mergeCookies cookieLists] = mergeCookies cookieLists
  /\ length (mergeCookies cookieLists) <= length (concat cookieLists).
Proof.
  rewrite !mergeCookies_firstPerKey.
  destruct (firstPerKey_keys (concat cookieLists) []) as [Hnd Hfresh].
  split; [exact Hnd|]. split.
  - simpl. rewrite app_nil_r. apply firstPerKey_fixed.
    + apply Forall_forall. intros c Hc.
      exact (proj2 (firstPerKey_incl _ _ _ Hc)).
    + exact Hnd.
    + intros c _ [].
  - clear Hnd Hfresh.
    generalize (@nil string). induction (concat cookieLists) as [|a l IH];
      intros seen; simpl; [lia|].
    destruct (negb (Str.truthy (name a))).
    + specialize (IH seen). lia.
    + destruct (existsb _ seen); simpl.
      * specialize (IH seen). lia.
      * specialize (IH (seen ++ [cookieKey a])%list). lia.
Qed.

End CookieMore.

(** ** The engine, continued *)

Module EngineMore.
Import Cookies Resolver Browser Engine Spec EngineFacts.

(** *** Open tabs *)

Lemma tidy_same {A : Type} (m : M A) :
  (forall w, open_tabs (snd (m w)) = open_tabs w /\
             next_tab (snd (m w)) = next_tab w) ->
  tidy m.
Proof.
  intros H w Hw. destruct (H w) as [Ho Hn]. split; [|exact Ho].
  unfold settled. rewrite Ho, Hn. exact Hw.
Qed.

Lemma tidy_ret {A : Type} (a : A) : tidy (ret a).
Proof. apply tidy_same. intros w. split; reflexivity. Qed.

Lemma tidy_throw {A : Type} (e : Error) : tidy (@throw A e).
Proof. apply tidy_same. intros w. split; reflexivity. Qed.

Lemma tidy_lift {A : Type} (r : Result A) : tidy (lift r).
Proof. apply tidy_same. intros w. split; reflexivity. Qed.

Lemma tidy_liftOption {A : Type} (what : string) (o : option A) :
  tidy (liftOption what o).
Proof. destruct o; [apply tidy_ret | apply tidy_throw]. Qed.

Lemma tidy_emit (e : Event) : tidy (emit e).
Proof. apply tidy_same. intros w. split; reflexivity. Qed.

Lemma tidy_bind {A B : Type} (m : M A) (k : A -> M B) :
  tidy m -> (forall a, tidy (k a)) -> tidy (bind m k).
Proof.
  intros Hm Hk w Hw. unfold bind. destruct (Hm w Hw) as [H1 H2].
  destruct (m w) as [[e|a] w1]; cbn [snd] in *; [split; assumption|].
  destruct (Hk a w1 H1) as [H3 H4]. split; [exact H3 | congruence].
Qed.

Lemma tidy_tryCatch {A : Type} (m : M A) (h : Error -> M A) :
  tidy m -> (forall e, tidy (h e)) -> tidy (tryCatch m h).
Proof.
  intros Hm Hh w Hw. unfold tryCatch. destruct (Hm w Hw) as [H1 H2].
  destruct (m w) as [[e|a] w1]; cbn [snd] in *; [|split; assumption].
  destruct (Hh e w1 H1) as [H3 H4]. split; [exact H3 | congruence].
Qed.

Ltac tidy_steps :=
  repeat first
    [ apply tidy_ret | apply tidy_throw | apply tidy_lift
    | apply tidy_liftOption | apply tidy_emit
    | apply tidy_bind; [|intros ?]
    | apply tidy_tryCatch; [|intros ?] ].

Lemma filter_fresh (id : nat) (l : list nat) :
  Forall (fun t => t < id) l ->
  filter (fun t => negb (Nat.eqb t id)) l = l.
Proof.
  induction 1 as [|t l Ht Hl IH]; simpl; [reflexivity|].
  destruct (Nat.eqb_spec t id); [lia|]. simpl. rewrite IH. reflexivity.
Qed.

Ltac tidy_path Hw :=
  cbn; rewrite ?Nat.eqb_refl; cbn; rewrite ?Nat.eqb_refl; cbn;
  repeat match goal with
         | H : obliging _ |- _ => rewrite (H _)
         end;
  cbn; rewrite ?Nat.eqb_refl; cbn;
  rewrite (filter_fresh _ _ Hw);
  split; [|reflexivity];
  unfold settled; cbn;
  eapply Forall_impl; [|exact Hw]; cbn; intros; lia.

Lemma tidy_readLocalStorageForUrl (P : Platform) (env : Env) (url : string) :
  obliging env -> tidy (readLocalStorageForUrl P env url).
Proof.
  intros Hremove w Hw. unfold settled in Hw. run_tab_call.
  destruct (env_tabs_create env (next_tab w) url) as [e|[]];
    [cbn; split; [exact Hw | reflexivity]|].
  destruct (env_tab_loaded env (next_tab w)); [|tidy_path Hw].
  destruct (env_tabs_get env (next_tab w)) as [e|currentUrl];
    [tidy_path Hw|].
  destruct (negb (Str.truthy currentUrl) || isRestrictedUrl currentUrl);
    [tidy_path Hw|].
  destruct (env_script_read env (next_tab w)); try solve [tidy_path Hw];
    destruct (URL_parse P currentUrl); tidy_path Hw.
Qed.

Lemma tidy_writeLocalStorageForUrl (env : Env) (target : string)
  (payload : Storage) :
  obliging env -> tidy (writeLocalStorageForUrl env target payload).
Proof.
  intros Hremove w Hw. unfold settled in Hw. run_tab_call.
  destruct (env_tabs_create env (next_tab w) target) as [e|[]];
    [cbn; split; [exact Hw | reflexivity]|].
  destruct (env_tab_loaded env (next_tab w)); [|tidy_path Hw].
  destruct (env_tabs_get env (next_tab w)) as [e|currentUrl];
    [tidy_path Hw|].
  destruct (negb (Str.truthy currentUrl) || isRestrictedUrl currentUrl);
    [tidy_path Hw|].
  destruct (env_script_write env (next_tab w) payload); tidy_path Hw.
Qed.

Lemma tidy_getRandomValues (env : Env) (n : nat) :
  tidy (getRandomValues env n).
Proof. apply tidy_same. intros w. split; reflexivity. Qed.

Lemma tidy_setAllCookies (env : Env) (details : list Details) :
  tidy (setAllCookies env details).
Proof.
  apply tidy_same. intros w. unfold setAllCookies.
  destruct (find _ details) as [d|]; [destruct (env_cookies_set env d)|];
    split; reflexivity.
Qed.

Create HintDb tidy.

#[local] Hint Resolve tidy_readLocalStorageForUrl tidy_writeLocalStorageForUrl
  tidy_getRandomValues tidy_setAllCookies : tidy.

Ltac tidy_auto :=
  repeat first
    [ solve [auto with tidy]
    | apply tidy_ret | apply tidy_throw | apply tidy_lift
    | apply tidy_liftOption | apply tidy_emit
    | apply tidy_bind; [|intros ?]
    | apply tidy_tryCatch; [|intros ?]
    | match goal with
      | |- tidy (if ?b then _ else _) => destruct b
      | |- tidy (match ?x with _ => _ end) => destruct x
      | |- tidy (let _ := _ in _) => cbv zeta
      end ].

Lemma tidy_cookiesGetAll (env : Env) (q : Query) : tidy (cookiesGetAll env q).
Proof. unfold cookiesGetAll. tidy_auto. Qed.

Lemma tidy_fetch (env : Env) (r : Request) : tidy (fetch env r).
Proof. unfold fetch. tidy_auto. Qed.

Lemma tidy_readLocalStorage (env : Env) (id : nat) :
  tidy (readLocalStorage env id).
Proof. unfold readLocalStorage. tidy_auto. Qed.

Lemma tidy_writeLocalStorage (env : Env) (id : nat) (payload : Storage) :
  tidy (writeLocalStorage env id payload).
Proof. unfold writeLocalStorage. tidy_auto. Qed.

#[local] Hint Resolve tidy_cookiesGetAll tidy_fetch tidy_readLocalStorage
  tidy_writeLocalStorage : tidy.

Lemma tidy_getCookieStoreIdForTab (env : Env) (id : nat) :
  tidy (getCookieStoreIdForTab env id).
Proof. unfold getCookieStoreIdForTab. tidy_auto. Qed.

Lemma tidy_requireTab (env : Env) (a : Action) : tidy (requireTab env a).
Proof. unfold requireTab, getActiveTab. tidy_auto. Qed.

#[local] Hint Resolve tidy_getCookieStoreIdForTab tidy_requireTab : tidy.

Lemma tidy_queryBuckets (env : Env) (sid : option string) (qs : list Query) :
  tidy (queryBuckets env sid qs).
Proof. induction qs as [|q qs IH]; simpl; tidy_auto. Qed.

#[local] Hint Resolve tidy_queryBuckets : tidy.

Lemma tidy_collectSession (P : Platform) (env : Env) :
  tidy (collectSession P env).
Proof.
  unfold collectSession, backupContext, collectCookies, guardCookieSize,
    getUserId, storageGet.
  tidy_auto.
Qed.

Lemma tidy_harvestLoop (P : Platform) (env : Env) (cur : string)
  (hosts : list string) (lsm : StorageMap) :
  obliging env -> tidy (harvestLoop P env cur hosts lsm).
Proof.
  intros Hremove. revert lsm. induction hosts as [|h hosts IH]; intros lsm; simpl;
    [apply tidy_ret|].
  apply tidy_bind; [|intros m; apply IH].
  unfold harvestHost. tidy_auto.
Qed.

Lemma tidy_submitBackup (P : Platform) (env : Env) (c : Context)
  (cookies : list Cookie) (lsm : StorageMap) :
  tidy (submitBackup P env c cookies lsm).
Proof.
  unfold submitBackup, getApiBase, getApiPassword, storageGet,
    encryptE2EPayload.
  tidy_auto.
Qed.

Lemma tidy_restoreOthers (env : Env) (lsm : StorageMap)
  (origins : list string) :
  obliging env -> tidy (restoreOthers env lsm origins).
Proof.
  intros Hremove. induction origins as [|o origins IH]; simpl; tidy_auto.
Qed.

#[local] Hint Resolve tidy_collectSession tidy_harvestLoop tidy_submitBackup
  tidy_restoreOthers : tidy.

(** X6.  On a browser that carries out every removal of a tab it is
    asked for, whatever else the host answers, a backup and a restore
    end with exactly the tabs open that were open when they started:
    every tab the harvester opened is closed again and no other tab is
    touched. *)
Theorem backup_and_restore_leave_tabs_as_found (P : Platform) (env : Env)
  (w : World) :
  obliging env ->
  settled w ->
  open_tabs (snd (runBackup P env w)) = open_tabs w
  /\ open_tabs (snd (runRestore P env w)) = open_tabs w
  /\ settled (snd (runBackup P env w))
  /\ settled (snd (runRestore P env w)).
Proof.
  intros Hremove Hw.
  assert (Hb : tidy (runBackup P env)).
  { unfold runBackup, harvestOthers. tidy_auto. }
  assert (Hr : tidy (runRestore P env)).
  { unfold runRestore, fetchRecord, openRecord, replayRecord, rejectRestore,
      getUserId, getApiBase, getApiPassword, storageGet.
    tidy_auto. }
  destruct (Hb w Hw) as [B1 B2]. destruct (Hr w Hw) as [R1 R2]. tauto.
Qed.

Lemma backup_and_restore_leave_tabs_as_found_witness :
  open_tabs (snd (runBackup Sample.platform Sample.hostC Sample.world0))
  = [1].
Proof.
  refine (proj1 (backup_and_restore_leave_tabs_as_found Sample.platform
                   Sample.hostC Sample.world0 _ _)).
  - intros id. reflexivity.
  - unfold settled. simpl. repeat constructor.
Defined.

(** *** Cookie queries *)

Lemma withStore_storeId (sid : option string) (q : Query) :
  q_storeId q = None -> q_storeId (withStore sid q) = keepTruthy sid.
Proof.
  intros H. unfold withStore. destruct (keepTruthy sid); [reflexivity|exact H].
Qed.

Lemma mergeCookies_incl (ls : list (list Cookie)) (c : Cookie) :
  In c (mergeCookies ls) -> In c (concat ls).
Proof.
  rewrite CookieFacts.mergeCookies_firstPerKey. intros H.
  exact (proj1 (CookieFacts.firstPerKey_incl _ _ _ H)).
Qed.

Ltac answer_queries :=
  repeat match goal with
         | |- context [env_cookies_getAll ?env ?q] =>
             let E := fresh "E" in
             destruct (env_cookies_getAll env q) eqn:E;
             cbn [fst snd log open_tabs next_tab rng_reads]
         end.

Ltac queries_done :=
  eexists; split;
  [ repeat rewrite <- app_assoc; reflexivity
  | cbn [getAlls app length]; split;
    [ repeat constructor; apply withStore_storeId; reflexivity
    | split; [lia|] ] ].

(** X7.  Collecting cookies asks the cookie store at most five times,
    every time scoped to the store of the tab when one was found.  When
    it succeeds it has asked four queries, in this order: the root
    domain as [domain], then the URL of the tab, the origin of the tab
    and the origin followed by a slash as [url]; and it has found a
    cookie, or it has found none and added one query of the whole
    store, of which it keeps only cookies that pass the domain
    filter. *)
Theorem collectCookies_queries (env : Env) (c : Context) (w : World) :
  let targeted :=
    map (withStore (c_storeId c))
        [ mkQuery (Some (c_rootDomain c)) None None;
          mkQuery None (Some (tab_url (c_tab c))) None;
          mkQuery None (Some (c_currentOrigin c)) None;
          mkQuery None (Some (c_currentOrigin c ++ "/")) None ] in
  exists delta,
    log (snd (collectCookies env c w)) = (log w ++ delta)%list
    /\ Forall (fun q => q_storeId q = keepTruthy (c_storeId c))
              (getAlls delta)
    /\ length (getAlls delta) <= 5
    /\ forall cookies,
         fst (collectCookies env c w) = inr cookies ->
         (getAlls delta = targeted /\ cookies <> [])
         \/ (exists allCookies,
               getAlls delta
               = (targeted
                  ++ [withStore (c_storeId c) (mkQuery None None None)])%list
               /\ env_cookies_getAll env
                    (withStore (c_storeId c) (mkQuery None None None))
                  = inr allCookies
               /\ incl cookies
                    (filterCookiesForDomain allCookies (c_rootDomain c)
                       (c_currentHostname c))).
Proof.
  cbv zeta.
  unfold collectCookies, cookieQueries, queryBuckets, cookiesGetAll, bind,
    emit, lift, ret.
  cbn [fst snd log open_tabs next_tab rng_reads].
  answer_queries; try solve [queries_done; intros ? ?; discriminate];
    match goal with
    | |- context [mergeCookies ?b] =>
        destruct (mergeCookies b) as [|k ks] eqn:Em
    end;
    cbn [length Nat.eqb fst snd log open_tabs next_tab rng_reads];
    queries_done; intros cookies H; try discriminate;
    injection H as <-.
  - left. split.
    + reflexivity.
    + discriminate.
  - right. eexists. split; [reflexivity|].
    split; [reflexivity|].
    intros x Hx. apply mergeCookies_incl in Hx.
    simpl in Hx. rewrite app_nil_r in Hx. exact Hx.
  - left. split; [reflexivity | discriminate].
Qed.

End EngineMore.

(** ** What the operations touch *)

Module Frames.
Import Cookies Resolver Browser Engine Spec Remote.

Lemma confined_same {A : Type} (allowed : Event -> bool) (m : M A) :
  (forall w, log (snd (m w)) = log w) -> confined allowed m.
Proof.
  intros H w. exists []. rewrite app_nil_r. split; [apply H | reflexivity].
Qed.

Lemma confined_ret {A : Type} (allowed : Event -> bool) (a : A) :
  confined allowed (ret a).
Proof. apply confined_same. reflexivity. Qed.

Lemma confined_throw {A : Type} (allowed : Event -> bool) (e : Error) :
  confined allowed (@throw A e).
Proof. apply confined_same. reflexivity. Qed.

Lemma confined_lift {A : Type} (allowed : Event -> bool) (r : Result A) :
  confined allowed (lift r).
Proof. apply confined_same. reflexivity. Qed.

Lemma confined_liftOption {A : Type} (allowed : Event -> bool)
  (what : string) (o : option A) :
  confined allowed (liftOption what o).
Proof. destruct o; [apply confined_ret | apply confined_throw]. Qed.

Lemma confined_emit (allowed : Event -> bool) (e : Event) :
  allowed e = true -> confined allowed (emit e).
Proof.
  intros H w. exists [e]. split; [reflexivity|]. simpl. rewrite H. reflexivity.
Qed.

Lemma confined_step {A : Type} (allowed : Event -> bool) (w w1 w2 : World) :
  (exists d, log w1 = (log w ++ d)%list /\ forallb allowed d = true) ->
  (exists d, log w2 = (log w1 ++ d)%list /\ forallb allowed d = true) ->
  exists d, log w2 = (log w ++ d)%list /\ forallb allowed d = true.
Proof.
  intros (d1 & L1 & A1) (d2 & L2 & A2). exists (d1 ++ d2)%list.
  rewrite L2, L1, <- app_assoc, forallb_app, A1, A2. split; reflexivity.
Qed.

Lemma confined_bind {A B : Type} (allowed : Event -> bool)
  (m : M A) (k : A -> M B) :
  confined allowed m -> (forall a, confined allowed (k a)) ->
  confined allowed (bind m k).
Proof.
  intros Hm Hk w. unfold bind. specialize (Hm w).
  destruct (m w) as [[e|a] w1]; cbn [snd] in *; [exact Hm|].
  exact (confined_step (A:=A) allowed w w1 _ Hm (Hk a w1)).
Qed.

Lemma confined_tryCatch {A : Type} (allowed : Event -> bool)
  (m : M A) (h : Error -> M A) :
  confined allowed m -> (forall e, confined allowed (h e)) ->
  confined allowed (tryCatch m h).
Proof.
  intros Hm Hh w. unfold tryCatch. specialize (Hm w).
  destruct (m w) as [[e|a] w1]; cbn [snd] in *; [|exact Hm].
  exact (confined_step (A:=A) allowed w w1 _ Hm (Hh e w1)).
Qed.

Lemma confined_tryFinally {A : Type} (allowed : Event -> bool)
  (m : M A) (c : M unit) :
  confined allowed m -> confined allowed c ->
  confined allowed (tryFinally m c).
Proof.
  intros Hm Hc w. unfold tryFinally. specialize (Hm w).
  destruct (m w) as [r w1]; cbn [snd] in *. specialize (Hc w1).
  destruct (c w1) as [[e|[]] w2]; cbn [snd] in *;
    exact (confined_step (A:=A) allowed w w1 w2 Hm Hc).
Qed.

Lemma confined_tabsCreate (allowed : Event -> bool) (env : Env)
  (url : string) :
  (forall r, allowed (EvTabsCreate url r) = true) ->
  confined allowed (tabsCreate env url).
Proof.
  intros H w. unfold tabsCreate.
  destruct (env_tabs_create env (next_tab w) url); cbn [snd log];
    eexists; (split; [reflexivity|]); simpl; rewrite H; reflexivity.
Qed.

Lemma confined_tabsRemove (allowed : Event -> bool) (env : Env) (id : nat) :
  allowed (EvTabsRemove id) = true ->
  confined allowed (tabsRemove env id).
Proof.
  intros H w. unfold tabsRemove.
  destruct (existsb (Nat.eqb id) (open_tabs w));
    [destruct (env_tabs_remove env id)|]; cbn [snd log];
    eexists; (split; [reflexivity|]); simpl; rewrite H; reflexivity.
Qed.

Lemma confined_getRandomValues (allowed : Event -> bool) (env : Env)
  (n : nat) :
  confined allowed (getRandomValues env n).
Proof. apply confined_same. reflexivity. Qed.

Lemma confined_setAllCookies (allowed : Event -> bool) (env : Env)
  (details : list Details) :
  (forall d, allowed (EvCookiesSet d) = true) ->
  confined allowed (setAllCookies env details).
Proof.
  intros H w. exists (map EvCookiesSet details). split.
  - unfold setAllCookies.
    destruct (find _ details) as [d|]; [destruct (env_cookies_set env d)|];
      reflexivity.
  - apply forallb_forall. intros e He. apply in_map_iff in He as (d & <- & _).
    apply H.
Qed.

(** Splits a goal [confined allowed m] along the structure of [m]. *)
Ltac confine :=
  repeat first
    [ apply confined_ret | apply confined_throw | apply confined_lift
    | apply confined_liftOption | apply confined_getRandomValues
    | apply confined_emit; reflexivity
    | apply confined_tabsCreate; intros ?; reflexivity
    | apply confined_tabsRemove; reflexivity
    | apply confined_setAllCookies; intros ?; reflexivity
    | apply confined_bind; [|intros ?]
    | apply confined_tryCatch; [|intros ?]
    | apply confined_tryFinally
    | match goal with
      | |- confined _ (if ?b then _ else _) => destruct b
      | |- confined _ (match ?x with _ => _ end) => destruct x
      | |- confined _ (let _ := _ in _) => cbv zeta
      end ].

Ltac unfold_engine :=
  unfold runBackup, harvestOthers, collectSession, backupContext,
    collectCookies, guardCookieSize, submitBackup, encryptE2EPayload,
    runRestore, fetchRecord, rejectRestore, openRecord, replayRecord,
    runCheck, requestDelete, fetchReply,
    harvestHost, readLocalStorageForUrl, writeLocalStorageForUrl,
    waitForTabLoad, tabsGet, readLocalStorage, writeLocalStorage,
    requireTab, getActiveTab, getCookieStoreIdForTab, getUserId, getApiBase,
    getApiPassword, storageGet, cookiesGetAll, fetch.

Lemma confined_queryBuckets (allowed : Event -> bool) (env : Env)
  (sid : option string) (qs : list Query) :
  (forall q, allowed (EvCookiesGetAll q) = true) ->
  confined allowed (queryBuckets env sid qs).
Proof.
  intros H. induction qs as [|q qs IH]; simpl; [apply confined_ret|].
  apply confined_bind.
  - unfold cookiesGetAll. apply confined_bind; [|intros; apply confined_lift].
    apply confined_emit, H.
  - intros r. apply confined_bind; [exact IH | intros; apply confined_ret].
Qed.

Lemma confined_harvestLoop (P : Platform) (env : Env) (cur : string)
  (hosts : list string) (lsm : StorageMap) :
  confined readOnly (harvestLoop P env cur hosts lsm).
Proof.
  revert lsm. induction hosts as [|h hosts IH]; intros lsm; simpl;
    [apply confined_ret|].
  apply confined_bind; [|intros m; apply IH].
  unfold_engine. confine.
Qed.

Lemma confined_restoreOthers (env : Env) (lsm : StorageMap)
  (origins : list string) :
  confined writeOnly (restoreOthers env lsm origins).
Proof.
  induction origins as [|o origins IH]; simpl; [apply confined_ret|].
  apply confined_bind; [|intros; exact IH].
  unfold_engine. confine.
Qed.

(** X8.  A backup only reads the browser session: it never sets a
    cookie, never writes storage and never reloads a tab.  A restore
    only writes it: it never queries cookies and never reads storage.
    Delete and status do nothing but talk to the remote store. *)
Theorem operations_stay_in_their_lane (P : Platform) (env : Env)
  (remote : Request -> option Reply) :
  confined readOnly (runBackup P env)
  /\ confined writeOnly (runRestore P env)
  /\ confined isFetch (runCheck P env remote)
  /\ confined isFetch (requestDelete P env remote)
  /\ (forall w, snd (runDelete P env remote w)
                = snd (requestDelete P env remote w)).
Proof.
  split; [|split; [|split; [|split]]].
  - unfold runBackup, harvestOthers.
    apply confined_bind; [|intros s; apply confined_bind;
                                     [apply confined_harvestLoop|intros lsm]].
    + unfold_engine.
      apply confined_bind; [confine|intros c].
      apply confined_bind; [|intros cookies; confine].
      apply confined_bind; [apply confined_queryBuckets; reflexivity|].
      intros buckets. confine.
    + unfold_engine. confine.
  - unfold runRestore, replayRecord.
    apply confined_bind; [unfold_engine; confine | intros f].
    apply confined_bind; [unfold_engine; confine | intros record].
    cbv zeta.
    apply confined_bind; [unfold_engine; confine | intros sid].
    apply confined_bind; [confine | intros _].
    apply confined_bind; [confine | intros u].
    apply confined_bind; [unfold_engine; confine | intros _].
    apply confined_bind; [apply confined_restoreOthers | intros _].
    confine.
  - unfold_engine. confine.
  - unfold_engine. confine.
  - intros w. unfold runDelete.
    destruct (requestDelete P env remote w) as [[e|[root reply]] w'];
      [reflexivity|].
    destruct (negb (reply_ok reply)); [reflexivity|].
    destruct (reply_json reply); reflexivity.
Qed.

End Frames.

(** ** Guards, delete and status *)

Module RemoteFacts.
Import Cookies Resolver Browser Engine Spec Remote.

Lemma bind_inr {A B : Type} (m : M A) (k : A -> M B) (w w' : World) (a : A) :
  m w = (inr a, w') -> bind m k w = k a w'.
Proof. intros H. unfold bind. rewrite H. reflexivity. Qed.

Lemma bind_inl {A B : Type} (m : M A) (k : A -> M B) (w w' : World)
  (e : Error) :
  m w = (inl e, w') -> bind m k w = (inl e, w').
Proof. intros H. unfold bind. rewrite H. reflexivity. Qed.

Lemma requireTab_refuses (env : Env) (tabs : list Tab) (a : Action)
  (w : World) :
  env_tabs_query env = inr tabs -> pageless tabs ->
  requireTab env a w = (inl (refusal tabs a), w).
Proof.
  intros Hq Hp. unfold requireTab, getActiveTab, bind, lift, ret, throw,
    refusal, pageless in *.
  rewrite Hq. destruct (hd_error tabs) as [tab|]; [|reflexivity].
  destruct (Str.truthy (tab_url tab)); simpl in *; [|reflexivity].
  rewrite Hp. reflexivity.
Qed.

(** X9.  Without an active tab, or on a tab without URL, every
    operation fails with NoActiveTab; on a browser-internal page every
    operation fails with UnsupportedPage for its own action.  In both
    cases nothing has been asked of the browser or of the remote
    store. *)
Theorem operations_refuse_without_a_page (P : Platform) (env : Env)
  (remote : Request -> option Reply) (tabs : list Tab) (w : World) :
  env_tabs_query env = inr tabs -> pageless tabs ->
  runBackup P env w = (inl (refusal tabs ActBackup), w)
  /\ runRestore P env w = (inl (refusal tabs ActRestore), w)
  /\ runDelete P env remote w = (inl (Thrown (refusal tabs ActDelete)), w)
  /\ runCheck P env remote w = (inl (refusal tabs ActStatus), w)
  /\ (tabs = [] -> refusal tabs ActBackup = ErrNoActiveTab)
  /\ (forall tab others, tabs = tab :: others ->
        Str.truthy (tab_url tab) = true ->
        refusal tabs ActRestore = ErrUnsupportedPage ActRestore).
Proof.
  intros Hq Hp.
  split; [|split; [|split; [|split; [|split]]]].
  - unfold runBackup, collectSession, backupContext.
    repeat (erewrite bind_inl; [reflexivity|]).
    apply requireTab_refuses; assumption.
  - unfold runRestore, fetchRecord.
    repeat (erewrite bind_inl; [reflexivity|]).
    apply requireTab_refuses; assumption.
  - unfold runDelete, requestDelete.
    erewrite bind_inl; [reflexivity|].
    apply requireTab_refuses; assumption.
  - unfold runCheck.
    erewrite bind_inl; [reflexivity|].
    apply requireTab_refuses; assumption.
  - intros ->. reflexivity.
  - intros tab others -> Ht. unfold refusal. simpl. rewrite Ht. reflexivity.
Qed.

Lemma operations_refuse_without_a_page_witness :
  runRestore Sample.platform (onPage "chrome://extensions" Sample.hostC)
             Sample.world0
  = (inl (ErrUnsupportedPage ActRestore), Sample.world0).
Proof.
  exact (proj1 (proj2 (operations_refuse_without_a_page Sample.platform
                         (onPage "chrome://extensions" Sample.hostC)
                         reachable [mkTab 1 "chrome://extensions"]
                         Sample.world0 eq_refl eq_refl))).
Defined.

(** *** The start of every operation *)

Section Started.

Variables (P : Platform) (env : Env) (tab : Tab) (u : URL).
Variables (userId apiBase password : string).
Hypothesis R : Ready P env tab u userId apiBase password.

Lemma requireTab_ready (a : Action) (w : World) :
  requireTab env a w = (inr tab, w).
Proof.
  destruct (ready_tab _ _ _ _ _ _ _ R) as [others Hq].
  unfold requireTab, getActiveTab, bind, lift, ret. rewrite Hq. simpl.
  rewrite (ready_url _ _ _ _ _ _ _ R), (ready_page _ _ _ _ _ _ _ R).
  reflexivity.
Qed.

Lemma root_ready (w : World) :
  liftOption "URL" (getRootDomain (URL_parse P) (tab_url tab)) w
  = (inr (rootOf u), w).
Proof.
  unfold getRootDomain. rewrite (ready_parse _ _ _ _ _ _ _ R). reflexivity.
Qed.

Lemma parse_ready (w : World) :
  liftOption "URL" (URL_parse P (tab_url tab)) w = (inr u, w).
Proof. rewrite (ready_parse _ _ _ _ _ _ _ R). reflexivity. Qed.

Lemma getUserId_ready (w : World) : getUserId env w = (inr userId, w).
Proof.
  unfold getUserId, storageGet, lift.
  rewrite (ready_user _ _ _ _ _ _ _ R). reflexivity.
Qed.

Lemma getApiBase_ready (w : World) :
  getApiBase env w = (inr (baseOf apiBase), w).
Proof.
  unfold getApiBase, storageGet, lift, bind, ret.
  rewrite (ready_base _ _ _ _ _ _ _ R). reflexivity.
Qed.

Lemma getApiPassword_ready (w : World) :
  getApiPassword env w = (inr password, w).
Proof.
  unfold getApiPassword, storageGet, lift.
  rewrite (ready_password _ _ _ _ _ _ _ R). reflexivity.
Qed.

End Started.

(** Runs the steps of an operation that [Ready] decides. *)
Ltac start R :=
  repeat first
    [ rewrite (bind_inr _ _ _ _ _ (requireTab_ready _ _ _ _ _ _ _ R _ _))
    | rewrite (bind_inr _ _ _ _ _ (root_ready _ _ _ _ _ _ _ R _))
    | rewrite (bind_inr _ _ _ _ _ (parse_ready _ _ _ _ _ _ _ R _))
    | rewrite (bind_inr _ _ _ _ _ (getUserId_ready _ _ _ _ _ _ _ R _))
    | rewrite (bind_inr _ _ _ _ _ (getApiBase_ready _ _ _ _ _ _ _ R _))
    | rewrite (bind_inr _ _ _ _ _ (getApiPassword_ready _ _ _ _ _ _ _ R _)) ];
  cbv beta.

(** X10.  When no user id is stored, backup, restore, delete and status
    all fail with MissingIdentity before anything is asked of the
    cookie store, of a tab or of the remote store. *)
Theorem operations_require_identity (P : Platform) (env : Env)
  (remote : Request -> option Reply) (tab : Tab) (u : URL)
  (apiBase password : string) (w : World) :
  Ready P env tab u "" apiBase password ->
  runBackup P env w = (inl ErrUserIdMissing, w)
  /\ runRestore P env w = (inl ErrUserIdMissing, w)
  /\ runDelete P env remote w = (inl (Thrown ErrUserIdMissing), w)
  /\ runCheck P env remote w = (inl ErrUserIdMissing, w).
Proof.
  intros R. split; [|split; [|split]].
  - unfold runBackup, collectSession, backupContext.
    erewrite bind_inl; [reflexivity|]. erewrite bind_inl; [reflexivity|].
    start R. start R. start R. reflexivity.
  - unfold runRestore, fetchRecord.
    erewrite bind_inl; [reflexivity|].
    start R. start R. start R. reflexivity.
  - unfold runDelete, requestDelete.
    start R. start R. start R. reflexivity.
  - unfold runCheck.
    start R. start R. start R. reflexivity.
Qed.

Lemma ready_sample (e : Env) (userId password : string) :
  env_tabs_query e = inr [mkTab 1 Sample.activeUrl] ->
  env_storage_get e USER_ID_KEY = inr userId ->
  env_storage_get e API_BASE_KEY = inr "" ->
  env_storage_get e API_PASSWORD_KEY = inr password ->
  Ready Sample.platform e (mkTab 1 Sample.activeUrl)
        (mkURL "app.example.com" "https://app.example.com")
        userId "" password.
Proof.
  intros Hq Hu Hb Hp. constructor; try assumption; try reflexivity.
  exists []. exact Hq.
Qed.

Lemma operations_require_identity_witness :
  runBackup Sample.platform (anonymous Sample.hostC) Sample.world0
  = (inl ErrUserIdMissing, Sample.world0).
Proof.
  refine (proj1 (operations_require_identity Sample.platform
                   (anonymous Sample.hostC) reachable
                   (mkTab 1 Sample.activeUrl)
                   (mkURL "app.example.com" "https://app.example.com")
                   "" "" Sample.world0 _)).
  apply ready_sample; reflexivity.
Defined.

(** *** Delete and status *)

Lemma fetchReply_run (remote : Request -> option Reply) (r : Request)
  (w : World) :
  fetchReply remote r w
  = (match remote r with
     | Some reply => inr reply
     | None => inl ErrFetch
     end, after w [EvFetch r]).
Proof.
  unfold fetchReply, bind, emit, ret, throw, after.
  destruct (remote r); reflexivity.
Qed.

(** X11.  A delete sends exactly one request: DELETE, for the root
    domain of the active tab, on the sealed endpoint exactly when a
    password is configured, with the user id as header.  A response
    that is not ok fails with its status and a rejected fetch fails.
    An ok response reports what its body says of [deleted]; an
    unreadable body counts as nothing deleted, and the body [null]
    makes the delete fail with a [TypeError]. *)
Theorem delete_sends_one_request (P : Platform) (env : Env)
  (remote : Request -> option Reply) (tab : Tab) (u : URL)
  (userId apiBase password : string) (w : World) :
  Ready P env tab u userId apiBase password ->
  Str.truthy userId = true ->
  runDelete P env remote w =
  (match remote (deleteRequest P u userId apiBase password) with
   | None => inl (Thrown ErrFetch)
   | Some reply =>
       if reply_ok reply
       then match reply_json reply with
            | BodyUnreadable =>
                inr {| del_domain := rootOf u; del_deleted := false |}
            | BodyNull => inl (Thrown (ErrBuiltin "TypeError"))
            | BodyValue data =>
                inr {| del_domain := rootOf u;
                       del_deleted := sj_deleted data |}
            end
       else inl (DeleteFailed (reply_status reply))
   end,
   after w [EvFetch (deleteRequest P u userId apiBase password)]).
Proof.
  intros R Hu. unfold runDelete, requestDelete.
  start R. start R. start R. rewrite Hu. cbn [negb].
  start R. start R. cbv zeta.
  unfold fetchReply, bind, emit, ret, throw, after, deleteRequest, endpoint.
  cbn [open_tabs next_tab rng_reads log].
  destruct (Str.truthy password);
    match goal with
    | |- context [remote ?r] => destruct (remote r) as [reply|]
    end; try reflexivity;
    destruct (reply_ok reply); try reflexivity;
    cbn [negb]; destruct (reply_json reply); reflexivity.
Qed.

Lemma delete_sends_one_request_witness :
  fst (runDelete Sample.platform Sample.hostC reachable Sample.world0)
  = inr {| del_domain := "example.com"; del_deleted := true |}.
Proof.
  rewrite (delete_sends_one_request Sample.platform Sample.hostC reachable
             (mkTab 1 Sample.activeUrl)
             (mkURL "app.example.com" "https://app.example.com")
             "u-1" "" "" Sample.world0
             (ready_sample Sample.hostC "u-1" "" eq_refl eq_refl eq_refl
                eq_refl)
             eq_refl).
  reflexivity.
Defined.

(** X12.  Once it has started, a status check never fails, whatever
    the remote store does, also when the body is unreadable or [null].  It reports the backend as reachable exactly
    when the probe of the base URL answered ok; when it did not, no
    status request is sent and no backup is reported; a backup is
    reported only when the status request answered ok with a body that
    says it exists. *)
Theorem check_never_fails (P : Platform) (env : Env)
  (remote : Request -> option Reply) (tab : Tab) (u : URL)
  (userId apiBase password : string) (w : World) :
  Ready P env tab u userId apiBase password ->
  Str.truthy userId = true ->
  exists s delta,
    runCheck P env remote w = (inr s, after w delta)
    /\ st_domain s = rootOf u
    /\ st_backendOk s
       = match remote (probeRequest apiBase) with
         | Some reply => reply_ok reply
         | None => false
         end
    /\ st_hasBackup s
       = (st_backendOk s
          && match remote (statusRequest P u userId apiBase password) with
             | Some reply =>
                 reply_ok reply
                 && match reply_json reply with
                    | BodyValue data => sj_exists data
                    | BodyUnreadable | BodyNull => false
                    end
             | None => false
             end)
    /\ delta
       = (if st_backendOk s
          then [EvFetch (probeRequest apiBase);
                EvFetch (statusRequest P u userId apiBase password)]
          else [EvFetch (probeRequest apiBase)])
    /\ (st_backendOk s = false -> st_updatedAt s = None).
Proof.
  intros R Hu. unfold runCheck.
  start R. start R. start R. rewrite Hu. cbn [negb].
  start R. cbv zeta.
  unfold probeRequest, statusRequest, endpoint.
  set (probe := mkRequest "GET" (baseOf apiBase ++ "/") [] None).
  set (okb := match remote probe with
              | Some reply => reply_ok reply
              | None => false
              end).
  assert (Hprobe :
            tryCatch
              (bind (fetchReply remote probe)
                    (fun response => ret (reply_ok response)))
              (fun _ => ret false) w
            = (inr okb, after w [EvFetch probe])).
  { unfold tryCatch, bind. rewrite fetchReply_run. unfold okb.
    destruct (remote probe); reflexivity. }
  rewrite (bind_inr _ _ _ _ _ Hprobe). cbv beta.
  start R.
  destruct okb; cbn [negb].
  2:{ eexists _, _. split; [reflexivity|]. repeat split. }
  set (status := mkRequest "GET"
                   (baseOf apiBase
                    ++ (if Str.truthy password then E2E_PREFIX ++ "/status"
                        else "/status")
                    ++ "/" ++ encodeURIComponent P (rootOf u))
                   [("X-USK-User", userId)] None).
  unfold tryCatch, bind. rewrite fetchReply_run.
  assert (Hafter : after (after w [EvFetch probe]) [EvFetch status]
                   = after w [EvFetch probe; EvFetch status]).
  { unfold after. cbn [open_tabs next_tab rng_reads log].
    rewrite <- app_assoc. reflexivity. }
  rewrite Hafter.
  destruct (remote status) as [reply|];
    [destruct (reply_ok reply); cbn [negb];
     [destruct (reply_json reply) as [| |data] |] |];
    eexists _, _; (split; [reflexivity|]); repeat split;
    intros; discriminate.
Qed.

Lemma check_never_fails_witness :
  exists s delta,
    runCheck Sample.platform Sample.hostC unreachable Sample.world0
    = (inr s, after Sample.world0 delta)
    /\ st_backendOk s = false.
Proof.
  destruct (check_never_fails Sample.platform Sample.hostC unreachable
              (mkTab 1 Sample.activeUrl)
              (mkURL "app.example.com" "https://app.example.com")
              "u-1" "" "" Sample.world0
              (ready_sample Sample.hostC "u-1" "" eq_refl eq_refl eq_refl
                 eq_refl)
              eq_refl)
    as (s & delta & Hrun & _ & Hok & _).
  exists s, delta. split; [exact Hrun | exact Hok].
Defined.

End RemoteFacts.

(** ** Restore and submission, continued *)

Module TransferFacts.
Import Cookies Resolver Browser Engine Spec Remote.
Import EngineFacts RemoteFacts Frames.

Lemma fetch_run (env : Env) (r : Request) (w : World) :
  fetch env r w
  = (match env_fetch env r with
     | Some response => inr response
     | None => inl ErrFetch
     end, after w [EvFetch r]).
Proof.
  unfold fetch, bind, emit, ret, throw, after.
  destruct (env_fetch env r); reflexivity.
Qed.

Ltac verdict_iff :=
  split;
  [ intros ?; try discriminate; repeat split; try assumption; reflexivity
  | intros (? & ? & ?); try discriminate; try congruence; try reflexivity ].

Ltac verdict :=
  eexists; split; [reflexivity|];
  split; [verdict_iff|];
  split; [verdict_iff|];
  first [ left; reflexivity | right; left; reflexivity
        | right; right; reflexivity ].

(** The verdict on a response that is not ok. *)
Lemma rejectRestore_verdict (useE2E : bool) (response : Response)
  (w : World) :
  exists e,
    rejectRestore useE2E response w = (inl e, w)
    /\ (e = ErrPasswordRequired <->
        useE2E = false /\ resp_status response = 401%Z /\
        detailOf response = Some "Password required")
    /\ (e = ErrInvalidPassword <->
        useE2E = false /\ resp_status response = 401%Z /\
        detailOf response = Some "Invalid password")
    /\ (e = ErrPasswordRequired \/ e = ErrInvalidPassword \/
        e = ErrRestoreFailed (resp_status response)).
Proof.
  unfold rejectRestore, detailOf, bind, ret, throw.
  destruct useE2E; cbn [negb andb]; [verdict|].
  destruct (Z.eqb_spec (resp_status response) 401) as [Hs|Hs]; [|verdict].
  destruct (resp_json response) as [data|]; [|verdict].
  destruct (j_detail data) as [d|]; [|verdict].
  destruct (String.eqb_spec d "Password required") as [->|Hd1]; [verdict|].
  destruct (String.eqb_spec d "Invalid password") as [->|Hd2]; verdict.
Qed.

(** X13.  A restore whose request is answered with a status that is
    not ok fails having done nothing but send that one request: no
    cookie is set, no storage written, no tab reloaded.  The error is
    PasswordRequired or InvalidPassword exactly when no password is
    configured, the status is 401 and the body carries that detail;
    otherwise it is the restore failure with the status.  With a
    password configured a 401 is never reported as a password error. *)
Theorem restore_rejected_before_replay (P : Platform) (env : Env)
  (tab : Tab) (u : URL) (userId apiBase password : string)
  (response : Response) (w : World) :
  Ready P env tab u userId apiBase password ->
  Str.truthy userId = true ->
  env_fetch env (restoreRequest P u userId apiBase password)
    = Some response ->
  resp_ok response = false ->
  exists e,
    runRestore P env w
    = (inl e, after w [EvFetch (restoreRequest P u userId apiBase password)])
    /\ (e = ErrPasswordRequired <->
        Str.truthy password = false /\ resp_status response = 401%Z /\
        detailOf response = Some "Password required")
    /\ (e = ErrInvalidPassword <->
        Str.truthy password = false /\ resp_status response = 401%Z /\
        detailOf response = Some "Invalid password")
    /\ (e = ErrPasswordRequired \/ e = ErrInvalidPassword \/
        e = ErrRestoreFailed (resp_status response)).
Proof.
  intros R Hu Hf Hok.
  destruct (rejectRestore_verdict (Str.truthy password) response
              (after w [EvFetch (restoreRequest P u userId apiBase password)]))
    as (e & He & H1 & H2 & H3).
  exists e. split; [|tauto].
  unfold runRestore, fetchRecord.
  erewrite bind_inl; [reflexivity|].
  start R. start R. start R. rewrite Hu. cbn [negb].
  start R. start R. cbv zeta.
  unfold restoreRequest, endpoint in *.
  assert (Hassoc : forall a b c d : string,
             (a ++ b ++ c ++ d = a ++ (b ++ c ++ d))%string)
    by reflexivity.
  destruct (Str.truthy password);
    (erewrite bind_inr; [|rewrite fetch_run, Hf; reflexivity]);
    rewrite Hok; cbn [negb];
    (erewrite bind_inl; [reflexivity | exact He]).
Qed.

Lemma restore_rejected_before_replay_witness :
  runRestore Sample.platform (denied "" "Password required") Sample.world0
  = (inl ErrPasswordRequired,
     after Sample.world0
       [EvFetch (mkRequest "GET" "http://localhost:8000/restore/example.com"
                           [("X-USK-User", "u-1")] None)]).
Proof.
  destruct (restore_rejected_before_replay Sample.platform
              (denied "" "Password required")
              (mkTab 1 Sample.activeUrl)
              (mkURL "app.example.com" "https://app.example.com")
              "u-1" "" ""
              (mkResponse false 401
                 (Some (mkJson (Some "Password required") None None None
                               None None)))
              Sample.world0
              (ready_sample (denied "" "Password required") "u-1" ""
                 eq_refl eq_refl eq_refl eq_refl)
              eq_refl eq_refl eq_refl)
    as (e & Hrun & Hreq & _).
  assert (e = ErrPasswordRequired) as ->.
  { apply Hreq. repeat split. }
  exact Hrun.
Defined.

(** *** Replay *)

Lemma getCookieStoreIdForTab_total (env : Env) (id : nat) (w : World) :
  exists sid, getCookieStoreIdForTab env id w = (inr sid, w).
Proof.
  unfold getCookieStoreIdForTab, tryCatch, bind, lift, ret.
  destruct (env_cookie_stores env); eexists; reflexivity.
Qed.

Lemma setAllCookies_run (env : Env) (details : list Details) (w : World) :
  snd (setAllCookies env details w) = after w (map EvCookiesSet details)
  /\ ((exists d e, In d details /\ env_cookies_set env d = inl e) ->
      exists e, fst (setAllCookies env details w) = inl e)
  /\ ((forall d, In d details -> env_cookies_set env d = inr tt) ->
      fst (setAllCookies env details w) = inr tt).
Proof.
  unfold setAllCookies, after.
  destruct (find _ details) as [d|] eqn:F.
  - apply find_some in F as [Hin Hd].
    destruct (env_cookies_set env d) as [e|[]] eqn:E; [|discriminate].
    cbn [fst snd]. split; [reflexivity|]. split.
    + intros _. exists e. reflexivity.
    + intros H. rewrite (H d Hin) in E. discriminate.
  - cbn [fst snd]. split; [reflexivity|]. split; [|reflexivity].
    intros (d & e & Hin & E). apply (find_none _ _ F) in Hin.
    rewrite E in Hin. discriminate.
Qed.

Lemma confined_restoreOthers_other (env : Env) (lsm : StorageMap)
  (origins : list string) :
  confined notCookieSet (restoreOthers env lsm origins).
Proof.
  induction origins as [|o origins IH]; simpl; [apply confined_ret|].
  apply confined_bind; [|intros; exact IH].
  unfold_engine. confine.
Qed.

(** X14.  Replaying a record calls [chrome.cookies.set] once for every
    cookie of the record, in order, with the details built by
    [buildCookieDetails] for the cookie store of the tab, before
    anything else and even when a call is refused; no other cookie is
    ever set.  When a call is refused the restore fails without writing
    any storage and without reloading the tab. *)
Theorem restore_replays_every_cookie (P : Platform) (env : Env)
  (f : Fetched) (cookies : list Cookie) (lsm : StorageMap) (w : World) :
  exists sid rest,
    getCookieStoreIdForTab env (tab_id (f_tab f)) w = (inr sid, w)
    /\ log (snd (replayRecord P env f cookies lsm w))
       = (log w
          ++ map EvCookiesSet
               (map (fun c => buildCookieDetails c sid) cookies)
          ++ rest)%list
    /\ cookieSets rest = []
    /\ ((exists c e, In c cookies /\
                     env_cookies_set env (buildCookieDetails c sid) = inl e) ->
        rest = [] /\
        exists e, fst (replayRecord P env f cookies lsm w) = inl e).
Proof.
  destruct (getCookieStoreIdForTab_total env (tab_id (f_tab f)) w)
    as [sid Hsid].
  set (details := map (fun c => buildCookieDetails c sid) cookies).
  destruct (setAllCookies_run env details w) as (Hw & Hfail & _).
  unfold replayRecord. cbv zeta. rewrite (bind_inr _ _ _ _ _ Hsid).
  fold details.
  destruct (setAllCookies env details w) as [[e|[]] w1] eqn:Hset;
    cbn [fst snd] in *; subst w1.
  - exists sid, []. split; [exact Hsid|].
    rewrite (bind_inl _ _ _ _ _ Hset). cbn [snd after log].
    rewrite app_nil_r. repeat split. exists e. reflexivity.
  - rewrite (bind_inr _ _ _ _ _ Hset).
    match goal with
    | |- context [snd (?m (after w ?evs))] =>
        assert (Hc : confined notCookieSet m)
    end.
    { apply confined_bind; [confine | intros u].
      apply confined_bind; [unfold_engine; confine | intros _].
      apply confined_bind; [apply confined_restoreOthers_other | intros _].
      confine. }
    destruct (Hc (after w (map EvCookiesSet details))) as (rest & Hlog & Hall).
    exists sid, rest. split; [exact Hsid|]. split.
    { rewrite Hlog. cbn [after log]. rewrite app_assoc. reflexivity. }
    split.
    { clear - Hall. induction rest as [|ev rest IH]; [reflexivity|].
      simpl in Hall. apply andb_prop in Hall as [H1 H2].
      destruct ev; try discriminate; simpl; exact (IH H2). }
    intros (c & e & Hin & He). exfalso.
    destruct Hfail as [e' He'].
    { exists (buildCookieDetails c sid), e. split; [|exact He].
      unfold details. apply in_map_iff. exists c. split; [reflexivity|exact Hin]. }
    discriminate.
Qed.

Lemma restore_replays_every_cookie_witness :
  exists e,
    fst (replayRecord Sample.platform (picky Sample.hostB)
           (mkFetched (mkTab 1 Sample.activeUrl) "example.com" "" 
                      (mkJson None None None None None None))
           Sample.cookiesB [] Sample.world0) = inl e.
Proof.
  destruct (restore_replays_every_cookie Sample.platform
              (picky Sample.hostB)
              (mkFetched (mkTab 1 Sample.activeUrl) "example.com" ""
                         (mkJson None None None None None None))
              Sample.cookiesB [] Sample.world0)
    as (sid & rest & Hsid & _ & _ & Hfail).
  assert (sid = Some "0") as ->.
  { vm_compute in Hsid. injection Hsid as <-. reflexivity. }
  apply Hfail.
  exists (mkCookie "PB3" "2" "www.v2ex.com" "/" false false (Some true)
                   None None None None),
         (ErrLastError "Failed to parse or set cookie").
  split; [right; left; reflexivity | reflexivity].
Defined.

(** *** Writing the other origins *)

Lemma tabsAsked_app (a b : list Event) :
  tabsAsked (a ++ b) = (tabsAsked a ++ tabsAsked b)%list.
Proof.
  induction a as [|e a IH]; simpl; [reflexivity|].
  destruct e; try exact IH. simpl. rewrite IH. reflexivity.
Qed.

Ltac asked_path :=
  cbn; rewrite ?Nat.eqb_refl; cbn; EngineFacts.removal; cbn;
  (eexists; cbn [log]; split;
   [ repeat rewrite <- app_assoc; reflexivity | split; reflexivity ]).

Lemma writeLocalStorageForUrl_log (env : Env) (target : string)
  (payload : Storage) (w : World) :
  exists delta,
    log (snd (writeLocalStorageForUrl env target payload w))
    = (log w ++ delta)%list
    /\ tabsAsked delta = [target] /\ requests delta = [].
Proof.
  run_tab_call.
  destruct (env_tabs_create env (next_tab w) target) as [e|[]];
    [asked_path|].
  destruct (env_tab_loaded env (next_tab w)); [|asked_path].
  destruct (env_tabs_get env (next_tab w)) as [e|currentUrl]; [asked_path|].
  destruct (negb (Str.truthy currentUrl) || isRestrictedUrl currentUrl);
    [asked_path|].
  destruct (env_script_write env (next_tab w) payload); asked_path.
Qed.

(** X15.  Writing the storage of the other origins never fails,
    whatever happens to the tabs: every origin of the list gets exactly
    one tab, in list order, failures are swallowed one origin at a time,
    and no request is sent. *)
Theorem restore_other_origins_best_effort (env : Env) (lsm : StorageMap)
  (origins : list string) (w : World) :
  exists w' delta,
    restoreOthers env lsm origins w = (inr tt, w')
    /\ log w' = (log w ++ delta)%list
    /\ tabsAsked delta = origins
    /\ requests delta = [].
Proof.
  revert w. induction origins as [|o origins IH]; intros w; simpl.
  - exists w, []. rewrite app_nil_r. repeat split.
  - destruct (writeLocalStorageForUrl_log env o
                (match objGet lsm o with Some p => p | None => [] end) w)
      as (d1 & L1 & A1 & R1).
    unfold bind, tryCatch, ret.
    destruct (writeLocalStorageForUrl env o _ w) as [[e|[]] w1];
      cbn [snd] in L1;
      destruct (IH w1) as (w2 & d2 & E2 & L2 & A2 & R2);
      exists w2, (d1 ++ d2)%list; rewrite E2;
      (split; [reflexivity|]);
      rewrite L2, L1, <- app_assoc, tabsAsked_app, EngineFacts.requests_app,
        A1, A2, R1, R2;
      repeat split.
Qed.

(** *** Submitting a backup *)

(** X16.  Submitting a backup sends exactly one request, a POST to the
    base URL followed by [/e2e/backup] when a password is configured
    and by [/backup] when none is, with the content type as its only
    header.  With a password two values are drawn from the random
    source, sixteen bytes of salt and then twelve bytes of nonce, and
    the body is the envelope made with exactly these: the payload is
    the base64 of the serialised cookies and storage map encrypted
    under the nonce with the key derived from the password and the
    salt in 200000 rounds, and salt and nonce go with it in base64.
    Without a password the body holds the cookies and the storage map
    in the clear and no randomness is used.  The backup succeeds,
    reporting the number of cookies, exactly when the response is ok;
    otherwise it fails with the status of the response. *)
Theorem submitBackup_outcome (P : Platform) (env : Env) (c : Context)
  (cookies : list Cookie) (lsm : StorageMap) (apiBase password : string)
  (w : World) :
  env_storage_get env API_BASE_KEY = inr apiBase ->
  env_storage_get env API_PASSWORD_KEY = inr password ->
  exists request,
    log (snd (submitBackup P env c cookies lsm w))
    = (log w ++ [EvFetch request])%list
    /\ req_method request = "POST"
    /\ req_url request
       = baseOf apiBase
         ++ (if Str.truthy password then "/e2e/backup" else "/backup")
    /\ (Str.truthy password = false ->
        req_body request
        = Some (PlainBody (c_userId c) "" (c_rootDomain c) cookies lsm))
    /\ req_headers request = [("Content-Type", "application/json")]
    /\ (Str.truthy password = true ->
        let salt := env_random env (rng_reads w) 16 in
        let nonce := env_random env (S (rng_reads w)) 12 in
        req_body request
        = Some (SealedBody (c_userId c) "" (c_rootDomain c)
                  (btoa P (string_of_list_byte
                             (aesGcmEncrypt P (pbkdf2 P password salt 200000)
                                nonce (jsonEncode P cookies lsm))))
                  (btoa P (string_of_list_byte salt))
                  (btoa P (string_of_list_byte nonce))))
    /\ rng_reads (snd (submitBackup P env c cookies lsm w))
       = (if Str.truthy password then 2 else 0) + rng_reads w
    /\ fst (submitBackup P env c cookies lsm w)
       = match env_fetch env request with
         | None => inl ErrFetch
         | Some response =>
             if resp_ok response
             then inr {| o_domain := c_rootDomain c;
                         o_cookies := length cookies |}
             else inl (ErrBackupFailed (resp_status response))
         end.
Proof.
  intros Hb Hp.
  unfold submitBackup, getApiBase, getApiPassword, storageGet,
    encryptE2EPayload, getRandomValues, fetch, bind, lift, emit, ret,
    throw, baseOf.
  rewrite Hb, Hp.
  destruct (Str.truthy password);
    cbn [open_tabs next_tab rng_reads log e_payload e_salt e_nonce];
    match goal with
    | |- context [env_fetch env ?r] =>
        exists r; destruct (env_fetch env r) as [response|];
        [destruct (resp_ok response)|]
    end;
    cbn [fst snd log rng_reads negb req_method req_url req_body
         req_headers];
    repeat split; try reflexivity; try (intros; discriminate).
Qed.

Lemma submitBackup_outcome_witness :
  fst (submitBackup Sample.platform Sample.hostC
         (mkContext (mkTab 1 Sample.activeUrl) "example.com" "u-1"
                    "https://app.example.com" "app.example.com" (Some "0"))
         Sample.cookiesC Sample.storageC Sample.world0)
  = inr {| o_domain := "example.com"; o_cookies := 3 |}.
Proof.
  destruct (submitBackup_outcome Sample.platform Sample.hostC
              (mkContext (mkTab 1 Sample.activeUrl) "example.com" "u-1"
                         "https://app.example.com" "app.example.com"
                         (Some "0"))
              Sample.cookiesC Sample.storageC "" "" Sample.world0
              eq_refl eq_refl)
    as (request & _ & _ & _ & _ & _ & _ & _ & Hfst).
  rewrite Hfst. reflexivity.
Defined.

End TransferFacts.

(** ** The message tables and the language preference *)

Module I18nFacts.

Import Str I18n.

Lemma lowerChar_z (c : ascii) :
  lowerChar c = "z"%char <-> (c = "z" \/ c = "Z")%char.
Proof.
  destruct c as [[] [] [] [] [] [] [] []]; vm_compute;
    (split; [intros H; try discriminate H; auto
            | intros [H|H]; try discriminate H; reflexivity]).
Qed.

Lemma lowerChar_h (c : ascii) :
  lowerChar c = "h"%char <-> (c = "h" \/ c = "H")%char.
Proof.
  destruct c as [[] [] [] [] [] [] [] []]; vm_compute;
    (split; [intros H; try discriminate H; auto
            | intros [H|H]; try discriminate H; reflexivity]).
Qed.

Lemma normalizeLang_cases (lang : option string) :
  normalizeLang lang = "zh" \/ normalizeLang lang = "en".
Proof.
  destruct lang as [l|]; [|right; reflexivity].
  unfold normalizeLang.
  destruct (negb (truthy l)); [right; reflexivity|].
  cbv zeta. destruct (startsWith (toLowerCase l) "zh"); auto.
Qed.

(** X17. [normalizeLang] answers one of the two supported languages,
    answering it again changes nothing, and the answer is Chinese
    exactly for a language tag whose first two characters are z and h
    in either case. *)
Theorem normalizeLang_spec (lang : option string) :
  (normalizeLang lang = "zh" \/ normalizeLang lang = "en") /\
  normalizeLang (Some (normalizeLang lang)) = normalizeLang lang /\
  (normalizeLang lang = "zh" <->
   exists a b rest,
     lang = Some (String a (String b rest)) /\
     (a = "z" \/ a = "Z")%char /\ (b = "h" \/ b = "H")%char).
Proof.
  split; [apply normalizeLang_cases|].
  split.
  { destruct (normalizeLang_cases lang) as [E|E]; rewrite E; reflexivity. }
  destruct lang as [l|].
  2:{ split; [discriminate|]. intros (a & b & rest & H & _). discriminate H. }
  unfold normalizeLang, startsWith.
  destruct l as [|a [|b rest]].
  - cbn. split; [discriminate|].
    intros (a & b & rest & H & _). discriminate H.
  - cbn -[ascii_dec lowerChar]. split.
    + destruct (ascii_dec "z" (lowerChar a)); discriminate.
    + intros (a' & b & rest & H & _). discriminate H.
  - assert (P0 : forall s, String.prefix "" s = true)
      by (intros []; reflexivity).
    cbn -[ascii_dec lowerChar].
    destruct (ascii_dec "z" (lowerChar a)) as [Ea|Ea].
    + destruct (ascii_dec "h" (lowerChar b)) as [Eb|Eb];
        rewrite ?P0; cbn.
      * split; [intros _|reflexivity].
        exists a, b, rest. split; [reflexivity|].
        split; [apply lowerChar_z|apply lowerChar_h]; congruence.
      * split; [discriminate|].
        intros (a' & b' & rest' & H & _ & Hb). inversion H; subst.
        apply lowerChar_h in Hb. congruence.
    + cbn. split; [discriminate|].
      intros (a' & b' & rest' & H & Ha & _). inversion H; subst.
      apply lowerChar_z in Ha. congruence.
Qed.

Lemma append_empty_r (s : string) : s ++ "" = s.
Proof. induction s as [|c s IH]; simpl; [reflexivity | rewrite IH; reflexivity]. Qed.

Lemma scan_unmatched (params : list (string * string)) (s : string) :
  forall pending,
    (forall key, In key (placeholders pending s) -> lookup params key = None) ->
    scan params pending s
    = match pending with Some word => "{" ++ word | None => "" end ++ s.
Proof.
  induction s as [|c rest IH]; intros pending H.
  - destruct pending as [word|]; cbn [scan].
    + symmetry. apply (append_empty_r ("{" ++ word)).
    + reflexivity.
  - destruct pending as [word|]; cbn [scan placeholders] in *.
    + destruct (isWordChar c).
      * rewrite (IH _ H). cbn [append].
        rewrite ResolverMore.append_assoc'. reflexivity.
      * destruct (Ascii.eqb c "}" && truthy word) eqn:Eclose.
        -- apply andb_prop in Eclose as [Ec _].
           apply Ascii.eqb_eq in Ec. subst c.
           unfold replacement. rewrite (H word (or_introl eq_refl)).
           rewrite (IH None (fun key Hin => H key (or_intror Hin))).
           cbn [append]. rewrite ResolverMore.append_assoc'. reflexivity.
        -- destruct (Ascii.eqb c "{") eqn:Eopen.
           ++ apply Ascii.eqb_eq in Eopen. subst c.
              rewrite (IH _ H). reflexivity.
           ++ rewrite (IH _ H). reflexivity.
    + destruct (Ascii.eqb c "{") eqn:Eopen.
      * apply Ascii.eqb_eq in Eopen. subst c. rewrite (IH _ H). reflexivity.
      * rewrite (IH _ H). reflexivity.
Qed.

(** X18. [interpolate] leaves a text as it is when the parameters hold
    none of the names the text asks for; so it does with no parameters
    at all. *)
Theorem interpolate_without_parameter (params : list (string * string)) :
  (forall text, interpolate text [] = text) /\
  (forall text,
      (forall key, In key (placeholders None text) ->
                   lookup params key = None) ->
      interpolate text params = text).
Proof.
  split; intros text; [|intros H]; unfold interpolate;
    rewrite scan_unmatched; auto.
Qed.

Lemma scan_plain (params : list (string * string)) (pre s : string) :
  (forall c, In c (list_ascii_of_string pre) -> c <> "{"%char) ->
  scan params None (pre ++ s) = pre ++ scan params None s.
Proof.
  induction pre as [|c pre IH]; intros H; [reflexivity|].
  cbn [append scan].
  destruct (Ascii.eqb c "{") eqn:E.
  - apply Ascii.eqb_eq in E. exfalso. apply (H c); [left; reflexivity|exact E].
  - rewrite IH; [reflexivity|]. intros c' Hin. apply H. right. exact Hin.
Qed.

Lemma scan_word (params : list (string * string)) (key s : string) :
  (forall c, In c (list_ascii_of_string key) -> isWordChar c = true) ->
  forall word,
    scan params (Some word) (key ++ s) = scan params (Some (word ++ key)) s.
Proof.
  induction key as [|c key IH]; intros H word.
  - rewrite append_empty_r. reflexivity.
  - cbn [append scan]. rewrite (H c (or_introl eq_refl)).
    rewrite IH by (intros c' Hin; apply H; right; exact Hin).
    rewrite ResolverMore.append_assoc'. reflexivity.
Qed.

(** X19. Where a text without an opening brace is followed by a name
    in braces, [interpolate] passes the text on, puts the value of the
    parameter of that name in place of the braces (the value as it is,
    not read again for names), or keeps the braces and the name when
    there is no such parameter, and goes on with the rest. *)
Theorem interpolate_substitutes (params : list (string * string))
  (pre key post : string) :
  (forall c, In c (list_ascii_of_string pre) -> c <> "{"%char) ->
  key <> "" ->
  (forall c, In c (list_ascii_of_string key) -> isWordChar c = true) ->
  interpolate (pre ++ "{" ++ key ++ "}" ++ post) params
  = pre ++ match lookup params key with
           | Some value => value
           | None => "{" ++ key ++ "}"
           end ++ interpolate post params.
Proof.
  intros Hpre Hkey Hword. unfold interpolate.
  rewrite (scan_plain params pre _ Hpre).
  cbn [append scan Ascii.eqb Bool.eqb].
  rewrite (scan_word params key _ Hword). cbn [append scan].
  replace (isWordChar "}") with false by reflexivity.
  assert (Ht : truthy key = true).
  { unfold truthy. destruct key; [congruence|reflexivity]. }
  rewrite Ht. cbn [Ascii.eqb Bool.eqb andb]. reflexivity.
Qed.

Lemma interpolate_substitutes_witness :
  interpolate "Backup done for {domain} ({cookies} cookies)."
    [("domain", "example.com"); ("cookies", "3")]
  = "Backup done for example.com (3 cookies).".
Proof.
  refine (interpolate_substitutes
            [("domain", "example.com"); ("cookies", "3")]
            "Backup done for " "domain" " ({cookies} cookies)." _ _ _).
  - cbn. intros c H.
    repeat (destruct H as [H|H]; [subst c; discriminate|]). destruct H.
  - discriminate.
  - cbn. intros c H.
    repeat (destruct H as [H|H]; [subst c; reflexivity|]). destruct H.
Defined.

Lemma lookup_None (table : list (string * string)) (key : string) :
  lookup table key = None <-> ~ In key (map fst table).
Proof.
  unfold lookup. induction table as [|[k v] table IH]; cbn [find map fst In].
  - split; [intros _ []|reflexivity].
  - destruct (String.eqb k key) eqn:E.
    + apply String.eqb_eq in E. split; [discriminate|].
      intros H. exfalso. apply H. left. exact E.
    + apply String.eqb_neq in E. rewrite IH. tauto.
Qed.

Lemma getMessages_cases (lang : option string) :
  getMessages lang = STRINGS_zh \/ getMessages lang = STRINGS_en.
Proof.
  unfold getMessages.
  destruct (normalizeLang_cases lang) as [E|E]; rewrite E; auto.
Qed.

Lemma tables_checked :
  forallb
    (fun key =>
       match lookup STRINGS_en key, lookup STRINGS_zh key with
       | Some en, Some zh =>
           truthy en && truthy zh
           && (if list_eq_dec string_dec
                    (placeholders None en) (placeholders None zh)
               then true else false)
           && negb (String.eqb en key) && negb (String.eqb zh key)
       | _, _ => false
       end)
    (map fst STRINGS_en) = true.
Proof. vm_compute. reflexivity. Qed.

(** X20. The English and the Chinese table hold the same keys, none of
    them a name that objects inherit.  For a key they hold, both texts
    are non-empty, differ from the key and ask for the same parameters
    in the same order, and [t] answers one of the two texts whatever the
    language; for any other key that is not inherited [t] answers the
    key itself. *)
Theorem tables_cover_the_same_messages (key : string) :
  (lookup STRINGS_en key = None <-> lookup STRINGS_zh key = None) /\
  (forall en zh,
      lookup STRINGS_en key = Some en -> lookup STRINGS_zh key = Some zh ->
      en <> "" /\ zh <> "" /\ en <> key /\ zh <> key /\
      placeholders None en = placeholders None zh /\
      forall cur ui over,
        t cur ui key None over = en \/ t cur ui key None over = zh) /\
  (In key inherited -> lookup STRINGS_en key = None) /\
  (lookup STRINGS_en key = None -> ~ In key inherited ->
   forall cur ui over, t cur ui key None over = key).
Proof.
  assert (Hkeys : map fst STRINGS_zh = map fst STRINGS_en) by reflexivity.
  split; [rewrite !lookup_None, Hkeys; tauto|].
  split; [|split].
  2:{ intros Hin. cbn in Hin.
      repeat (destruct Hin as [<-|Hin]; [reflexivity|]). destruct Hin. }
  - intros en zh Hen Hzh.
    assert (Hin : In key (map fst STRINGS_en)).
    { destruct (in_dec string_dec key (map fst STRINGS_en)) as [i|n];
        [exact i|].
      apply lookup_None in n. congruence. }
    pose proof (proj1 (forallb_forall _ _) tables_checked key Hin) as H.
    cbv beta in H. rewrite Hen, Hzh in H.
    apply andb_prop in H as [H Hzk]. apply andb_prop in H as [H Hek].
    apply andb_prop in H as [H Hp]. apply andb_prop in H as [Te Tz].
    assert (Ne : en <> "").
    { intros ->. discriminate Te. }
    assert (Nz : zh <> "").
    { intros ->. discriminate Tz. }
    repeat split; try assumption.
    + apply negb_true_iff, String.eqb_neq in Hek. exact Hek.
    + apply negb_true_iff, String.eqb_neq in Hzk. exact Hzk.
    + destruct (list_eq_dec string_dec _ _) as [E|]; [exact E|discriminate].
    + intros cur ui over. unfold t. cbv zeta.
      destruct (getMessages_cases (Some (chosenLang cur ui over))) as [E|E];
        rewrite E.
      * right. rewrite Hzh, Tz. reflexivity.
      * left. rewrite Hen, Te. reflexivity.
  - intros Hen _ cur ui over.
    assert (Hzh : lookup STRINGS_zh key = None).
    { apply lookup_None. rewrite Hkeys. apply lookup_None. exact Hen. }
    unfold t. cbv zeta.
    destruct (getMessages_cases (Some (chosenLang cur ui over))) as [E|E];
      rewrite E; [rewrite Hzh|rewrite Hen]; reflexivity.
Qed.

(** X21. Saving a language sets the language in use to its normal form
    at once, also when the write to storage fails, in which case storage
    keeps what it had.  After a successful write the next start reads
    that language back, whatever the browser's language; and a start
    always ends with a supported language in use. *)
Theorem language_preference_round_trip (lang : option string) (p : Prefs)
  (works : bool) :
  let saved := setStoredLang works lang p in
  currentLang (snd saved) = Some (normalizeLang lang) /\
  fst saved = works /\
  (works = false -> storedLang (snd saved) = storedLang p) /\
  (works = true ->
   forall ui, init true ui None (snd saved)
              = (normalizeLang lang, snd saved)) /\
  (forall works' ui forced p',
      let started := init works' ui forced p' in
      (fst started = "zh" \/ fst started = "en") /\
      currentLang (snd started) = Some (fst started) /\
      storedLang (snd started) = storedLang p').
Proof.
  cbv zeta. unfold setStoredLang.
  destruct works; cbn [fst snd currentLang storedLang].
  - repeat split; try reflexivity; try discriminate.
    + intros _ ui. unfold init, resolveLang. cbn [storedLang].
      destruct (normalizeLang_cases lang) as [E|E]; rewrite E; reflexivity.
    + unfold init, resolveLang, getDefaultLang. cbn [fst].
      repeat match goal with
             | |- context [match ?x with _ => _ end] =>
                 lazymatch x with
                 | normalizeLang _ => fail
                 | _ => destruct x
                 end
             end; apply normalizeLang_cases.
  - repeat split; try reflexivity; try discriminate.
    unfold init, resolveLang, getDefaultLang. cbn [fst].
    repeat match goal with
           | |- context [match ?x with _ => _ end] =>
               lazymatch x with
               | normalizeLang _ => fail
               | _ => destruct x
               end
           end; apply normalizeLang_cases.
Qed.

End I18nFacts.

(** ** The popup *)

Module PopupFacts.

Import Str I18n Popup.

Lemma errorText_shown (nullAccessText : string) (e : Thrown) :
  errorText nullAccessText e <> "".
Proof.
  destruct e as [[m|]|m|]; cbn [errorText];
    try discriminate;
    match goal with
    | |- (if truthy ?s then _ else _) <> _ =>
        destruct s; cbn; discriminate
    end.
Qed.

Lemma tr_shown (currentLang uiLang : option string) (key : string) :
  key <> "" -> tr currentLang uiLang key None <> "".
Proof.
  intros Hkey. unfold tr, t. cbv zeta.
  destruct (lookup _ key) as [m|]; [|exact Hkey].
  destruct m; cbn; [exact Hkey|discriminate].
Qed.

(** X22. When [handleAction] is done, the popup shows what the status
    check at its end shows: the line of the action itself and
    everything the popup showed before are overwritten.  It sends two
    messages, the action and the check, each while all three buttons
    are disabled. *)
Theorem popup_shows_the_last_check (currentLang uiLang : option string)
  (nullAccessText : string) (channel : nat -> string -> Answer)
  (type : string) (p : Popup) (v : View) :
  let asked := (sent p ++ [(type, (true, true, true))])%list in
  view (handleAction currentLang uiLang nullAccessText channel type p)
  = view (runCheck currentLang uiLang nullAccessText channel
            (mkPopup v asked)) /\
  sent (handleAction currentLang uiLang nullAccessText channel type p)
  = (sent p ++ [(type, (true, true, true));
                ("check", (true, true, true))])%list.
Proof.
  cbv zeta.
  unfold handleAction, runCheck, sendMessage.
  cbn [view sent setBusy setStatus negb backup_disabled restore_disabled
       delete_disabled].
  set (asked := (sent p ++ [(type, (true, true, true))])%list).
  assert (Hsent : (asked ++ [("check", (true, true, true))])%list
                  = (sent p ++ [(type, (true, true, true));
                                ("check", (true, true, true))])%list).
  { unfold asked. rewrite <- app_assoc. reflexivity. }
  generalize (settle (channel (length asked) "check")) as second.
  generalize (settle (channel (length (sent p)) type)) as first.
  intros [e|[f|]] [e2|[f2|]];
    repeat match goal with
           | |- context [if ?b then _ else _] => destruct b
           end;
    cbn [view sent negb]; (split; [reflexivity|exact Hsent]).
Qed.

(** X23. After a status check the restore button is enabled exactly
    when the backup button is, and that is exactly when the worker
    answered that the backend is reachable; the delete button is
    enabled exactly when it also reported a backup.  The status line is
    empty in that case and an error line, never empty, in every
    other. *)
Theorem check_sets_the_buttons (currentLang uiLang : option string)
  (nullAccessText : string) (channel : nat -> string -> Answer)
  (p : Popup) :
  let answer := settle (channel (length (sent p)) "check") in
  let v := view (runCheck currentLang uiLang nullAccessText channel p) in
  restore_disabled v = backup_disabled v /\
  (backup_disabled v = false <->
   exists f, answer = inr (Some f) /\ f_backendOk f = true) /\
  (delete_disabled v = false <->
   exists f, answer = inr (Some f) /\ f_backendOk f = true
             /\ f_hasBackup f = true) /\
  (backup_disabled v = false -> status v = "" /\ status_error v = false) /\
  (backup_disabled v = true -> status v <> "" /\ status_error v = true).
Proof.
  cbv zeta. unfold runCheck, sendMessage. cbn [view sent].
  destruct (settle (channel (length (sent p)) "check")) as [e|[f|]].
  - cbn -[errorText tr]. repeat split; try discriminate;
      try (intros (f & H & _); discriminate H).
    apply errorText_shown.
  - destruct (f_backendOk f) eqn:Eok, (f_hasBackup f) eqn:Ebk;
      cbn -[errorText tr]; repeat split; try discriminate; try reflexivity;
      try (intros _; exists f; repeat split; assumption);
      try (intros (f' & H & H1 & H2); inversion H; subst; congruence);
      try (intros (f' & H & H1); inversion H; subst; congruence);
      try (apply tr_shown; discriminate).
  - cbn -[errorText tr]. repeat split; try discriminate;
      try (intros (f & H & _); discriminate H).
    apply errorText_shown.
Qed.

End PopupFacts.

(** ** The messages of the worker's errors *)

Module MessageFacts.

Import Str Browser Remote I18n Messages I18nFacts.

Ltac table_text key :=
  let en := fresh "en" in
  let zh := fresh "zh" in
  let Hen := fresh "Hen" in
  let Hzh := fresh "Hzh" in
  destruct (lookup STRINGS_en key) as [en|] eqn:Hen;
  [|vm_compute in Hen; discriminate Hen];
  destruct (lookup STRINGS_zh key) as [zh|] eqn:Hzh;
  [|vm_compute in Hzh; discriminate Hzh];
  exists en, zh;
  let Ven := fresh "Ven" in
  let Vzh := fresh "Vzh" in
  pose proof Hen as Ven; pose proof Hzh as Vzh;
  vm_compute in Ven; vm_compute in Vzh;
  injection Ven as Ven; injection Vzh as Vzh.

(** X24. Every error message the worker makes with [USK_I18N.t] has its
    key in both tables, with every parameter the text asks for
    supplied, so that the message is the text of the table with its
    parameters filled in; except the messages of a missing user id and
    of an exceeded cookie size, whose keys are in neither table, so
    that the message is the key itself. *)
Theorem worker_messages (currentLang uiLang : option string) (f : Failure)
  (key : string) (params : option (list (string * string))) :
  keyOfFailure currentLang uiLang f = Some (key, params) ->
  ((f = Thrown ErrUserIdMissing \/
    exists limit, f = Thrown (ErrCookieSizeExceeded limit)) /\
   lookup STRINGS_en key = None /\ lookup STRINGS_zh key = None /\
   messageOf currentLang uiLang f = Some key)
  \/
  (exists en zh,
      lookup STRINGS_en key = Some en /\ lookup STRINGS_zh key = Some zh /\
      (forall name, In name (placeholders None en ++ placeholders None zh) ->
                    exists ps value,
                      params = Some ps /\ lookup ps name = Some value) /\
      let render text :=
        match params with
        | Some ps => interpolate text ps
        | None => text
        end in
      (messageOf currentLang uiLang f = Some (render en) \/
       messageOf currentLang uiLang f = Some (render zh))).
Proof.
  intros H. unfold messageOf. rewrite H.
  assert (Hmsg : forall en zh,
             lookup STRINGS_en key = Some en ->
             lookup STRINGS_zh key = Some zh ->
             en <> "" -> zh <> "" ->
             let render text :=
               match params with
               | Some ps => interpolate text ps
               | None => text
               end in
             Some (t currentLang uiLang key params None) = Some (render en)
             \/ Some (t currentLang uiLang key params None)
                = Some (render zh)).
  { intros en zh Hen Hzh Ne Nz. cbv zeta. unfold t. cbv zeta.
    destruct (getMessages_cases
                (Some (chosenLang currentLang uiLang None))) as [E|E];
      rewrite E; [right; rewrite Hzh|left; rewrite Hen].
    - destruct zh; [congruence|reflexivity].
    - destruct en; [congruence|reflexivity]. }
  destruct f as [e|st]; [destruct e|]; cbn -[showZ t] in H;
    try discriminate H; injection H as <- <-;
    try (left; split;
         [solve [left; reflexivity | right; eexists; reflexivity]
         | split; [reflexivity|split; [reflexivity|]];
           unfold t; cbv zeta;
           destruct (getMessages_cases
                       (Some (chosenLang currentLang uiLang None))) as [E|E];
           rewrite E; reflexivity]);
    right;
    match goal with
    | |- exists en zh, lookup _ ?k = _ /\ _ => table_text k
    end;
    (split; [reflexivity|]); (split; [reflexivity|]);
    (split;
     [ subst en zh; cbn -[showZ t]; intros name Hin;
       repeat (destruct Hin as [Hin|Hin];
               [subst name; eexists _, _; split; reflexivity|]);
       destruct Hin
     | apply Hmsg; subst; first [reflexivity | discriminate] ]).
Qed.

Lemma worker_messages_witness :
  messageOf (Some "en") None (Thrown (ErrBackupFailed 500))
  = Some "Backup failed (500)"
  /\ messageOf (Some "en") None (Thrown ErrUserIdMissing)
     = Some "error_user_id_missing".
Proof.
  split.
  - destruct (worker_messages (Some "en") None (Thrown (ErrBackupFailed 500))
                "error_backup_failed" (Some [("status", "500")]) eq_refl)
      as [(_ & H & _)|_]; [vm_compute in H; discriminate H|].
    reflexivity.
  - destruct (worker_messages (Some "en") None (Thrown ErrUserIdMissing)
                "error_user_id_missing" None eq_refl)
      as [(_ & _ & _ & H)|(en & zh & H & _)];
      [exact H|vm_compute in H; discriminate H].
Defined.

End MessageFacts.

(** ** The user id of the options page *)

Module UuidFacts.

Import Str Uuid.
Local Open Scope Z_scope.

Lemma byte_cases (P : Z -> bool) :
  forallb P byteRange = true -> forall b, 0 <= b < 256 -> P b = true.
Proof.
  intros H b Hb. apply (proj1 (forallb_forall _ _) H).
  unfold byteRange. apply in_map_iff. exists (Z.to_nat b).
  split; [lia|]. apply in_seq. lia.
Qed.

Example sample_uuid :
  uuidv5 sampleSha1 "user@example.com" NAMESPACE_X500
  = "38e3f41c-e203-57ed-919d-07e44fb2669a"%string.
Proof. vm_compute. reflexivity. Qed.

Lemma byte_hex (b : Z) :
  0 <= b < 256 ->
  exists c d,
    padStart2 (toString16 b) = String c (String d "") /\
    Ascii.eqb c "-" = false /\ Ascii.eqb d "-" = false /\
    toUint8 (parseInt16 (String c (String d ""))) = b.
Proof.
  intros Hb.
  pose proof
    (byte_cases
       (fun b =>
          match padStart2 (toString16 b) with
          | String c (String d EmptyString) =>
              negb (Ascii.eqb c "-") && negb (Ascii.eqb d "-")
              && (toUint8 (parseInt16 (String c (String d ""))) =? b)
          | _ => false
          end)) as H.
  specialize (H ltac:(vm_compute; reflexivity) b Hb). cbv beta in H.
  destruct (padStart2 (toString16 b)) as [|c [|d [|]]]; try discriminate H.
  exists c, d.
  apply andb_prop in H as [H P]. apply andb_prop in H as [Nc Nd].
  apply negb_true_iff in Nc, Nd. apply Z.eqb_eq in P. auto.
Qed.

Lemma removeDashes_dash (s : string) :
  removeDashes (String "-" s) = removeDashes s.
Proof. reflexivity. Qed.

Lemma removeDashes_keep (c : ascii) (s : string) :
  Ascii.eqb c "-" = false ->
  removeDashes (String c s) = String c (removeDashes s).
Proof. intros H. cbn [removeDashes]. rewrite H. reflexivity. Qed.

Ltac sixteen bytes Hlen :=
  do 16 (destruct bytes as [|? bytes]; [discriminate Hlen|]);
  destruct bytes; [|discriminate Hlen].

Ltac ranges :=
  repeat match goal with
         | H : Forall _ (_ :: _) |- _ =>
             let Hb := fresh "Hb" in
             let Hrest := fresh "Hrest" in
             pose proof (Forall_inv H) as Hb;
             pose proof (Forall_inv_tail H) as Hrest;
             clear H; cbv beta in Hb
         end.

Ltac hexes :=
  repeat match goal with
         | H : 0 <= ?b < 256 |- _ =>
             let c := fresh "c" in
             let d := fresh "d" in
             let E := fresh "E" in
             let Nc := fresh "Nc" in
             let Nd := fresh "Nd" in
             let P := fresh "P" in
             destruct (byte_hex b H) as (c & d & E & Nc & Nd & P);
             clear H; rewrite ?E
         end.

Lemma round_trip (bytes : list Z) :
  length bytes = 16%nat ->
  Forall (fun b => 0 <= b < 256) bytes ->
  uuidToBytes (bytesToUuid bytes) = bytes.
Proof.
  intros Hlen Hrange. sixteen bytes Hlen. ranges.
  unfold bytesToUuid. cbn [map]. hexes.
  cbn -[uuidToBytes]. unfold uuidToBytes. cbv zeta.
  repeat first [ rewrite removeDashes_dash
               | rewrite removeDashes_keep by assumption ].
  cbn -[parseInt16 toUint8].
  repeat match goal with
         | P : toUint8 _ = _ |- _ => rewrite P; clear P
         end.
  reflexivity.
Qed.

(** X25. Sixteen bytes written as a UUID and read back by
    [uuidToBytes] are the same sixteen bytes. *)
Theorem uuid_bytes_round_trip (bytes : list Z) :
  length bytes = 16%nat ->
  Forall (fun b => 0 <= b < 256) bytes ->
  uuidToBytes (bytesToUuid bytes) = bytes.
Proof. exact (round_trip bytes). Qed.

Lemma uuid_bytes_round_trip_witness :
  uuidToBytes (bytesToUuid (firstn 16 sampleDigest)) = firstn 16 sampleDigest.
Proof.
  apply (uuid_bytes_round_trip (firstn 16 sampleDigest)).
  - reflexivity.
  - cbn. repeat constructor; lia.
Defined.

Lemma byte_hex_lower (b : Z) :
  0 <= b < 256 ->
  exists c d,
    padStart2 (toString16 b) = String c (String d "") /\
    isLowerHex c = true /\ isLowerHex d = true.
Proof.
  intros Hb.
  pose proof
    (byte_cases
       (fun b =>
          match padStart2 (toString16 b) with
          | String c (String d EmptyString) => isLowerHex c && isLowerHex d
          | _ => false
          end)) as H.
  specialize (H ltac:(vm_compute; reflexivity) b Hb). cbv beta in H.
  destruct (padStart2 (toString16 b)) as [|c [|d [|]]]; try discriminate H.
  exists c, d. apply andb_prop in H as [Lc Ld]. auto.
Qed.

Lemma version_byte (b : Z) :
  0 <= b < 256 ->
  let p := Z.lor (Z.land b 15) 80 in
  0 <= p < 256 /\ p / 16 = 5 /\ p mod 16 = b mod 16 /\
  exists d, padStart2 (toString16 p) = String "5" (String d "") /\
            isLowerHex d = true.
Proof.
  intros Hb.
  pose proof
    (byte_cases
       (fun b =>
          let p := Z.lor (Z.land b 15) 80 in
          (0 <=? p) && (p <? 256) && (p / 16 =? 5)
          && (p mod 16 =? b mod 16)
          && match padStart2 (toString16 p) with
             | String "5" (String d EmptyString) => isLowerHex d
             | _ => false
             end)) as H.
  specialize (H ltac:(vm_compute; reflexivity) b Hb). cbv beta zeta in H.
  cbv zeta. set (p := Z.lor (Z.land b 15) 80) in *.
  apply andb_prop in H as [H S]. apply andb_prop in H as [H M].
  apply andb_prop in H as [H V]. apply andb_prop in H as [L U].
  apply Z.leb_le in L. apply Z.ltb_lt in U.
  apply Z.eqb_eq in V, M.
  repeat split; try assumption.
  destruct (padStart2 (toString16 p)) as [|c [|d [|]]]; try discriminate S;
    destruct c as [[] [] [] [] [] [] [] []]; try discriminate S.
  exists d. auto.
Qed.

Lemma variant_byte (b : Z) :
  0 <= b < 256 ->
  let p := Z.lor (Z.land b 63) 128 in
  0 <= p < 256 /\ p / 64 = 2 /\ p mod 64 = b mod 64 /\
  exists c d, padStart2 (toString16 p) = String c (String d "") /\
              (c = "8" \/ c = "9" \/ c = "a" \/ c = "b")%char /\
              isLowerHex c = true /\ isLowerHex d = true.
Proof.
  intros Hb.
  pose proof
    (byte_cases
       (fun b =>
          let p := Z.lor (Z.land b 63) 128 in
          (0 <=? p) && (p <? 256) && (p / 64 =? 2)
          && (p mod 64 =? b mod 64)
          && match padStart2 (toString16 p) with
             | String c (String d EmptyString) =>
                 (Ascii.eqb c "8" || Ascii.eqb c "9" || Ascii.eqb c "a"
                  || Ascii.eqb c "b")
                 && isLowerHex c && isLowerHex d
             | _ => false
             end)) as H.
  specialize (H ltac:(vm_compute; reflexivity) b Hb). cbv beta zeta in H.
  cbv zeta. set (p := Z.lor (Z.land b 63) 128) in *.
  apply andb_prop in H as [H S]. apply andb_prop in H as [H M].
  apply andb_prop in H as [H V]. apply andb_prop in H as [L U].
  apply Z.leb_le in L. apply Z.ltb_lt in U.
  apply Z.eqb_eq in V, M.
  repeat split; try assumption.
  destruct (padStart2 (toString16 p)) as [|c [|d [|]]]; try discriminate S.
  exists c, d.
  apply andb_prop in S as [S Ld]. apply andb_prop in S as [S Lc].
  repeat split; try assumption.
  repeat (apply orb_prop in S as [S|S]);
    apply Ascii.eqb_eq in S; auto.
Qed.

(** X26. When the digest has twenty bytes, [uuidv5] answers a UUID of
    36 characters: lower-case digits of base 16 with a dash at
    positions 8, 13, 18 and 23, the digit 5 at position 14 and one of
    8, 9, a, b at position 19.  Read back, its bytes are the first
    sixteen of the digest but for the version in the high half of byte
    6 and the variant in the two high bits of byte 8. *)
Theorem uuidv5_is_version_5 (digest : list Z -> list Z)
  (name namespace : string) :
  let hash := digest (uuidToBytes namespace ++ encode name)%list in
  length hash = 20%nat ->
  Forall (fun b => 0 <= b < 256) hash ->
  let u := uuidv5 digest name namespace in
  let bytes := uuidToBytes u in
  String.length u = 36%nat /\
  (forall i, In i [8; 13; 18; 23]%nat -> String.get i u = Some "-"%char) /\
  String.get 14 u = Some "5"%char /\
  (exists c, String.get 19 u = Some c /\
             (c = "8" \/ c = "9" \/ c = "a" \/ c = "b")%char) /\
  (forall i c, String.get i u = Some c ->
               c = "-"%char \/ isLowerHex c = true) /\
  length bytes = 16%nat /\
  (forall i, (i < 16)%nat -> i <> 6%nat -> i <> 8%nat ->
             nth i bytes 0 = nth i hash 0) /\
  nth 6 bytes 0 / 16 = 5 /\ nth 6 bytes 0 mod 16 = nth 6 hash 0 mod 16 /\
  nth 8 bytes 0 / 64 = 2 /\ nth 8 bytes 0 mod 64 = nth 8 hash 0 mod 64.
Proof.
  cbv zeta. unfold uuidv5. cbv zeta.
  generalize (digest (uuidToBytes namespace ++ encode name)%list) as hash.
  intros hash Hlen Hrange.
  do 20 (destruct hash as [|? hash]; [discriminate Hlen|]);
    destruct hash; [|discriminate Hlen].
  ranges. cbn [patch firstn].
  match goal with
  | |- context [Z.lor (Z.land ?b 15) 80] =>
      match goal with
      | H : 0 <= b < 256 |- _ =>
          destruct (version_byte b H) as (R6 & V6 & M6 & d6 & E6 & L6)
      end
  end.
  match goal with
  | |- context [Z.lor (Z.land ?b 63) 128] =>
      match goal with
      | H : 0 <= b < 256 |- _ =>
          destruct (variant_byte b H)
            as (R8 & V8 & M8 & c8 & d8 & E8 & C8 & Lc8 & Ld8)
      end
  end.
  cbv zeta in *.
  match goal with
  | |- context [uuidToBytes (bytesToUuid ?l)] =>
      rewrite (round_trip l) by
        (try reflexivity; repeat (constructor; [assumption|]); constructor)
  end.
  split; [|split; [|split; [|split; [|split]]]].
  6:{ cbn [length nth].
      split; [reflexivity|].
      split; [|auto].
      intros i Hi N6 N8.
      do 16 (destruct i as [|i]; [try reflexivity; congruence|]). lia. }
  all: unfold bytesToUuid; cbn [map]; rewrite E6, E8;
    repeat match goal with
           | H : 0 <= ?b < 256 |- _ =>
               let c := fresh "c" in
               let d := fresh "d" in
               let E := fresh "E" in
               let Lc := fresh "Lc" in
               let Ld := fresh "Ld" in
               destruct (byte_hex_lower b H) as (c & d & E & Lc & Ld);
               clear H; rewrite ?E
           end;
    cbn.
  - reflexivity.
  - intros i Hi. repeat (destruct Hi as [<-|Hi]; [reflexivity|]). destruct Hi.
  - reflexivity.
  - exists c8. split; [reflexivity|exact C8].
  - intros i ch Hget.
    do 36 (destruct i as [|i];
           [injection Hget as <-; first [left; reflexivity | right; assumption
                                         | right; reflexivity]|]).
    discriminate Hget.
Qed.

Lemma uuidv5_is_version_5_witness :
  String.get 14 (uuidv5 sampleSha1 "user@example.com" NAMESPACE_X500)
  = Some "5"%char.
Proof.
  refine (proj1 (proj2 (proj2
            (uuidv5_is_version_5 sampleSha1 "user@example.com" NAMESPACE_X500
               _ _)))).
  - reflexivity.
  - cbn. repeat constructor; lia.
Defined.

Lemma lowerChar_idem (c : ascii) :
  I18n.lowerChar (I18n.lowerChar c) = I18n.lowerChar c.
Proof. destruct c as [[] [] [] [] [] [] [] []]; reflexivity. Qed.

Lemma isSpace_lower (c : ascii) : isSpace (I18n.lowerChar c) = isSpace c.
Proof. destruct c as [[] [] [] [] [] [] [] []]; reflexivity. Qed.

Lemma toLowerCase_idem (s : string) :
  I18n.toLowerCase (I18n.toLowerCase s) = I18n.toLowerCase s.
Proof.
  induction s as [|c s IH]; cbn [I18n.toLowerCase]; [reflexivity|].
  rewrite lowerChar_idem, IH. reflexivity.
Qed.

Lemma trimStart_lower (s : string) :
  trimStart (I18n.toLowerCase s) = I18n.toLowerCase (trimStart s).
Proof.
  induction s as [|c s IH]; cbn [I18n.toLowerCase trimStart]; [reflexivity|].
  rewrite isSpace_lower. destruct (isSpace c); [exact IH|reflexivity].
Qed.

Lemma trimEnd_lower (s : string) :
  trimEnd (I18n.toLowerCase s) = I18n.toLowerCase (trimEnd s).
Proof.
  induction s as [|c s IH]; cbn [I18n.toLowerCase trimEnd]; [reflexivity|].
  rewrite IH, isSpace_lower.
  destruct (trimEnd s); cbn [I18n.toLowerCase];
    [destruct (isSpace c)|]; reflexivity.
Qed.

Lemma trim_lower (s : string) :
  trim (I18n.toLowerCase s) = I18n.toLowerCase (trim s).
Proof. unfold trim. rewrite trimStart_lower, trimEnd_lower. reflexivity. Qed.

Lemma trimEnd_snoc (w : ascii) (s : string) :
  isSpace w = true ->
  trimEnd (s ++ String w "") = trimEnd s.
Proof.
  intros Hw. induction s as [|c s IH]; cbn [append trimEnd].
  - rewrite Hw. reflexivity.
  - rewrite IH. reflexivity.
Qed.

Lemma trim_snoc (w : ascii) (s : string) :
  isSpace w = true ->
  trim (s ++ String w "") = trim s.
Proof.
  intros Hw. unfold trim.
  induction s as [|c s IH]; cbn [append trimStart].
  - rewrite Hw. reflexivity.
  - destruct (isSpace c); [exact IH|].
    apply (trimEnd_snoc w (String c s) Hw).
Qed.

Lemma trimEnd_empty (s : string) :
  trimEnd s = "" <->
  (forall c, In c (list_ascii_of_string s) -> isSpace c = true).
Proof.
  induction s as [|c s IH]; cbn [trimEnd list_ascii_of_string In].
  - split; [intros _ c []|reflexivity].
  - destruct (trimEnd s) as [|k kept] eqn:E.
    + destruct (isSpace c) eqn:Ec.
      * split; [|reflexivity].
        intros _ c' [<-|Hin]; [exact Ec|].
        apply (proj1 IH eq_refl). exact Hin.
      * split; [discriminate|].
        intros H. rewrite (H c (or_introl eq_refl)) in Ec. discriminate Ec.
    + split; [discriminate|].
      intros H.
      assert (Hs : String k kept = "")
        by (apply IH; intros c' Hin; apply H; right; exact Hin).
      discriminate Hs.
Qed.

Lemma trimStart_spaces (s : string) :
  (forall c, In c (list_ascii_of_string (trimStart s)) -> isSpace c = true)
  <-> (forall c, In c (list_ascii_of_string s) -> isSpace c = true).
Proof.
  induction s as [|c s IH]; cbn [trimStart]; [tauto|].
  destruct (isSpace c) eqn:Ec; [|tauto].
  rewrite IH. cbn [list_ascii_of_string In]. split.
  - intros H c' [<-|Hin]; [exact Ec|apply H; exact Hin].
  - intros H c' Hin. apply H. right. exact Hin.
Qed.

Lemma toLowerCase_empty (s : string) : I18n.toLowerCase s = "" <-> s = "".
Proof. destruct s; cbn; split; congruence. Qed.

Lemma bytesToUuid_shown (bytes : list Z) : bytesToUuid bytes <> "".
Proof.
  unfold bytesToUuid. cbv zeta. unfold Str.join.
  generalize (slice (String.concat ""
                       (map (fun value => padStart2 (toString16 value))
                            bytes)) 0 8).
  intros [|c s]; cbn; discriminate.
Qed.

(** X27. For an e-mail field of ASCII characters, the user id the
    options page stores is empty exactly when the field holds nothing
    but white space; it does not depend on the case of the letters of
    the address, nor on white space before or after it. *)
Theorem user_id_normalises_the_address (digest : list Z -> list Z)
  (field : string) :
  (forall c, In c (list_ascii_of_string field) -> (nat_of_ascii c < 128)%nat) ->
  (userIdOf digest field = "" <->
   forall c, In c (list_ascii_of_string field) -> isSpace c = true) /\
  userIdOf digest (I18n.toLowerCase field) = userIdOf digest field /\
  (forall w, isSpace w = true ->
             userIdOf digest (String w field) = userIdOf digest field /\
             userIdOf digest (field ++ String w "") = userIdOf digest field).
Proof.
  intros _. split; [|split].
  - unfold userIdOf. cbv zeta.
    rewrite <- trimStart_spaces, <- trimEnd_empty. fold (trim field).
    destruct (I18n.toLowerCase (trim field)) as [|k kept] eqn:E.
    + apply (proj1 (toLowerCase_empty _)) in E. rewrite E. cbn. tauto.
    + cbn [truthy String.eqb negb]. split.
      * intros H. exfalso. exact (bytesToUuid_shown _ H).
      * intros H. rewrite H in E. discriminate E.
  - unfold userIdOf. cbv zeta.
    rewrite trim_lower, toLowerCase_idem. reflexivity.
  - intros w Hw. unfold userIdOf. cbv zeta. split.
    + unfold trim. cbn [trimStart]. rewrite Hw. reflexivity.
    + rewrite (trim_snoc w field Hw). reflexivity.
Qed.

Lemma user_id_normalises_the_address_witness :
  userIdOf sampleSha1 " User@Example.com"
  = userIdOf sampleSha1 "User@Example.com"
  /\ userIdOf sampleSha1 (I18n.toLowerCase "User@Example.com")
     = userIdOf sampleSha1 "User@Example.com".
Proof.
  assert (Hascii : forall c,
             In c (list_ascii_of_string "User@Example.com") ->
             (nat_of_ascii c < 128)%nat).
  { cbn. intros c H.
    repeat (destruct H as [<-|H]; [cbn; lia|]). destruct H. }
  destruct (user_id_normalises_the_address sampleSha1 "User@Example.com"
              Hascii) as (_ & Hlower & Hspace).
  split; [|exact Hlower].
  exact (proj1 (Hspace " "%char eq_refl)).
Defined.

End UuidFacts.
